(** * TensorforceModel

    A shallow embedding of [tensorforce/core/models/tensorforce.py]:
    the constructor's configuration resolution (update mode, baseline
    topology, estimator defaults, memory sizing), the update scheduler of
    [core_observe], the experience path ([api_experience],
    [core_experience]), the horizon check of [optimize], acting
    ([core_act]), the updates ([api_update], [core_update]) and the
    composition of the losses ([total_loss], [baseline_loss]).

    The collaborators whose code lives in other files of the package
    (policies, the estimator, the memory, parameters, optimizers) appear
    either as interfaces or as the record of calls made to them. *)

From Stdlib Require Import ZArith QArith Lia.
From stdpp Require Import gmap strings list fin_maps.

Local Open Scope Z_scope.

(** ** Python values, errors, and the error monad *)

(** The values that occur in the configuration dictionaries. *)
Inductive pyval : Type :=
| VNone
| VBool (b : bool)
| VInt (z : Z)
| VFloat (q : Q)
| VStr (s : string)
| VSpec (type : string)        (* a module specification, dict(type=..., ...) *)
| VParameter (lo hi : Z).      (* a parameter specification taking values in lo..hi *)

(** Python truthiness, as used by [assert ... or reward_estimation.get(...)]. *)
Definition truthy (v : pyval) : bool :=
  match v with
  | VNone => false
  | VBool b => b
  | VInt z => negb (z =? 0)
  | VFloat q => negb (Qnum q =? 0)
  | VStr s => negb (String.eqb s "")
  | VSpec _ => true
  | VParameter _ _ => true
  end.

Definition is_None (v : pyval) : bool :=
  match v with VNone => true | _ => false end.

(** [isinstance(v, float)] *)
Definition is_float (v : pyval) : bool :=
  match v with VFloat _ => true | _ => false end.

(** [v == s] for a string literal [s] *)
Definition eq_str (v : pyval) (s : string) : bool :=
  match v with VStr s' => String.eqb s' s | _ => false end.

Inductive error : Type :=
| TensorforceError_value (name argument : string)
| TensorforceError_required (name argument : string)
| TensorforceError_collision (name value : string)
| AssertionError (condition : string)
| KeyError (key : string)
| AttributeError (attribute : string)
| TypeError (message : string)
| UnboundLocalError (name : string)
| InvalidArgumentError (message : string).

Inductive result (A : Type) : Type :=
| Ok (a : A)
| Error (e : error).
Arguments Ok {A} a.
Arguments Error {A} e.

Global Instance result_ret : MRet result := fun A a => Ok a.
Global Instance result_bind : MBind result := fun A B f m =>
  match m with
  | Ok a => f a
  | Error e => Error e
  end.

Definition is_Error {A} (r : result A) : bool :=
  match r with Error _ => true | Ok _ => false end.

(** [assert c] *)
Definition assert (c : bool) (condition : string) : result unit :=
  if c then Ok tt else Error (AssertionError condition).

(** [if c: raise e] *)
Definition raise_if (c : bool) (e : error) : result unit :=
  if c then Error e else Ok tt.

(** [d[key]] on a dictionary *)
Definition getitem (d : gmap string pyval) (key : string) : result pyval :=
  match d !! key with
  | Some v => Ok v
  | None => Error (KeyError key)
  end.

(** [all(key in allowed for key in d)] *)
Definition keys_in (allowed : list string) (d : gmap string pyval) : bool :=
  forallb (fun k => bool_decide (k ∈ allowed)) (map_to_list d).*1.

(** ** What the model takes from tensorforce/util.py

    The module [util] is not among the sources.  The model depends on it
    for the width of the dtype 'long' (line 538 reckons with tf.int32 and
    tf.int64) and for [util.is_nested], which tells the components of a
    values dictionary that are dictionaries themselves. *)
Class Util : Type := {
  long_bits : positive;
  is_nested : string -> bool
}.

(** ** Tensors of dtype 'long'

    Scalars of dtype 'long' are signed integers of [long_bits] bits; sums
    and differences wrap around. *)

Section Long.
Context `{Util}.

(** The least integer above the range of 'long'. *)
Definition long_max : Z := 2 ^ (Z.pos long_bits - 1).

Definition long_wrap (z : Z) : Z :=
  (z + long_max) mod (2 * long_max) - long_max.

Definition long_add (x y : Z) : Z := long_wrap (x + y).
Definition long_sub (x y : Z) : Z := long_wrap (x - y).

(** The values that never overflow in the sums of the scheduler. *)
Definition long_small (z : Z) : Prop := 0 <= z /\ 4 * (z + 1) <= long_max.

End Long.

(** [tf.math.mod]: the floor modulus; a zero divisor fails at run time. *)
Definition long_mod (x y : Z) : result Z :=
  if y =? 0 then Error (InvalidArgumentError "Integer division by zero.")
  else Ok (x mod y).

(** ** Parameter modules *)

Record ParameterModule : Type := {
  min_value : Z;
  max_value : Z
}.

(** Modelled from the spec: parameter modules (tensorforce/core/parameters
    is not among the sources).  A parameter has a least and a greatest
    value; an integer constant is the parameter that only takes that
    value.  Creating it with [min_value]/[max_value] bounds is a
    configuration error when its range leaves the bounds. *)
Definition parameter_of (name : string) (module : pyval)
    : result ParameterModule :=
  match module with
  | VInt c => Ok {| min_value := c; max_value := c |}
  | VParameter lo hi => Ok {| min_value := lo; max_value := hi |}
  | _ => Error (TensorforceError_value name "module")
  end.

(** Modelled from the spec: [add_module] for a parameter with [min_value]
    and [max_value] arguments (tensorforce/core/module.py and
    tensorforce/core/parameters are not among the sources).  The
    configuration is "validated at construction, fatal on violation". *)
Definition add_parameter (name : string) (module : pyval)
    (lower upper : option Z) : result ParameterModule :=
  p ← parameter_of name module;
  _ ← raise_if (from_option (fun b => min_value p <? b) false lower)
        (TensorforceError_value name "lower bound");
  _ ← raise_if (from_option (fun b => b <? max_value p) false upper)
        (TensorforceError_value name "upper bound");
  Ok p.

(** ** Policies (external capability) *)

Module Policy.
Record t : Type := {
  internals_spec : list string;
  max_past_horizon : bool -> Z;        (* argument: on_policy *)
  internals_init : gmap string pyval
}.
End Policy.

(** ** Memory module *)

Record MemoryModule : Type := {
  capacity : Z;
  min_capacity : Z
}.

(** Modelled from the spec: the memory module's constructor
    (tensorforce/core/memories is not among the sources).  "Undersizing
    is a configuration error": a capacity below the required minimum is
    rejected when the module is created. *)
Definition add_memory (capacity min_capacity : Z) : result MemoryModule :=
  _ ← raise_if (capacity <? min_capacity)
        (TensorforceError_value "memory" "capacity");
  Ok {| capacity := capacity; min_capacity := min_capacity |}.

(** Modelled from the spec: a parameter module of dtype 'float' with a
    lower bound (used for the entropy regularization weight). *)
Definition add_float_parameter (name : string) (module : pyval)
    (lower : Q) : result pyval :=
  least ← match module with
          | VFloat q => Ok q
          | VInt c => Ok (inject_Z c)
          | VParameter lo hi => Ok (inject_Z lo)
          | _ => Error (TensorforceError_value name "module")
          end;
  _ ← raise_if (negb (Qle_bool lower least))
        (TensorforceError_value name "lower bound");
  Ok module.

(** ** The estimator module, as the constructor sees it *)

Module Estimator.
(** The arguments the estimator is created with (lines 224-234). *)
Record t : Type := {
  horizon : pyval;
  discount : pyval;
  estimate_horizon : pyval;
  estimate_actions : pyval;
  estimate_terminal : pyval;
  estimate_advantage : pyval;
  min_capacity : Z;
  max_past_horizon : Z
}.
End Estimator.

(** The horizon bounds an estimator reports (tensorforce/core/estimators
    is not among the sources; any implementation fits). *)
Class EstimatorHorizons : Type := {
  min_future_horizon : Estimator.t -> Z;
  max_future_horizon : Estimator.t -> Z
}.

(** ** Constructor arguments and the constructed model *)

Module Args.
Record t : Type := {
  buffer_observe : Z;
  states : list string;                (* names of the state components *)
  actions : list (string * string);    (* name and type of the actions *)
  policy : Policy.t;
  memory : Z;                          (* capacity of the memory specification *)
  update : gmap string pyval;
  optimizer : pyval;
  objective : pyval;
  reward_estimation : gmap string pyval;
  baseline_policy : option Policy.t;
  baseline_optimizer : pyval;
  baseline_objective : pyval;
  entropy_regularization : pyval;
  max_episode_timesteps : option Z
}.
End Args.

Record TensorforceModel : Type := {
  states_spec : list string;
  actions_spec : list (string * string);
  internals_spec : list string;
  policy : Policy.t;
  update_unit : string;
  update_batch_size : ParameterModule;
  update_frequency : option ParameterModule;
  update_start : option ParameterModule;
  optimizer : pyval;
  objective : pyval;
  baseline_optimizer : pyval;
  baseline_loss_weight : pyval;
  is_trainable : bool;                   (* the local of lines 173-180 *)
  separate_baseline_policy : bool;
  baseline : option Policy.t;
  baseline_objective : pyval;
  estimator : Estimator.t;
  memory : MemoryModule;
  entropy_regularization : pyval;
  internals_init : gmap string pyval
}.

(** Lines 68-73: the baseline's internals are added to the policy's; a
    name that is already there is a collision. *)
Fixpoint add_baseline_internals (baseline_internals internals : list string)
    : result (list string) :=
  match baseline_internals with
  | [] => Ok internals
  | internal :: rest =>
      _ ← raise_if (bool_decide (internal ∈ internals))
            (TensorforceError_collision "model" "internals");
      add_baseline_internals rest (internals ++ [internal])
  end.

Definition update_keys : list string :=
  ["batch_size"; "frequency"; "start"; "unit"].

Definition reward_estimation_keys : list string :=
  ["discount"; "estimate_actions"; "estimate_advantage"; "estimate_horizon";
   "estimate_terminal"; "horizon"].

(** [d[key]] after the [key not in d] branch that raises "required". *)
Definition required (d : gmap string pyval) (key argument : string)
    : result pyval :=
  match d !! key with
  | Some v => Ok v
  | None => Error (TensorforceError_required "agent" argument)
  end.

Section Construction.
Context `{EstimatorHorizons}.

(** Lines 154-170: the baseline optimizer and the baseline loss weight. *)
Definition init_baseline_optimizer (a : Args.t) : result (pyval * pyval) :=
  let baseline_optimizer := Args.baseline_optimizer a in
  let baseline_objective := Args.baseline_objective a in
  if is_None baseline_optimizer then
    if is_None baseline_objective then Ok (VNone, VNone)
    else Ok (VNone, VFloat 1)
  else if is_float baseline_optimizer then
    _ ← assert (negb (is_None baseline_objective))
          "baseline_objective is not None";
    Ok (VNone, baseline_optimizer)
  else
    _ ← assert (negb (is_None baseline_objective)
                || bool_decide (is_Some (Args.baseline_policy a)))
          "baseline_objective is not None or baseline_policy is not None";
    Ok (baseline_optimizer, VNone).

(** Lines 173-180: whether the baseline takes part in the main training. *)
Definition init_is_trainable (a : Args.t) (self_baseline_optimizer : pyval)
    : result bool :=
  if (bool_decide (is_Some (Args.baseline_policy a))
      || negb (is_None (Args.baseline_objective a)))
     && is_None self_baseline_optimizer
  then
    _ ← assert (negb (is_None (Args.baseline_objective a))
                || truthy (default (VBool true)
                     (Args.reward_estimation a !! "estimate_advantage")))
          "baseline_objective is not None or reward_estimation.get('estimate_advantage', True)";
    Ok true
  else Ok false.

(** Lines 210-214. *)
Definition default_estimate_horizon
    (separate_baseline_policy : bool)
    (self_baseline_optimizer self_baseline_objective : pyval) : pyval :=
  if negb separate_baseline_policy && is_None self_baseline_optimizer
     && is_None self_baseline_objective
  then VBool false else VStr "late".

(** Lines 215-219. *)
Definition default_estimate_advantage
    (separate_baseline_policy : bool)
    (self_baseline_optimizer self_baseline_objective : pyval) : pyval :=
  if separate_baseline_policy && is_None self_baseline_objective
     && is_None self_baseline_optimizer
  then VBool true else VBool false.

(** Lines 236-254: the minimum capacity required of the memory. *)
Definition init_min_capacity (a : Args.t) (update_unit : string)
    (update_batch_size : ParameterModule) (estimator : Estimator.t)
    : result Z :=
  if String.eqb update_unit "timesteps" then
    let max_past_horizon := Policy.max_past_horizon (Args.policy a) true in
    let max_past_horizon :=
      match Args.baseline_policy a with
      | Some baseline =>
          Z.max max_past_horizon
            (Policy.max_past_horizon baseline true
             - min_future_horizon estimator)
      | None => max_past_horizon
      end in
    Ok (max_value update_batch_size + 1 + max_past_horizon
        + max_future_horizon estimator)
  else if String.eqb update_unit "episodes" then
    match Args.max_episode_timesteps a with
    | None => Ok 0
    | Some max_episode_timesteps =>
        Ok ((max_value update_batch_size + 1) * max_episode_timesteps)
    end
  else Error (AssertionError "False").

(** [TensorforceModel.__init__] (lines 31-273).  The constructor of the
    parent class and the creation of the policy, optimizer and objective
    modules are calls into other files that return; they leave no trace
    here beyond the attributes they set. *)
Definition init (a : Args.t) : result TensorforceModel :=
  let update := Args.update a in
  let reward_estimation := Args.reward_estimation a in
  (* Policy internals specification *)
  let internals := Policy.internals_spec (Args.policy a) in
  _ ← raise_if (existsb (String.prefix "baseline-") internals)
        (TensorforceError_value "model" "internals");
  (* Baseline internals specification *)
  internals ← match Args.baseline_policy a with
              | None => Ok internals
              | Some baseline =>
                  add_baseline_internals (Policy.internals_spec baseline) internals
              end;
  (* Update mode *)
  _ ← raise_if (negb (keys_in update_keys update))
        (TensorforceError_value "agent" "update");
  unit ← required update "unit" "update[unit]";
  update_unit ← match unit with
                | VStr s =>
                    if bool_decide (s ∈ ["timesteps"; "episodes"]) then Ok s
                    else Error (TensorforceError_value "agent" "update[unit]")
                | _ => Error (TensorforceError_value "agent" "update[unit]")
                end;
  batch_size ← required update "batch_size" "update[batch_size]";
  update_batch_size ←
    add_parameter "update_batch_size" batch_size (Some 1) None;
  '(update_frequency, update_start) ←
    if from_option (fun frequency => eq_str frequency "never") false
         (update !! "frequency")
    then Ok (None, None)
    else
      f ← add_parameter "update_frequency"
            (default batch_size (update !! "frequency"))
            (Some 1) (Some (Z.max 2 (max_value update_batch_size)));
      s ← add_parameter "update_start"
            (default (VInt 0) (update !! "start")) (Some 0) None;
      Ok (Some f, Some s);
  (* Baseline optimizer *)
  '(self_baseline_optimizer, baseline_loss_weight) ←
    init_baseline_optimizer a;
  (* Baseline *)
  is_trainable ← init_is_trainable a self_baseline_optimizer;
  let separate_baseline_policy :=
    bool_decide (is_Some (Args.baseline_policy a)) in
  (* Baseline objective *)
  let self_baseline_objective := Args.baseline_objective a in
  (* Estimator *)
  _ ← raise_if (negb (keys_in reward_estimation_keys reward_estimation))
        (TensorforceError_value "agent" "reward_estimation");
  let estimate_horizon :=
    default_estimate_horizon separate_baseline_policy
      self_baseline_optimizer self_baseline_objective in
  let estimate_advantage :=
    default_estimate_advantage separate_baseline_policy
      self_baseline_optimizer self_baseline_objective in
  let max_past_horizon :=
    match Args.baseline_policy a with
    | Some baseline => Policy.max_past_horizon baseline false
    | None => Policy.max_past_horizon (Args.policy a) false
    end in
  horizon ← getitem reward_estimation "horizon";
  let estimator :=
    {| Estimator.horizon := horizon;
       Estimator.discount :=
         default (VFloat 1) (reward_estimation !! "discount");
       Estimator.estimate_horizon :=
         default estimate_horizon (reward_estimation !! "estimate_horizon");
       Estimator.estimate_actions :=
         default (VBool false) (reward_estimation !! "estimate_actions");
       Estimator.estimate_terminal :=
         default (VBool false) (reward_estimation !! "estimate_terminal");
       Estimator.estimate_advantage :=
         default estimate_advantage
           (reward_estimation !! "estimate_advantage");
       Estimator.min_capacity := Args.buffer_observe a;
       Estimator.max_past_horizon := max_past_horizon |} in
  (* Memory *)
  min_capacity ← init_min_capacity a update_unit update_batch_size estimator;
  memory ← add_memory (Args.memory a) min_capacity;
  (* Entropy regularization *)
  entropy_regularization ←
    add_float_parameter "entropy_regularization"
      (if is_None (Args.entropy_regularization a) then VFloat 0
       else Args.entropy_regularization a) 0%Q;
  (* Internals initialization *)
  let internals_init :=
    match Args.baseline_policy a with
    | Some baseline =>
        Policy.internals_init baseline
          ∪ Policy.internals_init (Args.policy a)
    | None => Policy.internals_init (Args.policy a)
    end in
  _ ← raise_if (existsb is_None (map_to_list internals_init).*2)
        (TensorforceError_required "model" "internals_init");
  Ok {| states_spec := Args.states a;
        actions_spec := Args.actions a;
        internals_spec := internals;
        policy := Args.policy a;
        update_unit := update_unit;
        update_batch_size := update_batch_size;
        update_frequency := update_frequency;
        update_start := update_start;
        optimizer := Args.optimizer a;
        objective := Args.objective a;
        baseline_optimizer := self_baseline_optimizer;
        baseline_loss_weight := baseline_loss_weight;
        is_trainable := is_trainable;
        separate_baseline_policy := separate_baseline_policy;
        baseline := Args.baseline_policy a;
        baseline_objective := self_baseline_objective;
        estimator := estimator;
        memory := memory;
        entropy_regularization := entropy_regularization;
        internals_init := internals_init |}.

End Construction.

(** ** Run time: tensors, the estimator interface, variables *)

(** The module passed as [baseline=...] to the estimator. *)
Inductive baseline_arg : Type := self_policy | self_baseline.

(** The values other modules hand to the model during one run of the
    graph: [Parameter.value()], [Policy.past_horizon(on_policy)],
    [Estimator.future_horizon()]. *)
Record Env : Type := {
  batch_size_value : Z;
  frequency_value : Z;
  start_value : Z;
  policy_past_horizon : bool -> Z;
  baseline_past_horizon : bool -> Z;
  future_horizon : Z
}.

Section Runtime.
Context `{Util} {Cell : Type}.

(** A tensor is the list of its rows along the batch axis (the rows are
    typed by [Cell], which fixes dtype and inner shape); a component of a
    values dictionary is a tensor or a dictionary of tensors. *)
Inductive value : Type :=
| Tensor (t : list Cell)
| Nested (d : list (string * list Cell)).

Definition values : Type := list (string * value).

(** An action mask has, for every row of the batch and every position of
    the action's shape, one flag per action value. *)
Definition mask : Type := list (list (list bool)).

Record Batch : Type := {
  states : list (string * list Cell);
  internals : list (string * list Cell);
  auxiliaries : list (string * mask);
  actions : list (string * list Cell);
  terminal : list Z;
  reward : list Q
}.

(** The estimator (spec 4.1): [enqueue] stages a batch and returns
    [(any_overwritten, overwritten_values)], [reset] flushes what is
    staged. *)
Class EstimatorModule : Type := {
  staging : Type;
  enqueue : baseline_arg -> Batch -> staging -> staging * (bool * values);
  reset : baseline_arg -> staging -> staging * values
}.

(** Calls made to the memory, the estimator and the optimizers. *)
Inductive event : Type :=
| memory_enqueue (v : values)
| memory_retrieve_timesteps (n past_horizon future_horizon : Z)
| memory_retrieve_episodes (n : Z)
| memory_retrieve (what : list string)
| memory_predecessors (horizon : Z)
| estimator_complete (baseline : baseline_arg)
| estimator_estimate (baseline : baseline_arg) (is_baseline_optimized : bool)
| optimizer_minimize
| baseline_optimizer_minimize.

Context `{EstimatorModule}.

(** The variables of the graph and the state of the collaborators. *)
Record State : Type := {
  staged : staging;
  trace : list event;
  last_update : Z;
  update : Z;
  timestep : Z;
  episode : Z;
  buffer_index : list Z
}.

Definition call (e : event) (s : State) : State :=
  {| staged := staged s; trace := trace s ++ [e];
     last_update := last_update s; update := update s;
     timestep := timestep s; episode := episode s;
     buffer_index := buffer_index s |}.

Definition set_staged (st : staging) (s : State) : State :=
  {| staged := st; trace := trace s;
     last_update := last_update s; update := update s;
     timestep := timestep s; episode := episode s;
     buffer_index := buffer_index s |}.

Definition assign_last_update (value : Z) (s : State) : State :=
  {| staged := staged s; trace := trace s;
     last_update := value; update := update s;
     timestep := timestep s; episode := episode s;
     buffer_index := buffer_index s |}.

Definition assign_add_update (delta : Z) (s : State) : State :=
  {| staged := staged s; trace := trace s;
     last_update := last_update s; update := long_add (update s) delta;
     timestep := timestep s; episode := episode s;
     buffer_index := buffer_index s |}.

(** [tf_initialize] (lines 318-331): on top of the variables of the
    parent class, the variable last-update is created with value -1. *)
Definition tf_initialize (staged0 : staging)
    (update0 timestep0 episode0 : Z) (buffer_index0 : list Z) : State :=
  {| staged := staged0; trace := [];
     last_update := -1; update := update0;
     timestep := timestep0; episode := episode0;
     buffer_index := buffer_index0 |}.

(** [tf.debugging.assert_*] evaluated in a run of the graph. *)
Definition tf_assert (c : bool) (message : string) : result unit :=
  if c then Ok tt else Error (InvalidArgumentError message).

(** [t[-1]] on a tensor of rank one. *)
Definition last_item (t : list Z) : result Z :=
  match last t with
  | Some x => Ok x
  | None =>
      Error (InvalidArgumentError "slice index -1 of dimension 0 out of bounds.")
  end.

Definition baseline_of (m : TensorforceModel) : baseline_arg :=
  if separate_baseline_policy m then self_baseline else self_policy.

(** [self.baseline] read outside an [if self.separate_baseline_policy]:
    the attribute is assigned on line 185 alone, in the branch of lines
    181-189 that sets [separate_baseline_policy] to True; on a model built
    without a baseline policy the read raises. *)
Definition getattr_baseline (m : TensorforceModel) : result baseline_arg :=
  if separate_baseline_policy m then Ok self_baseline
  else Error (AttributeError "baseline").

(** [d.get(name)] and [d[name]] on an ordered dictionary. *)
Fixpoint od_get {V} (d : list (string * V)) (name : string) : option V :=
  match d with
  | [] => None
  | (key, v) :: rest => if String.eqb key name then Some v else od_get rest name
  end.

Definition od_getitem {V} (d : list (string * V)) (name : string) : result V :=
  match od_get d name with
  | Some v => Ok v
  | None => Error (KeyError name)
  end.

(** Modelled from the spec: [util.zip_items] (tensorforce/util.py is not
    among the sources).  Two dictionaries are merged component by
    component: the items of the first come with the value the second holds
    under the same name. *)
Fixpoint zip_items {V} (d1 d2 : list (string * V))
    : result (list (string * V * V)) :=
  match d1 with
  | [] => Ok []
  | (name, value1) :: rest =>
      value2 ← od_getitem d2 name;
      items ← zip_items rest d2;
      Ok ((name, value1, value2) :: items)
  end.

(** Lines 659-663: the inner loop over [util.zip_items(value1, value2)]. *)
Definition concat_nested (value1 value2 : list (string * list Cell))
    : result (list (string * list Cell)) :=
  items ← zip_items value1 value2;
  Ok (map (fun item : string * list Cell * list Cell =>
             let '(inner_name, value1, value2) := item in
             (inner_name, value1 ++ value2)) items).

(** Lines 658-665: the body of the loop over
    [util.zip_items(overwritten_values, reset_values)]. *)
Definition concat_value (name : string) (value1 value2 : value)
    : result value :=
  if is_nested name then
    match value1, value2 with
    | Nested d1, Nested d2 => d ← concat_nested d1 d2; Ok (Nested d)
    | _, _ => Error (AssertionError "isinstance(arg, dict)")
    end
  else
    match value1, value2 with
    | Tensor t1, Tensor t2 => Ok (Tensor (t1 ++ t2))
    | _, _ => Error (TypeError "tf.concat")
    end.

Fixpoint concat_items (items : list (string * value * value))
    : result values :=
  match items with
  | [] => Ok []
  | (name, value1, value2) :: rest =>
      new ← concat_value name value1 value2;
      new_overwritten_values ← concat_items rest;
      Ok ((name, new) :: new_overwritten_values)
  end.

(** Lines 656-666: [true_fn] without the call of [reset]. *)
Definition concat_values (overwritten_values reset_values : values)
    : result values :=
  items ← zip_items overwritten_values reset_values;
  concat_items items.

(** [tf.shape(input=terminal)[0]] of [values['terminal']]. *)
Definition num_values (v : values) : result Z :=
  terminal ← od_getitem v "terminal";
  match terminal with
  | Tensor t => Ok (Z.of_nat (length t))
  | Nested _ => Error (TypeError "tf.shape")
  end.

(** [core_experience] (lines 632-688). *)
Definition core_experience (m : TensorforceModel) (b : Batch) (s : State)
    : result State :=
  (* Enqueue experience for early reward estimation *)
  let '(st, (any_overwritten, overwritten_values)) :=
    enqueue (baseline_of m) b (staged s) in
  let s := set_staged st s in
  (* If terminal, store remaining values in memory *)
  last_terminal ← last_item (terminal b);
  '(s, values) ←
    (if 0 <? last_terminal then
       let '(st, reset_values) := reset (baseline_of m) (staged s) in
       new_overwritten_values ← concat_values overwritten_values reset_values;
       Ok (set_staged st s, new_overwritten_values)
     else Ok (s, overwritten_values));
  (* If any, store overwritten values *)
  n ← num_values values;
  if 0 <? n then Ok (call (memory_enqueue values) s) else Ok s.

(** [optimize_baseline] (lines 1028-1124): the calls up to the step of the
    baseline optimizer; the summaries after the step are left out.  Line
    1031 reads [self.baseline] first of all. *)
Definition optimize_baseline (m : TensorforceModel) (env : Env) (s : State)
    : result State :=
  (* Retrieve states, internals, actions and reward *)
  baseline ← getattr_baseline m;
  let past_horizon := baseline_past_horizon env true in
  let s := call (memory_predecessors past_horizon) s in
  let s := call (memory_retrieve ["auxiliaries"; "actions"; "reward"]) s in
  (* Reward estimation *)
  let s := call (memory_retrieve ["reward"]) s in
  let s := call (estimator_complete baseline) s in
  (* Optimization *)
  Ok (call baseline_optimizer_minimize s).

(** [optimize] (lines 723-971): the calls up to the optimizer step and the
    assertion among them; the summaries after the step are left out.  The
    optimizer arguments of line 820 are made from [self.policy] and
    [self.baseline], whatever the baseline topology. *)
Definition optimize (m : TensorforceModel) (env : Env) (s : State)
    : result State :=
  (* Baseline optimization *)
  s ← (if negb (is_None (baseline_optimizer m))
       then optimize_baseline m env s else Ok s);
  (* Reward estimation *)
  let s := call (memory_retrieve ["reward"]) s in
  let s := call (estimator_complete (baseline_of m)) s in
  let is_baseline_optimized :=
    separate_baseline_policy m && is_None (baseline_optimizer m)
    && is_None (baseline_objective m) in
  let s := call (estimator_estimate (baseline_of m) is_baseline_optimized) s in
  (* Retrieve states, internals and actions *)
  let past_horizon := policy_past_horizon env true in
  _ ← (if separate_baseline_policy m && is_None (baseline_optimizer m)
       then tf_assert (past_horizon =? baseline_past_horizon env true)
              "Policy and baseline depend on a different number of previous states."
       else Ok tt);
  let s := call (memory_predecessors past_horizon) s in
  let s := call (memory_retrieve ["auxiliaries"; "actions"]) s in
  (* Optimizer arguments *)
  _ ← getattr_baseline m;
  (* Optimization *)
  Ok (call optimizer_minimize s).

(** [core_update] (lines 690-721). *)
Definition core_update (m : TensorforceModel) (env : Env) (s : State)
    : result State :=
  (* Retrieve batch *)
  let batch_size := batch_size_value env in
  s ← (if String.eqb (update_unit m) "timesteps" then
         let past_horizon := policy_past_horizon env true in
         let past_horizon :=
           if separate_baseline_policy m
           then Z.max past_horizon (baseline_past_horizon env true)
           else past_horizon in
         Ok (call (memory_retrieve_timesteps batch_size past_horizon
                     (future_horizon env)) s)
       else if String.eqb (update_unit m) "episodes" then
         Ok (call (memory_retrieve_episodes batch_size) s)
       else Error (UnboundLocalError "indices"));
  (* Optimization *)
  s ← optimize m env s;
  (* Increment update *)
  Ok (assign_add_update 1 s).

(** Lines 596-617: the start of the schedule and the shifted unit. *)
Definition scheduler_start (m : TensorforceModel) (env : Env) : result Z :=
  let frequency := frequency_value env in
  let start := start_value env in
  if String.eqb (update_unit m) "timesteps" then
    let past_horizon := policy_past_horizon env true in
    let past_horizon :=
      if separate_baseline_policy m
      then Z.max past_horizon
             (long_sub (baseline_past_horizon env true) (future_horizon env))
      else past_horizon in
    Ok (Z.max start
          (long_add (long_add (long_add frequency past_horizon)
                       (future_horizon env)) 1))
  else if String.eqb (update_unit m) "episodes" then
    Ok (Z.max start frequency)
  else Error (UnboundLocalError "unit").

Definition scheduler_unit (m : TensorforceModel) (env : Env) (s : State)
    : result Z :=
  start ← scheduler_start m env;
  let unit :=
    if String.eqb (update_unit m) "timesteps" then timestep s else episode s in
  Ok (long_sub unit start).

(** Lines 617-619: the shifted unit and the condition [is_frequency]. *)
Definition is_frequency (m : TensorforceModel) (env : Env) (s : State)
    : result (Z * bool) :=
  unit ← scheduler_unit m env s;
  remainder ← long_mod unit (frequency_value env);
  Ok (unit, (remainder =? 0) && (last_update s <? unit)).

(** Lines 621-624. *)
Definition perform_update (m : TensorforceModel) (env : Env) (unit : Z)
    (s : State) : result State :=
  core_update m env (assign_last_update unit s).

(** [core_observe] (lines 575-630). *)
Definition core_observe (m : TensorforceModel) (env : Env) (b : Batch)
    (s : State) : result State :=
  (* Experience *)
  s ← core_experience m b s;
  (* If no periodic update *)
  match update_frequency m with
  | None => Ok s
  | Some _ =>
      (* Periodic update *)
      '(shifted, fire) ← is_frequency m env s;
      if fire : bool then perform_update m env shifted s else Ok s
  end.

(** A sequence of [core_observe] calls; before each call the parent
    class has set the global timestep and episode counters. *)
Record Observation : Type := {
  obs_env : Env;
  obs_batch : Batch;
  obs_timestep : Z;
  obs_episode : Z
}.

Definition set_counters (timestep episode : Z) (s : State) : State :=
  {| staged := staged s; trace := trace s;
     last_update := last_update s; update := update s;
     timestep := timestep; episode := episode;
     buffer_index := buffer_index s |}.

Fixpoint run_observe (m : TensorforceModel) (calls : list Observation)
    (s : State) : result State :=
  match calls with
  | [] => Ok s
  | o :: rest =>
      s ← core_observe m (obs_env o) (obs_batch o)
            (set_counters (obs_timestep o) (obs_episode o) s);
      run_observe m rest s
  end.

(** Lines 369-386: the three assertions on the episode structure. *)
Definition long_sum (t : list Z) : Z := foldr long_add 0 t.

Definition count_nonzero (t : list Z) : Z :=
  Z.of_nat (length (filter (fun x => x ≠ 0) t)).

Definition assert_buffer_index_zero (s : State) : result unit :=
  tf_assert (long_sum (buffer_index s) =? 0)
    "Agent.experience: cannot be called mid-episode.".

Definition assert_at_most_one_terminal (b : Batch) : result unit :=
  tf_assert (count_nonzero (terminal b) <=? 1)
    "Agent.experience: input contains more than one terminal.".

Definition assert_terminal_last (b : Batch) : result unit :=
  last_terminal ← last_item (terminal b);
  tf_assert (Bool.eqb (existsb (fun x => 0 <? x) (terminal b))
                      (0 <? last_terminal))
    "Agent.experience: terminal is not the last input timestep.".

(** Lines 387-462: the batch axis of [d[name]] has the length of
    [terminal], for every name of the specification. *)
Fixpoint assert_batch_axis {R} (what : string) (b : Batch)
    (names : list string) (d : list (string * list R)) : result unit :=
  match names with
  | [] => Ok tt
  | name :: rest =>
      x ← od_getitem d name;
      _ ← tf_assert (length x =? length (terminal b))%nat
            ("Agent.experience: invalid shape for " +:+ name +:+ " "
             +:+ what +:+ " input.");
      assert_batch_axis what b rest d
  end.

(** Lines 418-448: the masks of the actions of type 'int'. *)
Fixpoint assert_action_masks (b : Batch) (actions_spec : list (string * string))
    : result unit :=
  match actions_spec with
  | [] => Ok tt
  | (name, type) :: rest =>
      _ ← (if String.eqb type "int" then
             let name := name +:+ "_mask" in
             x ← od_getitem (auxiliaries b) name;
             _ ← tf_assert (length x =? length (terminal b))%nat
                   ("Agent.experience: invalid shape for " +:+ name
                    +:+ " action-mask input.");
             tf_assert (forallb (forallb (existsb id)) x)
               ("Agent.experience: at least one action has to be valid for "
                +:+ name +:+ " action-mask input.")
           else Ok tt);
      assert_action_masks b rest
  end.

(** [api_experience] (lines 333-491). *)
Definition api_experience (m : TensorforceModel) (b : Batch) (s : State)
    : result State :=
  (* Assertions *)
  _ ← tf_assert (length (terminal b) =? length (reward b))%nat
        "Agent.experience: incompatible shapes of terminal and reward input.";
  _ ← assert_buffer_index_zero s;
  _ ← assert_at_most_one_terminal b;
  _ ← assert_terminal_last b;
  _ ← assert_batch_axis "state" b (states_spec m) (states b);
  _ ← assert_batch_axis "internal" b (internals_spec m) (internals b);
  _ ← assert_action_masks b (actions_spec m);
  _ ← assert_batch_axis "action" b (actions_spec m).*1 (actions b);
  (* Core experience: retrieve experience operation *)
  core_experience m b s.

(** [api_update] (lines 493-517). *)
Definition api_update (m : TensorforceModel) (env : Env) (s : State)
    : result State :=
  core_update m env s.

End Runtime.

(** ** A stand-in estimator and sample configurations, to run the model *)

Module Sample.

(** 'long' is tf.int64; states, internals, auxiliaries and actions are the
    nested components. *)
Global Instance util : Util := {
  long_bits := 64;
  is_nested := fun name =>
    bool_decide (name ∈ ["states"; "internals"; "auxiliaries"; "actions"])
}.

(** Horizon bounds of an estimator whose horizon is a parameter; the
    'late' horizon estimate looks one step further. *)
Definition horizon_bound (pick : ParameterModule -> Z) (e : Estimator.t) : Z :=
  let h := match Estimator.horizon e with
           | VInt c => c
           | VParameter lo hi => pick {| min_value := lo; max_value := hi |}
           | _ => 0
           end in
  if eq_str (Estimator.estimate_horizon e) "late" then h + 1 else h.

Global Instance horizons : EstimatorHorizons := {
  min_future_horizon := horizon_bound min_value;
  max_future_horizon := horizon_bound max_value
}.

Definition feedforward : Policy.t :=
  {| Policy.internals_spec := [];
     Policy.max_past_horizon := fun _ => 0;
     Policy.internals_init := ∅ |}.

Definition recurrent (name : string) (past : Z) : Policy.t :=
  {| Policy.internals_spec := [name];
     Policy.max_past_horizon := fun _ => past;
     Policy.internals_init := {[ name := VFloat 0 ]} |}.

Definition args (update reward_estimation : gmap string pyval)
    (baseline_policy : option Policy.t)
    (baseline_optimizer baseline_objective : pyval)
    (max_episode_timesteps : option Z) : Args.t :=
  {| Args.buffer_observe := 1;
     Args.states := ["state"];
     Args.actions := [("action", "int")];
     Args.policy := feedforward;
     Args.memory := 1000;
     Args.update := update;
     Args.optimizer := VSpec "adam";
     Args.objective := VSpec "policy_gradient";
     Args.reward_estimation := reward_estimation;
     Args.baseline_policy := baseline_policy;
     Args.baseline_optimizer := baseline_optimizer;
     Args.baseline_objective := baseline_objective;
     Args.entropy_regularization := VNone;
     Args.max_episode_timesteps := max_episode_timesteps |}.

Definition update_timesteps : gmap string pyval :=
  {[ "unit" := VStr "timesteps"; "batch_size" := VInt 8 ]}.

Definition horizon3 : gmap string pyval :=
  {[ "horizon" := VInt 3 ]}.

Definition update_episodes : gmap string pyval :=
  {[ "unit" := VStr "episodes"; "batch_size" := VInt 8 ]}.

Definition args_plain : Args.t :=
  args update_timesteps horizon3 None VNone VNone None.

(** Episode-based updates without an episode length limit. *)
Definition args_episodes_unbounded : Args.t :=
  args update_episodes horizon3 None VNone VNone None.

Definition args_episodes_bounded : Args.t :=
  args update_episodes horizon3 None VNone VNone (Some 100).

(** A frequency above the batch size. *)
Definition args_frequency_9 : Args.t :=
  args (<["frequency" := VInt 9]> update_timesteps) horizon3
    None VNone VNone None.

Definition args_never : Args.t :=
  args (<["frequency" := VStr "never"]> update_timesteps) horizon3
    None VNone VNone None.

(** A baseline loss weight without a baseline objective. *)
Definition args_weight_only : Args.t :=
  args update_timesteps horizon3 None (VFloat 0.5) VNone None.

(** A separate baseline policy, no baseline objective or optimizer, and
    advantage estimation switched off. *)
Definition args_untrained_baseline : Args.t :=
  args update_timesteps (<["estimate_advantage" := VBool false]> horizon3)
    (Some (recurrent "baseline-state" 2)) VNone VNone None.

(** A baseline objective alone (row "n y n" of the table). *)
Definition args_objective_only : Args.t :=
  args update_timesteps horizon3 None VNone (VSpec "value") None.

(** A stand-in estimator over cells that are Python values: it keeps
    the last [keep] rows staged and hands back the older ones. *)
Definition keep : nat := 2.

Definition row : Type := (pyval * (Z * Q))%type.

Definition rows_of (b : @Batch pyval) : list row :=
  zip (default [] (snd <$> head (states b))) (zip (terminal b) (reward b)).

Definition values_of (rows : list row) : @values pyval :=
  [ ("states", Nested [("state", rows.*1)]);
    ("terminal", Tensor (VInt <$> rows.*2.*1));
    ("reward", Tensor (VFloat <$> rows.*2.*2)) ].

Global Instance staging_estimator : @EstimatorModule pyval := {
  staging := list row;
  enqueue := fun _ b st =>
    let all := st ++ rows_of b in
    let n := (length all - keep)%nat in
    (drop n all, (bool_decide (0 < n)%nat, values_of (take n all)));
  reset := fun _ st => ([], values_of st)
}.

(** A batch with the given terminal flags: one state component, one action
    with two values, both allowed. *)
Definition batch (flags : list Z) : @Batch pyval :=
  {| states := [("state", VInt <$> flags)];
     internals := [];
     auxiliaries := [("action_mask", (fun _ => [[true; true]]) <$> flags)];
     actions := [("action", (fun _ => VInt 0) <$> flags)];
     terminal := flags;
     reward := (fun _ => 1%Q) <$> flags |}.

Definition env (frequency start past future : Z) : Env :=
  {| batch_size_value := frequency;
     frequency_value := frequency;
     start_value := start;
     policy_past_horizon := fun _ => past;
     baseline_past_horizon := fun _ => past;
     future_horizon := future |}.

(** The model constructed from [args_plain]. *)
Definition model_plain : TensorforceModel :=
  {| states_spec := ["state"];
     actions_spec := [("action", "int")];
     internals_spec := [];
     policy := feedforward;
     update_unit := "timesteps";
     update_batch_size := {| min_value := 8; max_value := 8 |};
     update_frequency := Some {| min_value := 8; max_value := 8 |};
     update_start := Some {| min_value := 0; max_value := 0 |};
     optimizer := VSpec "adam";
     objective := VSpec "policy_gradient";
     baseline_optimizer := VNone;
     baseline_loss_weight := VNone;
     is_trainable := false;
     separate_baseline_policy := false;
     baseline := None;
     baseline_objective := VNone;
     estimator :=
       {| Estimator.horizon := VInt 3;
          Estimator.discount := VFloat 1;
          Estimator.estimate_horizon := VBool false;
          Estimator.estimate_actions := VBool false;
          Estimator.estimate_terminal := VBool false;
          Estimator.estimate_advantage := VBool false;
          Estimator.min_capacity := 1;
          Estimator.max_past_horizon := 0 |};
     memory := {| capacity := 1000; min_capacity := 12 |};
     entropy_regularization := VFloat 0;
     internals_init := ∅ |}.

Definition state0 (timestep0 episode0 : Z) : State :=
  tf_initialize ([] : list row) 0 timestep0 episode0 [0].

(** The model constructed with a separate baseline policy and the given
    baseline optimizer. *)
Definition args_baseline (baseline_optimizer : pyval) : Args.t :=
  args update_timesteps horizon3 (Some (recurrent "baseline-state" 2))
    baseline_optimizer VNone None.

Definition model_of (a : Args.t) : TensorforceModel :=
  match init a with
  | Ok m => m
  | Error _ => model_plain
  end.

Definition model_with_baseline (baseline_optimizer : pyval)
    : TensorforceModel :=
  model_of (args_baseline baseline_optimizer).

(** The policy looks at no earlier step, the baseline at two. *)
Definition env_unequal_horizons : Env :=
  {| batch_size_value := 8;
     frequency_value := 8;
     start_value := 0;
     policy_past_horizon := fun _ => 0;
     baseline_past_horizon := fun _ => 2;
     future_horizon := 3 |}.

Definition observation (timestep0 : Z) (flags : list Z) : Observation :=
  {| obs_env := env 8 0 0 3;
     obs_batch := batch flags;
     obs_timestep := timestep0;
     obs_episode := 0 |}.

Definition state_of (r : result State) : State :=
  match r with
  | Ok s => s
  | Error _ => state0 0 0
  end.

(** A separate baseline policy trained along with the policy (row
    "y n n" of the table), and one with an optimizer of its own (row
    "y n y"). *)
Definition model_joint : TensorforceModel :=
  Eval vm_compute in model_with_baseline VNone.

Definition model_separate : TensorforceModel :=
  Eval vm_compute in model_with_baseline (VSpec "adam").

(** At timestep 12: the state after the experience of a four-step batch,
    after the update that is then due, and after a further one-step batch. *)
Definition experienced_12 : State :=
  Eval vm_compute in
    state_of (core_experience model_joint (batch [0; 0; 0; 1]) (state0 12 0)).

Definition updated_12 : State :=
  Eval vm_compute in
    state_of (perform_update model_joint (env 8 0 0 3) 0 experienced_12).

Definition experienced_again_12 : State :=
  Eval vm_compute in
    state_of (core_experience model_joint (batch [0]) updated_12).

End Sample.

(** ** The baseline topology, as the table before line 153 reads it *)

Inductive optimizer_form : Type := Absent | Weight | OptimizerModule.

Definition optimizer_form_of (baseline_optimizer : pyval) : optimizer_form :=
  if is_None baseline_optimizer then Absent
  else if is_float baseline_optimizer then Weight
  else OptimizerModule.

Definition has_policy (a : Args.t) : bool :=
  bool_decide (is_Some (Args.baseline_policy a)).

Definition has_objective (a : Args.t) : bool :=
  negb (is_None (Args.baseline_objective a)).

Definition form (a : Args.t) : optimizer_form :=
  optimizer_form_of (Args.baseline_optimizer a).

(** The three rows marked "invalid!!!". *)
Definition documented_invalid (policy objective : bool) (o : optimizer_form)
    : bool :=
  match o with
  | Absent => false
  | Weight => negb objective
  | OptimizerModule => negb objective && negb policy
  end.

(** Row "y n n" with [estimate_advantage] switched off by the user: the
    baseline would take no part in training. *)
Definition untrained_baseline (a : Args.t) : bool :=
  has_policy a && negb (has_objective a)
  && match form a with Absent => true | _ => false end
  && negb (truthy (default (VBool true)
             (Args.reward_estimation a !! "estimate_advantage"))).

Definition table_estimate_horizon (policy objective : bool) (o : optimizer_form)
    : pyval :=
  match o with
  | Absent => if negb policy && negb objective then VBool false else VStr "late"
  | _ => VStr "late"
  end.

Definition table_estimate_advantage (policy objective : bool)
    (o : optimizer_form) : pyval :=
  match o with
  | Absent => VBool (policy && negb objective)
  | _ => VBool false
  end.

Definition table_is_trainable (policy objective : bool) (o : optimizer_form)
    : bool :=
  match o with
  | OptimizerModule => false
  | _ => policy || objective
  end.

(** The modules of the baseline and the [is_trainable] each is created
    with: the optimizer (lines 166-169) and the objective (lines 195-198)
    with False, the policy (lines 185-189) with the flag of lines 173-180.
    The policy module is the only one the flag is passed to, and it exists
    only when a baseline policy is given. *)
Definition baseline_modules (m : TensorforceModel) : list (string * bool) :=
  (if is_None (baseline_optimizer m) then []
   else [("baseline_optimizer", false)])
  ++ (if separate_baseline_policy m then [("baseline", is_trainable m)]
      else [])
  ++ (if is_None (baseline_objective m) then []
      else [("baseline_objective", false)]).

(** Some baseline module is marked trainable. *)
Definition marks_baseline_trainable (m : TensorforceModel) : bool :=
  existsb snd (baseline_modules m).

(** The names the baseline adds to the policy's internals. *)
Definition baseline_internals_of (baseline_policy : option Policy.t)
    : list string :=
  from_option Policy.internals_spec [] baseline_policy.

(** The internals specifications pass lines 50-73: no policy internal
    starts with baseline-, and the baseline's names are new. *)
Definition internals_accepted (a : Args.t) : Prop :=
  Forall (fun internal => String.prefix "baseline-" internal = false)
    (Policy.internals_spec (Args.policy a))
  /\ NoDup (baseline_internals_of (Args.baseline_policy a))
  /\ forall internal,
       internal ∈ baseline_internals_of (Args.baseline_policy a) ->
       internal ∉ Policy.internals_spec (Args.policy a).

(** [self.baseline_optimizer] after lines 154-170: the optimizer module,
    or None for a missing optimizer and for a weight. *)
Definition resolved_baseline_optimizer (a : Args.t) : pyval :=
  match form a with
  | OptimizerModule => Args.baseline_optimizer a
  | _ => VNone
  end.

(** The estimator that lines 209-234 create with the given horizon. *)
Definition estimator_of (a : Args.t) (horizon : pyval) : Estimator.t :=
  let reward_estimation := Args.reward_estimation a in
  let separate_baseline_policy :=
    bool_decide (is_Some (Args.baseline_policy a)) in
  let estimate_horizon :=
    default_estimate_horizon separate_baseline_policy
      (resolved_baseline_optimizer a) (Args.baseline_objective a) in
  let estimate_advantage :=
    default_estimate_advantage separate_baseline_policy
      (resolved_baseline_optimizer a) (Args.baseline_objective a) in
  {| Estimator.horizon := horizon;
     Estimator.discount :=
       default (VFloat 1) (reward_estimation !! "discount");
     Estimator.estimate_horizon :=
       default estimate_horizon (reward_estimation !! "estimate_horizon");
     Estimator.estimate_actions :=
       default (VBool false) (reward_estimation !! "estimate_actions");
     Estimator.estimate_terminal :=
       default (VBool false) (reward_estimation !! "estimate_terminal");
     Estimator.estimate_advantage :=
       default estimate_advantage
         (reward_estimation !! "estimate_advantage");
     Estimator.min_capacity := Args.buffer_observe a;
     Estimator.max_past_horizon :=
       match Args.baseline_policy a with
       | Some baseline => Policy.max_past_horizon baseline false
       | None => Policy.max_past_horizon (Args.policy a) false
       end |}.

(** The initial internals of lines 268-271. *)
Definition initial_internals (a : Args.t) : gmap string pyval :=
  match Args.baseline_policy a with
  | Some baseline =>
      Policy.internals_init baseline ∪ Policy.internals_init (Args.policy a)
  | None => Policy.internals_init (Args.policy a)
  end.

(** The arguments pass every check of the constructor other than the two
    baseline assertions of lines 161-177: the internals (lines 50-73), the
    update mode with its parameters (lines 93-126), the keys and the
    horizon of reward_estimation (lines 201-226), the capacity of the
    memory (lines 236-259), the entropy regularization (lines 261-266) and
    the initial internals (lines 268-273). *)
Definition other_arguments_valid `{EstimatorHorizons} (a : Args.t) : Prop :=
  internals_accepted a
  /\ keys_in update_keys (Args.update a) = true
  /\ (exists unit batch_size update_batch_size,
        Args.update a !! "unit" = Some (VStr unit)
        /\ unit ∈ ["timesteps"; "episodes"]
        /\ Args.update a !! "batch_size" = Some batch_size
        /\ add_parameter "update_batch_size" batch_size (Some 1) None
           = Ok update_batch_size
        /\ (Args.update a !! "frequency" = Some (VStr "never")
            \/ exists frequency start,
                add_parameter "update_frequency"
                  (default batch_size (Args.update a !! "frequency"))
                  (Some 1) (Some (Z.max 2 (max_value update_batch_size)))
                = Ok frequency
                /\ add_parameter "update_start"
                     (default (VInt 0) (Args.update a !! "start"))
                     (Some 0) None
                   = Ok start)
        /\ exists horizon min_capacity,
            Args.reward_estimation a !! "horizon" = Some horizon
            /\ init_min_capacity a unit update_batch_size
                 (estimator_of a horizon)
               = Ok min_capacity
            /\ min_capacity <= Args.memory a)
  /\ keys_in reward_estimation_keys (Args.reward_estimation a) = true
  /\ (exists weight,
        add_float_parameter "entropy_regularization"
          (if is_None (Args.entropy_regularization a) then VFloat 0
           else Args.entropy_regularization a) 0%Q
        = Ok weight)
  /\ existsb is_None (map_to_list (initial_internals a)).*2 = false.

(** What a successful construction has resolved, for the topology of [a]:
    the two defaults of the estimator, and some baseline module marked
    trainable exactly for "policy or objective present, no optimizer
    module". *)
Definition resolved_as_tabled (a : Args.t) (m : TensorforceModel) : Prop :=
  Estimator.estimate_horizon (estimator m)
    = default (table_estimate_horizon (has_policy a) (has_objective a) (form a))
        (Args.reward_estimation a !! "estimate_horizon")
  /\ Estimator.estimate_advantage (estimator m)
    = default (table_estimate_advantage (has_policy a) (has_objective a) (form a))
        (Args.reward_estimation a !! "estimate_advantage")
  /\ marks_baseline_trainable m
    = table_is_trainable (has_policy a) (has_objective a) (form a).

(** The reading of the topology table: construction fails in one of the
    baseline assertions exactly for the topologies [invalid]; for every
    other topology it succeeds, the other arguments being valid, and what
    is resolved is as tabled. *)
Definition construction_as_tabled `{EstimatorHorizons}
    (invalid : Args.t -> bool) (a : Args.t) : Prop :=
  (forall c, init a = Error (AssertionError c) -> invalid a = true)
  /\ (invalid a = true -> is_Error (init a) = true)
  /\ (invalid a = false -> other_arguments_valid a ->
      exists m, init a = Ok m)
  /\ (forall m, init a = Ok m -> resolved_as_tabled a m).

Definition documented_invalid_args (a : Args.t) : bool :=
  documented_invalid (has_policy a) (has_objective a) (form a).

(** The largest past horizon the memory has to serve (lines 238-245). *)
Definition largest_past_horizon `{EstimatorHorizons} (m : TensorforceModel)
    : Z :=
  match baseline m with
  | Some baseline =>
      Z.max (Policy.max_past_horizon (policy m) true)
        (Policy.max_past_horizon baseline true
         - min_future_horizon (estimator m))
  | None => Policy.max_past_horizon (policy m) true
  end.

Definition timesteps_min_capacity `{EstimatorHorizons} (m : TensorforceModel)
    : Z :=
  max_value (update_batch_size m) + 1 + largest_past_horizon m
  + max_future_horizon (estimator m).

(** The sizing of the memory with the episodes mode read as "always
    (batch maximum + 1) * max_episode_timesteps". *)
Definition memory_sized_by_product `{EstimatorHorizons} (a : Args.t) : Prop :=
  forall m, init a = Ok m ->
    (update_unit m = "timesteps" ->
       min_capacity (memory m) = timesteps_min_capacity m)
    /\ (update_unit m = "episodes" ->
         exists max_episode_timesteps,
           Args.max_episode_timesteps a = Some max_episode_timesteps
           /\ min_capacity (memory m)
              = (max_value (update_batch_size m) + 1) * max_episode_timesteps).

(** ** The schedule and the committed values, in the words of the
       specification *)

Section Schedule.
Context `{Util} {Cell : Type} {EM : @EstimatorModule Cell}.

(** The inputs of the scheduler stay far from the ends of the 'long'
    range. *)
Definition small_env (env : Env) : Prop :=
  long_small (frequency_value env) /\ long_small (start_value env)
  /\ long_small (policy_past_horizon env true)
  /\ long_small (baseline_past_horizon env true)
  /\ long_small (future_horizon env).

(** The policy's on-policy past horizon, maximized with the baseline's
    past horizon minus the estimator's future horizon when a separate
    baseline exists. *)
Definition schedule_past_horizon (m : TensorforceModel) (env : Env) : Z :=
  if separate_baseline_policy m
  then Z.max (policy_past_horizon env true)
         (baseline_past_horizon env true - future_horizon env)
  else policy_past_horizon env true.

(** The clamped start: at least frequency + past_horizon + future_horizon
    + 1 in 'timesteps' mode, at least frequency in 'episodes' mode. *)
Definition schedule_start (m : TensorforceModel) (env : Env) : Z :=
  if String.eqb (update_unit m) "timesteps"
  then Z.max (start_value env)
         (frequency_value env + schedule_past_horizon m env
          + future_horizon env + 1)
  else Z.max (start_value env) (frequency_value env).

(** The shifted counter. *)
Definition schedule_unit (m : TensorforceModel) (env : Env) (s : State) : Z :=
  (if String.eqb (update_unit m) "timesteps" then timestep s else episode s)
  - schedule_start m env.


(** The variables a call leaves alone. *)
Definition same_counters (s s' : State) : Prop :=
  timestep s' = timestep s /\ episode s' = episode s
  /\ buffer_index s' = buffer_index s.

(** The tensor of a component: [v[name]], or [v[name][inner]] for a
    nested one. *)
Definition component (v : @values Cell) (name : string)
    (inner : option string) : option (list Cell) :=
  match od_get v name, inner with
  | Some (Tensor t), None => Some t
  | Some (Nested d), Some i => od_get d i
  | _, _ => None
  end.

(** The reset values have what the loops of lines 657-665 look up: every
    component of the overwritten values, nested where it is nested. *)
Definition shape_ok (name : string) (value1 value2 : @value Cell) : bool :=
  match value1, value2 with
  | Tensor _, Tensor _ => negb (is_nested name)
  | Nested d1, Nested d2 =>
      is_nested name
      && forallb (fun kv => bool_decide (is_Some (od_get d2 kv.1))) d1
  | _, _ => false
  end.

Definition zips_with (overwritten_values reset_values : @values Cell) : bool :=
  forallb (fun kv => match od_get reset_values kv.1 with
                     | Some value2 => shape_ok kv.1 kv.2 value2
                     | None => false
                     end) overwritten_values.

(** [memory.enqueue] is called with [v] when [v['terminal']] has rows. *)
Definition commit (v : @values Cell) (s : State) : State :=
  match component v "terminal" None with
  | Some t => if 0 <? Z.of_nat (length t) then call (memory_enqueue v) s else s
  | None => s
  end.

End Schedule.

(** The failure of the horizon check in [optimize]. *)
Definition horizon_mismatch : error :=
  InvalidArgumentError
    "Policy and baseline depend on a different number of previous states.".

(** Every non-zero flag sits in the last position. *)
Definition nonzero_only_last (l : list Z) : Prop :=
  forall i t, l !! i = Some t -> t <> 0 -> S i = length l.

(** The sum of a list, without wrap-around. *)
Definition total (l : list Z) : Z := foldr Z.add 0 l.

(** Every positive flag sits in the last position. *)
Definition positive_only_last (l : list Z) : Prop :=
  forall i t, l !! i = Some t -> 0 < t -> S i = length l.

(** [r] does not fail in an [assert]. *)
Definition no_assertion {A} (r : result A) : Prop :=
  forall c, r <> Error (AssertionError c).

(** The preconditions of [api_experience] in the words of the
    specification: more than one non-zero terminal flag, a non-zero
    terminal flag that is not the last element, or a non-zero buffer index
    make the call fail; a batch with none of the three passes the three
    assertions. *)
Definition preconditions_as_stated `{Util} {Cell : Type}
    {EM : @EstimatorModule Cell} (m : TensorforceModel) (b : Batch)
    (s : State) : Prop :=
  ((1 < count_nonzero (terminal b)
    \/ (exists i t, terminal b !! i = Some t /\ t <> 0
                    /\ S i <> length (terminal b))
    \/ (exists i, i ∈ buffer_index s /\ i <> 0)) ->
   is_Error (api_experience m b s) = true)
  /\ (count_nonzero (terminal b) <= 1 ->
      nonzero_only_last (terminal b) ->
      Forall (fun i => i = 0) (buffer_index s) ->
      assert_buffer_index_zero s = Ok tt
      /\ assert_at_most_one_terminal b = Ok tt
      /\ assert_terminal_last b = Ok tt).

(** ** The losses: which summands make up a loss

    [total_loss] (lines 973-998) and [baseline_loss] (lines 1126-1146) add
    up tensors computed by the objectives and by the regularizers.  A loss
    is kept as the list of its summands, each one the call that computes
    it. *)

Inductive objective_ref : Type := self_objective | self_baseline_objective.

Inductive summand : Type :=
| mean_loss_per_instance (objective : objective_ref) (policy : baseline_arg)
| self_regularize
| baseline_regularize.

(** A summand of the total loss: a plain one, or a loss times a weight. *)
Inductive term : Type :=
| plain (s : summand)
| times (weight : pyval) (loss : list summand).

(** [baseline_loss] (lines 1126-1146): both branches pass
    [policy=self.baseline]. *)
Definition baseline_loss (m : TensorforceModel) : result (list summand) :=
  (* Loss per instance, objective loss *)
  baseline ← getattr_baseline m;
  let loss :=
    [mean_loss_per_instance
       (if is_None (baseline_objective m) then self_objective
        else self_baseline_objective) baseline] in
  (* Regularization losses *)
  Ok (loss ++ [baseline_regularize]).

(** [weight * loss]: a number scales the loss; None has no product. *)
Definition scale (weight : pyval) (loss : list summand) : result term :=
  match weight with
  | VFloat _ | VInt _ | VBool _ => Ok (times weight loss)
  | _ => Error (TypeError "unsupported operand type(s) for *")
  end.

(** [total_loss] (lines 973-998). *)
Definition total_loss (m : TensorforceModel) : result (list term) :=
  (* Loss per instance, objective loss *)
  let loss := [plain (mean_loss_per_instance self_objective self_policy)] in
  (* Regularization losses *)
  let loss := loss ++ [plain self_regularize] in
  (* Baseline loss *)
  if is_None (baseline_optimizer m) && negb (is_None (baseline_objective m))
  then
    baseline_loss ← baseline_loss m;
    weighted ← scale (baseline_loss_weight m) baseline_loss;
    Ok (loss ++ [weighted])
  else
    _ ← assert (is_None (baseline_loss_weight m))
          "self.baseline_loss_weight is None";
    Ok loss.

(** [fn_kl_divergence] of [optimize] (lines 802-813): the policies whose
    KL divergences are added up. *)
Definition fn_kl_divergence (m : TensorforceModel) : list baseline_arg :=
  let kl_divergence := [self_policy] in
  if separate_baseline_policy m && is_None (baseline_optimizer m)
     && negb (is_None (baseline_objective m))
  then kl_divergence ++ [self_baseline]
  else kl_divergence.

(** ** Acting: [core_act] (lines 519-573) *)

(** [d[name] = v] and [d.update(other)] on an ordered dictionary: a new
    key goes to the end, a known key keeps its place. *)
Fixpoint od_set {V} (d : list (string * V)) (name : string) (v : V)
    : list (string * V) :=
  match d with
  | [] => [(name, v)]
  | (key, v') :: rest =>
      if String.eqb key name then (key, v) :: rest
      else (key, v') :: od_set rest name v
  end.

Definition od_update {V} (d other : list (string * V)) : list (string * V) :=
  foldl (fun d kv => od_set d kv.1 kv.2) d other.

(** [{name: internals[name] for name in names}], continued from
    [selected]. *)
Fixpoint select_internals {V} (internals : list (string * V))
    (names : list string) (selected : list (string * V))
    : result (list (string * V)) :=
  match names with
  | [] => Ok selected
  | name :: rest =>
      x ← od_getitem internals name;
      select_internals internals rest (od_set selected name x)
  end.

(** What [core_act] comes to: a return value, or one of the exceptions
    raised on the way. *)
Inductive acted (A : Type) : Type :=
| Returned (a : A)
| StopIteration
| Raised (e : error).
Arguments Returned {A} a.
Arguments StopIteration {A}.
Arguments Raised {A} e.

Section Act.
Context {Cell : Type}.

(** [Policy.act(states, horizons, internals, auxiliaries,
    return_internals=True)] of the policy and of the baseline
    (tensorforce/core/policies is not among the sources): the actions and
    the next internals. *)
Class PolicyAct : Type := {
  act : baseline_arg -> list (string * list Cell) -> list (Z * Z) ->
        list (string * list Cell) -> list (string * mask) ->
        list (string * list Cell) * list (string * list Cell)
}.

Context `{PolicyAct}.

(** Lines 544-546: every row of the batch is a sequence of its own, of
    length one. *)
Definition act_horizons (batch_size : nat) : list (Z * Z) :=
  let starts := Z.of_nat <$> seq 0 batch_size in
  let lengths := replicate batch_size 1 in
  zip starts lengths.

(** [core_act] (lines 519-573).  The past horizon of lines 524-528 goes
    into an assertion that is commented out; what is left of these lines
    is the attribute looked up on [self.baseline]. *)
Definition core_act (m : TensorforceModel)
    (states internals : list (string * list Cell))
    (auxiliaries : list (string * mask))
    : acted (list (string * list Cell) * list (string * list Cell)) :=
  (* Dependency horizon *)
  if separate_baseline_policy m && negb (bool_decide (is_Some (baseline m)))
  then Raised (AttributeError "past_horizon")
  else
  match states with
  | [] => StopIteration
  | (_, some_state) :: _ =>
      let horizons := act_horizons (length some_state) in
      (* Policy act *)
      match select_internals internals (Policy.internals_spec (policy m)) [] with
      | Error e => Raised e
      | Ok policy_internals =>
          let '(actions, next_internals) :=
            act self_policy states horizons policy_internals auxiliaries in
          if separate_baseline_policy m then
            match baseline m with
            | None => Raised (AttributeError "internals_spec")
            | Some baseline =>
                if (0 <? length (Policy.internals_spec baseline))%nat then
                  (* Baseline policy act to retrieve next internals *)
                  match select_internals internals
                          (Policy.internals_spec baseline) [] with
                  | Error e => Raised e
                  | Ok baseline_internals =>
                      let '(_, baseline_internals) :=
                        act self_baseline states horizons baseline_internals
                          auxiliaries in
                      if forallb
                           (fun kv : string * list Cell =>
                              negb (bool_decide
                                      (is_Some (od_get next_internals kv.1))))
                           baseline_internals
                      then Returned
                             (actions,
                              od_update next_internals baseline_internals)
                      else Raised
                             (AssertionError
                                "all(name not in next_internals for name in baseline_internals)")
                  end
                else Returned (actions, next_internals)
            end
          else Returned (actions, next_internals)
      end
  end.

End Act.

(** ** Properties of constructions and runs: vocabulary *)

(** The constructor arguments with another [update] dictionary. *)
Definition with_update (a : Args.t) (update : gmap string pyval) : Args.t :=
  {| Args.buffer_observe := Args.buffer_observe a;
     Args.states := Args.states a;
     Args.actions := Args.actions a;
     Args.policy := Args.policy a;
     Args.memory := Args.memory a;
     Args.update := update;
     Args.optimizer := Args.optimizer a;
     Args.objective := Args.objective a;
     Args.reward_estimation := Args.reward_estimation a;
     Args.baseline_policy := Args.baseline_policy a;
     Args.baseline_optimizer := Args.baseline_optimizer a;
     Args.baseline_objective := Args.baseline_objective a;
     Args.entropy_regularization := Args.entropy_regularization a;
     Args.max_episode_timesteps := Args.max_episode_timesteps a |}.

(** The baseline loss is part of the total loss, with this weight. *)
Definition joint_baseline_loss (a : Args.t) : option pyval :=
  match form a with
  | Absent => if has_objective a then Some (VFloat 1) else None
  | Weight => if has_objective a then Some (Args.baseline_optimizer a) else None
  | OptimizerModule => None
  end.

(** The steps of the main optimizer in a trace. *)
Definition is_minimize {Cell} (e : @event Cell) : bool :=
  match e with optimizer_minimize => true | _ => false end.

Definition optimizer_steps {Cell} (tr : list (@event Cell)) : Z :=
  Z.of_nat (length (List.filter is_minimize tr)).

(** A value of last-update under a fixed frequency: the initial -1, or a
    non-negative multiple of the frequency. *)
Definition on_schedule (frequency z : Z) : Prop :=
  z = -1 \/ (0 <= z /\ z mod frequency = 0).

Section Runs.
Context `{Util} {Cell : Type} {EM : @EstimatorModule Cell}.

(** The counter the schedule of [m] goes by. *)
Definition schedule_counter (m : TensorforceModel) (o : @Observation Cell)
    : Z :=
  if String.eqb (update_unit m) "timesteps" then obs_timestep o
  else obs_episode o.

(** An observation that comes before the clamped start of the schedule. *)
Definition before_start (m : TensorforceModel) (o : @Observation Cell)
    : Prop :=
  small_env (obs_env o)
  /\ long_small (obs_timestep o) /\ long_small (obs_episode o)
  /\ schedule_counter m o < schedule_start m (obs_env o).

(** Every tensor of the values is empty. *)
Definition no_row {A} (t : list A) : bool :=
  match t with [] => true | _ :: _ => false end.

Definition no_rows (v : @values Cell) : bool :=
  forallb (fun kv : string * value =>
             match kv.2 with
             | Tensor t => no_row t
             | Nested d => forallb (fun ic : string * list Cell => no_row ic.2) d
             end) v.

(** A mask that leaves an action to choose, at every row and position. *)
Definition some_action_valid (x : mask) : Prop :=
  Forall (Forall (fun flags => true ∈ flags)) x.

End Runs.

(** ** Further sample configurations *)

Module Scenario.

(** A recurrent policy with a recurrent baseline. *)
Definition args_recurrent : Args.t :=
  {| Args.buffer_observe := 1;
     Args.states := ["state"];
     Args.actions := [("action", "int")];
     Args.policy := Sample.recurrent "state" 0;
     Args.memory := 1000;
     Args.update := Sample.update_timesteps;
     Args.optimizer := VSpec "adam";
     Args.objective := VSpec "policy_gradient";
     Args.reward_estimation := Sample.horizon3;
     Args.baseline_policy := Some (Sample.recurrent "baseline-state" 0);
     Args.baseline_optimizer := VFloat 0.5;
     Args.baseline_objective := VSpec "value";
     Args.entropy_regularization := VNone;
     Args.max_episode_timesteps := None |}.

Definition model_recurrent : TensorforceModel :=
  Eval vm_compute in Sample.model_of args_recurrent.

(** The baseline uses the name of the policy's internal. *)
Definition args_collision : Args.t :=
  {| Args.buffer_observe := 1;
     Args.states := ["state"];
     Args.actions := [("action", "int")];
     Args.policy := Sample.recurrent "state" 0;
     Args.memory := 1000;
     Args.update := Sample.update_timesteps;
     Args.optimizer := VSpec "adam";
     Args.objective := VSpec "policy_gradient";
     Args.reward_estimation := Sample.horizon3;
     Args.baseline_policy := Some (Sample.recurrent "state" 0);
     Args.baseline_optimizer := VNone;
     Args.baseline_objective := VNone;
     Args.entropy_regularization := VNone;
     Args.max_episode_timesteps := None |}.

(** An [update] dictionary with a key that is not known. *)
Definition args_unknown_key : Args.t :=
  Sample.args (<["batchsize" := VInt 8]> Sample.update_timesteps)
    Sample.horizon3 None VNone VNone None.

(** A stand-in policy: the action is the first state, the internals are
    handed on. *)
Global Instance echo : @PolicyAct pyval := {
  act := fun _ states _ internals _ =>
    ([("action", default [] (snd <$> head states))], internals)
}.

Definition internals_input : list (string * list pyval) :=
  [("baseline-state", [VFloat 0]); ("state", [VFloat 1])].

(** Two observations before the start of the schedule (12), one at it. *)
Definition early : list (@Observation pyval) :=
  [Sample.observation 5 [0; 0]; Sample.observation 7 [0; 1]].

Definition run_12_20_28 : list (@Observation pyval) :=
  [Sample.observation 12 [0; 0; 0; 1]; Sample.observation 20 [0; 0];
   Sample.observation 28 [0; 1]].

Definition after_early : State :=
  Eval vm_compute in
    Sample.state_of (run_observe Sample.model_plain early (Sample.state0 0 0)).

Definition after_12_20_28 : State :=
  Eval vm_compute in
    Sample.state_of
      (run_observe Sample.model_joint run_12_20_28 (Sample.state0 0 0)).

Definition api_updated_12 : State :=
  Eval vm_compute in
    Sample.state_of
      (api_update Sample.model_separate (Sample.env 8 0 0 3)
         (Sample.state0 12 0)).

Definition api_experienced : State :=
  Eval vm_compute in
    Sample.state_of
      (api_experience Sample.model_plain (Sample.batch [0; 0; 0; 1])
         (Sample.state0 12 0)).

End Scenario.

(** ** Stepping through the error monad *)

Lemma bind_Ok {A B} (r : result A) (f : A -> result B) (b : B) :
  r ≫= f = Ok b <-> exists x, r = Ok x /\ f x = Ok b.
Proof.
  destruct r as [x|e]; cbn.
  - split; [intros Hf; exists x; auto | intros (y & [= ->] & Hf); exact Hf].
  - split; [discriminate | intros (y & Hy & _); discriminate].
Qed.

Lemma bind_Error {A B} (r : result A) (f : A -> result B) (e : error) :
  r ≫= f = Error e <-> r = Error e \/ exists x, r = Ok x /\ f x = Error e.
Proof.
  destruct r as [x|e']; cbn.
  - split; [intros Hf; right; exists x; auto |].
    intros [Hr | (y & [= ->] & Hf)]; [discriminate | exact Hf].
  - split; [intros [= ->]; left; reflexivity |].
    intros [[= ->] | (y & Hy & _)]; [reflexivity | discriminate].
Qed.

Tactic Notation "bind_ok" hyp(H) "as" ident(x) ident(Hx) :=
  apply bind_Ok in H as (x & Hx & H).

Ltac bind_error H :=
  let x := fresh "x" in
  let Hx := fresh "Hx" in
  apply bind_Error in H as [H | (x & Hx & H)].

Lemma raise_if_Ok (c : bool) (e : error) (u : unit) :
  raise_if c e = Ok u <-> c = false.
Proof. destruct c, u; cbn; split; congruence. Qed.

Lemma assert_Ok (c : bool) (s : string) (u : unit) :
  assert c s = Ok u <-> c = true.
Proof. destruct c, u; cbn; split; congruence. Qed.

Lemma raise_if_no_assertion (c : bool) (e : error) :
  (forall s, e <> AssertionError s) -> no_assertion (raise_if c e).
Proof.
  intros He s; destruct c; cbn; [intros [= Hs]; eapply He, Hs | discriminate].
Qed.

Lemma add_parameter_no_assertion name module lower upper :
  no_assertion (add_parameter name module lower upper).
Proof.
  intros c Hc; unfold add_parameter in Hc.
  bind_error Hc; [destruct module; discriminate |].
  bind_error Hc; [eapply raise_if_no_assertion, Hc; discriminate |].
  bind_error Hc; [eapply raise_if_no_assertion, Hc; discriminate |].
  discriminate.
Qed.

Lemma add_baseline_internals_no_assertion bs internals :
  no_assertion (add_baseline_internals bs internals).
Proof.
  revert internals; induction bs as [|b bs IH]; intros internals c Hc; cbn in Hc.
  - discriminate.
  - bind_error Hc; [eapply raise_if_no_assertion, Hc; discriminate |].
    eapply IH, Hc.
Qed.

Lemma required_no_assertion d key argument :
  no_assertion (required d key argument).
Proof. intros c; unfold required; destruct (d !! key); discriminate. Qed.

Lemma getitem_no_assertion d key : no_assertion (getitem d key).
Proof. intros c; unfold getitem; destruct (d !! key); discriminate. Qed.

Lemma add_memory_no_assertion c mc : no_assertion (add_memory c mc).
Proof.
  intros s Hs; unfold add_memory in Hs.
  bind_error Hs; [|discriminate].
  eapply raise_if_no_assertion, Hs; discriminate.
Qed.

Lemma add_float_parameter_no_assertion name module lower :
  no_assertion (add_float_parameter name module lower).
Proof.
  intros s Hs; unfold add_float_parameter in Hs.
  bind_error Hs; [destruct module; discriminate |].
  bind_error Hs; [|discriminate].
  eapply raise_if_no_assertion, Hs; discriminate.
Qed.

Section ConstructionFacts.
Context `{EstimatorHorizons}.

Lemma init_min_capacity_no_assertion a unit bs e :
  unit ∈ ["timesteps"; "episodes"] ->
  no_assertion (init_min_capacity a unit bs e).
Proof.
  intros Hu c; unfold init_min_capacity.
  destruct (String.eqb unit "timesteps") eqn:Et; [discriminate|].
  destruct (String.eqb unit "episodes") eqn:Ee.
  - destruct (Args.max_episode_timesteps a); discriminate.
  - apply String.eqb_neq in Et. apply String.eqb_neq in Ee.
    repeat (apply elem_of_cons in Hu as [Hu|Hu]; [congruence|]).
    inversion Hu.
Qed.

(** What a successful construction went through. *)
Lemma init_Ok a m :
  init a = Ok m ->
  exists batch_size min_cap,
    Args.update a !! "unit" = Some (VStr (update_unit m))
    /\ update_unit m ∈ ["timesteps"; "episodes"]
    /\ Args.update a !! "batch_size" = Some batch_size
    /\ add_parameter "update_batch_size" batch_size (Some 1) None
       = Ok (update_batch_size m)
    /\ (if from_option (fun f => eq_str f "never") false
             (Args.update a !! "frequency")
        then update_frequency m = None /\ update_start m = None
        else exists f s,
            update_frequency m = Some f /\ update_start m = Some s
            /\ add_parameter "update_frequency"
                 (default batch_size (Args.update a !! "frequency"))
                 (Some 1) (Some (Z.max 2 (max_value (update_batch_size m))))
               = Ok f
            /\ add_parameter "update_start"
                 (default (VInt 0) (Args.update a !! "start")) (Some 0) None
               = Ok s)
    /\ init_baseline_optimizer a
       = Ok (baseline_optimizer m, baseline_loss_weight m)
    /\ init_is_trainable a (baseline_optimizer m) = Ok (is_trainable m)
    /\ separate_baseline_policy m
       = bool_decide (is_Some (Args.baseline_policy a))
    /\ baseline m = Args.baseline_policy a
    /\ baseline_objective m = Args.baseline_objective a
    /\ Estimator.estimate_horizon (estimator m)
       = default (default_estimate_horizon (separate_baseline_policy m)
                    (baseline_optimizer m) (baseline_objective m))
           (Args.reward_estimation a !! "estimate_horizon")
    /\ Estimator.estimate_advantage (estimator m)
       = default (default_estimate_advantage (separate_baseline_policy m)
                    (baseline_optimizer m) (baseline_objective m))
           (Args.reward_estimation a !! "estimate_advantage")
    /\ init_min_capacity a (update_unit m) (update_batch_size m) (estimator m)
       = Ok min_cap
    /\ add_memory (Args.memory a) min_cap = Ok (memory m).
Proof.
  unfold init; intros Hm.
  bind_ok Hm as u1 Hprefix. bind_ok Hm as internals Hinternals.
  bind_ok Hm as u2 Hkeys. bind_ok Hm as unit Hunit.
  bind_ok Hm as update_unit Hvalid. bind_ok Hm as batch_size Hbatch.
  bind_ok Hm as update_batch_size Hbs. bind_ok Hm as fs Hfs.
  destruct fs as [update_frequency update_start].
  bind_ok Hm as ow How. destruct ow as [sbo weight].
  bind_ok Hm as trainable Htrainable. bind_ok Hm as u3 Hrkeys.
  bind_ok Hm as horizon Hhorizon. bind_ok Hm as min_cap Hmin.
  bind_ok Hm as mem Hmem. bind_ok Hm as ent Hent. bind_ok Hm as u4 Hinit.
  injection Hm as <-; cbn.
  exists batch_size, min_cap.
  unfold required in Hunit, Hbatch.
  destruct (Args.update a !! "unit") as [u|] eqn:Eu; [|discriminate].
  injection Hunit as ->.
  assert (unit = VStr update_unit /\ update_unit ∈ ["timesteps"; "episodes"])
    as [-> Hin].
  { destruct unit; try discriminate.
    destruct (bool_decide _) eqn:Ed; [|discriminate].
    apply bool_decide_eq_true in Ed. injection Hvalid as ->. auto. }
  destruct (Args.update a !! "batch_size") as [bsz|] eqn:Eb; [|discriminate].
  injection Hbatch as ->.
  repeat split; auto.
  destruct (from_option _ false (Args.update a !! "frequency")).
  - injection Hfs as <- <-; auto.
  - bind_ok Hfs as f Hf. bind_ok Hfs as s0 Hs0.
    injection Hfs as <- <-. eauto 10.
Qed.

Lemma init_baseline_optimizer_Ok a sbo w :
  init_baseline_optimizer a = Ok (sbo, w) ->
  documented_invalid_args a = false
  /\ is_None sbo
     = match form a with OptimizerModule => false | _ => true end.
Proof.
  unfold init_baseline_optimizer, documented_invalid_args, documented_invalid,
    has_objective, has_policy, form, optimizer_form_of.
  destruct (is_None (Args.baseline_optimizer a)) eqn:En.
  - destruct (is_None (Args.baseline_objective a)); intros [= <- <-]; auto.
  - destruct (is_float (Args.baseline_optimizer a)) eqn:Ef; intros Hb;
      bind_ok Hb as u Hu; apply assert_Ok in Hu; injection Hb as <- <-.
    + rewrite Hu; auto.
    + rewrite En. split; [|reflexivity].
      destruct (is_None (Args.baseline_objective a)),
        (bool_decide (is_Some (Args.baseline_policy a))); auto.
Qed.

Lemma init_baseline_optimizer_Error a e :
  init_baseline_optimizer a = Error e -> documented_invalid_args a = true.
Proof.
  unfold init_baseline_optimizer, documented_invalid_args, documented_invalid,
    has_objective, has_policy, form, optimizer_form_of.
  destruct (is_None (Args.baseline_optimizer a)) eqn:En.
  - destruct (is_None (Args.baseline_objective a)); discriminate.
  - destruct (is_float (Args.baseline_optimizer a)) eqn:Ef;
      destruct (is_None (Args.baseline_objective a)),
        (bool_decide (is_Some (Args.baseline_policy a)));
      cbn; auto; discriminate.
Qed.

Lemma init_is_trainable_Ok a sbo w t :
  init_baseline_optimizer a = Ok (sbo, w) ->
  init_is_trainable a sbo = Ok t ->
  untrained_baseline a = false
  /\ t = table_is_trainable (has_policy a) (has_objective a) (form a).
Proof.
  intros Hb Ht. apply init_baseline_optimizer_Ok in Hb as [Hvalid Hsbo].
  unfold init_is_trainable in Ht. rewrite Hsbo in Ht.
  unfold documented_invalid_args, documented_invalid in Hvalid.
  unfold untrained_baseline, table_is_trainable.
  fold (has_policy a) (has_objective a) in Ht.
  destruct (form a), (has_policy a), (has_objective a);
    cbn in *; try discriminate;
    try (injection Ht as <-; auto; fail);
    bind_ok Ht as u Hu; apply assert_Ok in Hu; injection Ht as <-;
    rewrite ?Hu; auto.
Qed.

Lemma init_is_trainable_Error a sbo w e :
  init_baseline_optimizer a = Ok (sbo, w) ->
  init_is_trainable a sbo = Error e ->
  untrained_baseline a = true.
Proof.
  intros Hb Ht. apply init_baseline_optimizer_Ok in Hb as [Hvalid Hsbo].
  unfold init_is_trainable in Ht. rewrite Hsbo in Ht.
  unfold documented_invalid_args, documented_invalid in Hvalid.
  unfold untrained_baseline.
  fold (has_policy a) (has_objective a) in Ht.
  destruct (form a), (has_policy a), (has_objective a);
    cbn in *; try discriminate.
  destruct (truthy _); [discriminate | reflexivity].
Qed.

End ConstructionFacts.

(** ** Construction: the baseline topology *)

Section TopologyTable.
Context `{EstimatorHorizons}.

Lemma init_assertion a c :
  init a = Error (AssertionError c) ->
  documented_invalid_args a || untrained_baseline a = true.
Proof.
  unfold init; intros Hm.
  bind_error Hm; [eapply raise_if_no_assertion in Hm; [tauto | discriminate]|].
  bind_error Hm.
  { destruct (Args.baseline_policy a);
      [eapply add_baseline_internals_no_assertion in Hm; tauto | discriminate]. }
  bind_error Hm; [eapply raise_if_no_assertion in Hm; [tauto | discriminate]|].
  bind_error Hm; [eapply required_no_assertion in Hm; tauto |].
  bind_error Hm.
  { destruct x2; try discriminate. destruct (bool_decide _); discriminate. }
  assert (x3 ∈ ["timesteps"; "episodes"]) as Hunit.
  { destruct x2; try discriminate.
    destruct (bool_decide _) eqn:Ed; [|discriminate].
    apply bool_decide_eq_true in Ed. injection Hx3 as ->. exact Ed. }
  bind_error Hm; [eapply required_no_assertion in Hm; tauto |].
  bind_error Hm; [eapply add_parameter_no_assertion in Hm; tauto |].
  bind_error Hm.
  { destruct (from_option _ _ _); [discriminate|].
    bind_error Hm; [eapply add_parameter_no_assertion in Hm; tauto |].
    bind_error Hm; [eapply add_parameter_no_assertion in Hm; tauto |].
    discriminate. }
  destruct x6 as [update_frequency update_start].
  bind_error Hm.
  { apply init_baseline_optimizer_Error in Hm. rewrite Hm. reflexivity. }
  destruct x6 as [sbo w].
  bind_error Hm.
  { eapply init_is_trainable_Error in Hm; [|eassumption].
    rewrite Hm. apply orb_true_r. }
  bind_error Hm; [eapply raise_if_no_assertion in Hm; [tauto | discriminate]|].
  bind_error Hm; [eapply getitem_no_assertion in Hm; tauto |].
  bind_error Hm; [eapply init_min_capacity_no_assertion in Hm; tauto |].
  bind_error Hm; [eapply add_memory_no_assertion in Hm; tauto |].
  bind_error Hm; [eapply add_float_parameter_no_assertion in Hm; tauto |].
  bind_error Hm; [eapply raise_if_no_assertion in Hm; [tauto | discriminate]|].
  discriminate.
Qed.

Lemma init_valid a m :
  init a = Ok m ->
  documented_invalid_args a || untrained_baseline a = false.
Proof.
  intros Hm. apply init_Ok in Hm as (bs & mc & _ & _ & _ & _ & _ & Hb & Ht & _).
  pose proof (init_is_trainable_Ok _ _ _ _ Hb Ht) as [-> _].
  apply init_baseline_optimizer_Ok in Hb as [-> _]. reflexivity.
Qed.

Lemma init_resolved a m :
  init a = Ok m ->
  Estimator.estimate_horizon (estimator m)
  = default (table_estimate_horizon (has_policy a) (has_objective a) (form a))
      (Args.reward_estimation a !! "estimate_horizon")
  /\ Estimator.estimate_advantage (estimator m)
    = default (table_estimate_advantage (has_policy a) (has_objective a)
                 (form a))
        (Args.reward_estimation a !! "estimate_advantage")
  /\ is_trainable m
    = table_is_trainable (has_policy a) (has_objective a) (form a).
Proof.
  intros Hm.
  apply init_Ok in Hm
    as (bs & mc & _ & _ & _ & _ & _ & Hb & Ht & Hs & _ & Ho & Heh & Hea & _).
  pose proof (init_is_trainable_Ok _ _ _ _ Hb Ht) as [_ Htr].
  apply init_baseline_optimizer_Ok in Hb as [Hvalid Hsbo].
  rewrite Heh, Hea, Htr, Hs, Ho.
  unfold default_estimate_horizon, default_estimate_advantage.
  rewrite Hsbo. fold (has_policy a).
  unfold documented_invalid_args, documented_invalid in Hvalid.
  unfold table_estimate_horizon, table_estimate_advantage.
  replace (is_None (Args.baseline_objective a)) with (negb (has_objective a))
    by (unfold has_objective; apply negb_involutive).
  destruct (form a), (has_policy a), (has_objective a);
    cbn in *; try discriminate; auto.
Qed.

End TopologyTable.

(** ** Construction: update frequency and memory capacity *)

Lemma add_parameter_Ok name module lower upper p :
  add_parameter name module lower upper = Ok p ->
  parameter_of name module = Ok p
  /\ (forall b, lower = Some b -> b <= min_value p)
  /\ (forall b, upper = Some b -> max_value p <= b).
Proof.
  unfold add_parameter; intros Hp.
  bind_ok Hp as p' Hof. bind_ok Hp as u1 Hlo. bind_ok Hp as u2 Hhi.
  injection Hp as ->. apply raise_if_Ok in Hlo, Hhi.
  split; [assumption|].
  split; intros b ->; cbn in *; lia.
Qed.

Lemma parameter_of_name name1 name2 module p :
  parameter_of name1 module = Ok p -> parameter_of name2 module = Ok p.
Proof. destruct module; cbn; congruence. Qed.

Section Sizing.
Context `{EstimatorHorizons}.

Lemma init_batch_size a m batch_size b :
  init a = Ok m ->
  Args.update a !! "batch_size" = Some batch_size ->
  parameter_of "update_batch_size" batch_size = Ok b ->
  update_batch_size m = b.
Proof.
  intros Hm Hbs Hb.
  apply init_Ok in Hm as (bs & mc & _ & _ & Hbs' & Hp & _).
  rewrite Hbs in Hbs'. injection Hbs' as <-.
  apply add_parameter_Ok in Hp as [Hp _]. congruence.
Qed.

Lemma init_frequency a m frequency :
  init a = Ok m ->
  Args.update a !! "frequency" = frequency ->
  from_option (fun f => eq_str f "never") false frequency = false ->
  exists batch_size f,
    Args.update a !! "batch_size" = Some batch_size
    /\ update_frequency m = Some f
    /\ add_parameter "update_frequency" (default batch_size frequency)
         (Some 1) (Some (Z.max 2 (max_value (update_batch_size m)))) = Ok f.
Proof.
  intros Hm <- Hnever.
  apply init_Ok in Hm as (bs & mc & _ & _ & Hbs & _ & Hf & _).
  rewrite Hnever in Hf. destruct Hf as (f & s & Hf & _ & Hadd & _).
  eauto.
Qed.

(** C10: without a 'frequency' key the frequency parameter is the one
    created from update['batch_size']; a frequency parameter is created
    with lower bound 1 and upper bound max(2, the batch size's maximum
    value), so that a frequency whose maximum exceeds that bound is
    rejected at construction. *)
Theorem update_frequency_default_and_bounds (a : Args.t) :
  (forall m, init a = Ok m ->
     (Args.update a !! "frequency" = None ->
        update_frequency m = Some (update_batch_size m))
     /\ (forall f, update_frequency m = Some f ->
           1 <= min_value f
           /\ max_value f <= Z.max 2 (max_value (update_batch_size m))))
  /\ (forall frequency batch_size f b,
        Args.update a !! "frequency" = Some frequency ->
        eq_str frequency "never" = false ->
        Args.update a !! "batch_size" = Some batch_size ->
        parameter_of "update_frequency" frequency = Ok f ->
        parameter_of "update_batch_size" batch_size = Ok b ->
        Z.max 2 (max_value b) < max_value f ->
        is_Error (init a) = true).
Proof.
  split.
  - intros m Hm. split.
    + intros Hnone.
      destruct (init_frequency a m None Hm Hnone eq_refl)
        as (bs & f & Hbs & -> & Hadd).
      apply add_parameter_Ok in Hadd as [Hof _]. cbn in Hof.
      f_equal. symmetry. eapply init_batch_size; eauto.
      eapply parameter_of_name, Hof.
    + intros f Hf.
      pose proof Hm as Hm'.
      apply init_Ok in Hm' as (bs & mc & _ & _ & _ & _ & Hfreq & _).
      destruct (from_option _ false (Args.update a !! "frequency")).
      * destruct Hfreq as [Hnone _]. congruence.
      * destruct Hfreq as (f' & s & Hf' & _ & Hadd & _).
        assert (f' = f) as -> by congruence.
        apply add_parameter_Ok in Hadd as (_ & Hlo & Hhi).
        split; [apply Hlo | apply Hhi]; reflexivity.
  - intros frequency batch_size f b Hfreq Hnever Hbs Hf Hb Hlarge.
    destruct (init a) as [m|e] eqn:Hm; [exfalso | reflexivity].
    assert (update_batch_size m = b) as Hbm
      by (eapply init_batch_size; eauto).
    destruct (init_frequency a m (Some frequency) Hm Hfreq Hnever)
      as (bs & f' & _ & _ & Hadd).
    apply add_parameter_Ok in Hadd as (Hof & _ & Hhi). cbn in Hof.
    assert (f' = f) as -> by congruence.
    specialize (Hhi _ eq_refl). rewrite Hbm in Hhi. lia.
Qed.

(** C8 (amended): the memory is created with the minimum capacity
    batch maximum + 1 + largest past horizon + maximum future horizon in
    'timesteps' mode; in 'episodes' mode with (batch maximum + 1) *
    max_episode_timesteps when max_episode_timesteps is given and with 0
    when it is None.  A constructed model never has a capacity below that
    minimum: undersizing already fails the construction. *)
Theorem memory_min_capacity (a : Args.t) (m : TensorforceModel) :
  init a = Ok m ->
  (update_unit m = "timesteps" ->
     min_capacity (memory m) = timesteps_min_capacity m)
  /\ (update_unit m = "episodes" ->
       min_capacity (memory m)
       = match Args.max_episode_timesteps a with
         | Some max_episode_timesteps =>
             (max_value (update_batch_size m) + 1) * max_episode_timesteps
         | None => 0
         end)
  /\ (update_unit m = "timesteps" \/ update_unit m = "episodes")
  /\ capacity (memory m) = Args.memory a
  /\ min_capacity (memory m) <= capacity (memory m).
Proof.
  intros Hm. pose proof Hm as Hm'.
  apply init_Ok in Hm'
    as (bs & mc & _ & Hunit & _ & _ & _ & _ & _ & _ & Hb & _ & _ & _ & Hmin & Hmem).
  assert (init a = Ok m -> policy m = Args.policy a) as Hpol.
  { clear. unfold init; intros Hm.
    repeat (let x := fresh "x" in let Hx := fresh "Hx" in
            apply bind_Ok in Hm as (x & Hx & Hm);
            try match type of x with (_ * _)%type => destruct x end).
    injection Hm as <-. reflexivity. }
  specialize (Hpol Hm).
  unfold add_memory in Hmem. bind_ok Hmem as u Hcap.
  apply raise_if_Ok, Z.ltb_ge in Hcap. injection Hmem as <-. cbn.
  unfold init_min_capacity in Hmin.
  unfold timesteps_min_capacity, largest_past_horizon. rewrite Hb, Hpol.
  repeat (apply elem_of_cons in Hunit as [Hunit|Hunit]);
    [| |inversion Hunit]; rewrite Hunit in *; cbn in Hmin.
  - injection Hmin as <-.
    repeat split; auto; try discriminate; try lia.
  - repeat split; auto; try discriminate; try lia.
    destruct (Args.max_episode_timesteps a); injection Hmin as <-; reflexivity.
Qed.

End Sizing.

(** C8 as stated fails: in 'episodes' mode without max_episode_timesteps
    there is no product to speak of; the minimum capacity is 0. *)
Lemma memory_sized_by_product_counterexample :
  ~ memory_sized_by_product Sample.args_episodes_unbounded.
Proof.
  intros Hsized.
  destruct (init Sample.args_episodes_unbounded) as [m|e] eqn:Hm;
    [|vm_compute in Hm; discriminate].
  destruct (Hsized m Hm) as [_ Hepisodes].
  vm_compute in Hm. injection Hm as <-.
  destruct (Hepisodes eq_refl) as (t & Hnone & _). discriminate.
Qed.

Example init_args_plain : init Sample.args_plain = Ok Sample.model_plain.
Proof. vm_compute. reflexivity. Qed.

(** ** The update scheduler *)

Lemma long_max_positive `{Util} : 0 < long_max.
Proof. unfold long_max. apply Z.pow_pos_nonneg; lia. Qed.

Lemma long_wrap_small `{Util} (z : Z) :
  - long_max <= z < long_max -> long_wrap z = z.
Proof.
  intros Hz. pose proof long_max_positive. unfold long_wrap.
  rewrite Z.mod_small; lia.
Qed.

(** Removes the wrap-arounds whose argument is in range, innermost first. *)
Ltac unwrap_long :=
  repeat match goal with
         | |- context [long_wrap ?z] =>
             lazymatch z with
             | context [long_wrap _] => fail
             | _ => rewrite (long_wrap_small z) by lia
             end
         end.

Section Scheduler.
Context `{Util} {Cell : Type} {EM : @EstimatorModule Cell}.

Lemma core_experience_variables m b s s' :
  core_experience m b s = Ok s' ->
  last_update s' = last_update s /\ update s' = update s
  /\ same_counters s s'.
Proof.
  unfold core_experience, same_counters.
  destruct (enqueue _ _ _) as [st [any ov]].
  intros He. bind_ok He as lt Hlt. bind_ok He as sv Hsv.
  destruct sv as [s1 v]. bind_ok He as n Hn.
  assert (last_update s1 = last_update s /\ update s1 = update s
          /\ timestep s1 = timestep s /\ episode s1 = episode s
          /\ buffer_index s1 = buffer_index s) as (H1 & H2 & H3 & H4 & H5).
  { destruct (0 <? lt).
    - cbn in Hsv. destruct (reset _ _) as [st2 rv].
      bind_ok Hsv as nv Hnv. injection Hsv as <- <-. cbn. auto.
    - injection Hsv as <- <-. cbn. auto. }
  destruct (0 <? n); injection He as <-; cbn; auto.
Qed.

Lemma getattr_baseline_Ok m x :
  getattr_baseline m = Ok x
  <-> separate_baseline_policy m = true /\ x = self_baseline.
Proof.
  unfold getattr_baseline. destruct (separate_baseline_policy m).
  - split; [intros [= <-]; auto | intros [_ ->]; reflexivity].
  - split; [discriminate | intros [? _]; discriminate].
Qed.

Lemma optimize_baseline_Ok m env s s' :
  optimize_baseline m env s = Ok s'
  <-> separate_baseline_policy m = true
      /\ s' = call baseline_optimizer_minimize
                (call (estimator_complete self_baseline)
                   (call (memory_retrieve ["reward"])
                      (call (memory_retrieve
                               ["auxiliaries"; "actions"; "reward"])
                         (call (memory_predecessors
                                  (baseline_past_horizon env true)) s)))).
Proof.
  unfold optimize_baseline. rewrite bind_Ok. split.
  - intros (x & Hx & Hs). apply getattr_baseline_Ok in Hx as [Hsep ->].
    injection Hs as <-. auto.
  - intros [Hsep ->]. exists self_baseline.
    split; [apply getattr_baseline_Ok; auto | reflexivity].
Qed.

Lemma optimize_variables m env s s' :
  optimize m env s = Ok s' ->
  last_update s' = last_update s /\ update s' = update s
  /\ same_counters s s'.
Proof.
  unfold optimize, same_counters. intros Ho.
  bind_ok Ho as s1 Hs1. bind_ok Ho as u Hu. bind_ok Ho as x Hx.
  injection Ho as <-. cbn.
  destruct (negb _); [apply optimize_baseline_Ok in Hs1 as [_ ->]|
                      injection Hs1 as <-]; cbn; auto.
Qed.

Lemma core_update_variables m env s s' :
  core_update m env s = Ok s' ->
  last_update s' = last_update s /\ update s' = long_add (update s) 1
  /\ same_counters s s'.
Proof.
  unfold core_update. intros Hu.
  bind_ok Hu as s1 Hs1. bind_ok Hu as s2 Hs2. injection Hu as <-.
  apply optimize_variables in Hs2 as (H1 & H2 & H3 & H4 & H5).
  unfold same_counters. cbn. rewrite H1, H2, H3, H4, H5.
  destruct (String.eqb _ "timesteps");
    [|destruct (String.eqb _ "episodes"); [|discriminate]];
    injection Hs1 as <-; cbn; auto.
Qed.

Lemma perform_update_variables m env unit s s' :
  perform_update m env unit s = Ok s' ->
  last_update s' = unit /\ update s' = long_add (update s) 1
  /\ same_counters s s'.
Proof.
  unfold perform_update. intros Hu.
  apply core_update_variables in Hu. exact Hu.
Qed.

Lemma scheduler_unit_exact m env s :
  update_unit m = "timesteps" \/ update_unit m = "episodes" ->
  small_env env -> long_small (timestep s) -> long_small (episode s) ->
  scheduler_unit m env s = Ok (schedule_unit m env s).
Proof.
  unfold small_env, long_small.
  intros Hunit (Hf & Hs & Hp & Hb & Hh) Ht He.
  pose proof long_max_positive.
  unfold scheduler_unit, scheduler_start, schedule_unit, schedule_start,
    schedule_past_horizon, long_add, long_sub.
  destruct Hunit as [-> | ->]; cbn; f_equal.
  - destruct (separate_baseline_policy m); unwrap_long; reflexivity.
  - unwrap_long; reflexivity.
Qed.



(** C4: when the check has fired an update at some unit value, a second
    check at the same unit value does not fire: last_update holds that
    value and the strict comparison fails. *)
Theorem no_second_update_at_same_unit (m : TensorforceModel)
    (env env' : Env) (b b' : Batch) (s s0 s1 s1' : State) (unit : Z)
    (f : ParameterModule) :
  update_frequency m = Some f ->
  core_experience m b s = Ok s0 ->
  is_frequency m env s0 = Ok (unit, true) ->
  perform_update m env unit s0 = Ok s1 ->
  core_experience m b' s1 = Ok s1' ->
  scheduler_unit m env' s1' = Ok unit ->
  frequency_value env' <> 0 ->
  core_observe m env b s = Ok s1
  /\ last_update s1 = unit
  /\ is_frequency m env' s1' = Ok (unit, false)
  /\ core_observe m env' b' s1 = Ok s1'
  /\ update s1' = update s1.
Proof.
  intros Hfreq Hexp Hfire Hupd Hexp' Hunit Hf.
  apply perform_update_variables in Hupd as Hvars.
  destruct Hvars as (Hlast & _).
  destruct (core_experience_variables _ _ _ _ Hexp') as (Hlast' & Hupd' & _).
  assert (is_frequency m env' s1' = Ok (unit, false)) as Hcheck.
  { unfold is_frequency. rewrite Hunit. cbn. unfold long_mod.
    destruct (frequency_value env' =? 0) eqn:E; [lia|]. cbn.
    rewrite Hlast', Hlast, Z.ltb_irrefl, andb_false_r. reflexivity. }
  repeat split; auto.
  - unfold core_observe. rewrite Hexp. cbn. rewrite Hfreq, Hfire. exact Hupd.
  - unfold core_observe. rewrite Hexp'. cbn. rewrite Hfreq, Hcheck.
    reflexivity.
Qed.

Lemma core_observe_last_update m env b s s' :
  core_observe m env b s = Ok s' ->
  last_update s' = last_update s
  \/ (last_update s < last_update s'
      /\ exists s0, core_experience m b s = Ok s0
                    /\ scheduler_unit m env s0 = Ok (last_update s')).
Proof.
  unfold core_observe. intros Ho. bind_ok Ho as s0 Hexp.
  destruct (core_experience_variables _ _ _ _ Hexp) as (Hlast & _).
  destruct (update_frequency m).
  - bind_ok Ho as uf Hcheck. destruct uf as [unit fire].
    unfold is_frequency in Hcheck.
    bind_ok Hcheck as unit' Hunit. bind_ok Hcheck as r Hr.
    injection Hcheck as <- <-.
    destruct (_ && _) eqn:Hfire.
    + apply perform_update_variables in Ho as (Hu & _).
      apply andb_true_iff in Hfire as [_ Hlt]. apply Z.ltb_lt in Hlt.
      right. rewrite Hu, <- Hlast. eauto.
    + injection Ho as <-. auto.
  - injection Ho as <-. auto.
Qed.

(** C5: last_update starts at -1; a call of core_observe either leaves
    it alone or replaces it by the strictly larger shifted unit of that
    call; over any sequence of calls it never decreases. *)
Theorem last_update_monotone (m : TensorforceModel) :
  (forall staged0 update0 timestep0 episode0 buffer_index0,
      last_update
        (tf_initialize staged0 update0 timestep0 episode0 buffer_index0)
      = -1)
  /\ (forall env b s s',
        core_observe m env b s = Ok s' ->
        last_update s' = last_update s
        \/ (last_update s < last_update s'
            /\ exists s0, core_experience m b s = Ok s0
                          /\ scheduler_unit m env s0 = Ok (last_update s')))
  /\ (forall calls s s',
        run_observe m calls s = Ok s' -> last_update s <= last_update s').
Proof.
  split; [reflexivity|]. split; [apply core_observe_last_update|].
  induction calls as [|o calls IH]; intros s s' Hrun; cbn in Hrun.
  - injection Hrun as <-. lia.
  - bind_ok Hrun as s1 Hobs. apply IH in Hrun.
    apply core_observe_last_update in Hobs. cbn in Hobs.
    destruct Hobs as [Heq | [Hlt _]]; lia.
Qed.

Lemma core_experience_trace m b s s' :
  core_experience m b s = Ok s' ->
  exists vs, trace s' = trace s ++ (memory_enqueue <$> vs).
Proof.
  unfold core_experience.
  destruct (enqueue _ _ _) as [st [any ov]].
  intros He. bind_ok He as lt Hlt. bind_ok He as sv Hsv.
  destruct sv as [s1 v]. bind_ok He as n Hn.
  assert (trace s1 = trace s) as Htrace.
  { destruct (0 <? lt).
    - cbn in Hsv. destruct (reset _ _) as [st2 rv].
      bind_ok Hsv as nv Hnv. injection Hsv as <- <-. reflexivity.
    - injection Hsv as <- <-. reflexivity. }
  destruct (0 <? n); injection He as <-; cbn; rewrite Htrace.
  - exists [v]. reflexivity.
  - exists []. cbn. rewrite app_nil_r. reflexivity.
Qed.

(** C3: with update['frequency'] = 'never' no frequency parameter exists,
    every call of core_observe is the call of core_experience alone, and
    over any sequence of calls the update counter and last_update keep
    their values while the only calls made are memory.enqueue. *)
Theorem never_frequency_only_records `{EstimatorHorizons}
    (a : Args.t) (m : TensorforceModel) :
  init a = Ok m ->
  Args.update a !! "frequency" = Some (VStr "never") ->
  update_frequency m = None
  /\ (forall env b s, core_observe m env b s = core_experience m b s)
  /\ (forall calls s s',
        run_observe m calls s = Ok s' ->
        update s' = update s /\ last_update s' = last_update s
        /\ exists vs, trace s' = trace s ++ (memory_enqueue <$> vs)).
Proof.
  intros Hm Hnever.
  apply init_Ok in Hm as (bs & mc & _ & _ & _ & _ & Hf & _).
  rewrite Hnever in Hf. cbn in Hf. destruct Hf as [Hnone _].
  assert (forall env b s, core_observe m env b s = core_experience m b s)
    as Hobs.
  { intros env b s. unfold core_observe. rewrite Hnone.
    destruct (core_experience m b s); reflexivity. }
  split; [exact Hnone|]. split; [exact Hobs|].
  induction calls as [|o calls IH]; intros s s' Hrun; cbn in Hrun.
  - injection Hrun as <-. repeat split; auto.
    exists []. cbn. rewrite app_nil_r. reflexivity.
  - bind_ok Hrun as s1 Hexp. rewrite Hobs in Hexp.
    destruct (core_experience_variables _ _ _ _ Hexp) as (Hl & Hu & _).
    destruct (core_experience_trace _ _ _ _ Hexp) as (vs1 & Ht1).
    destruct (IH _ _ Hrun) as (Hu' & Hl' & vs & Ht).
    cbn in Hl, Hu, Ht1.
    repeat split; [congruence | congruence |].
    exists (vs1 ++ vs). rewrite Ht, Ht1, fmap_app, app_assoc. reflexivity.
Qed.

End Scheduler.

(** ** The horizon check of optimize *)

Section Optimize.
Context `{Util} {Cell : Type} {EM : @EstimatorModule Cell}.

(** C9: with a separate baseline policy and no baseline optimizer module,
    optimize fails when the policy's and the baseline's on-policy past
    horizons differ (and goes through when they agree); with a baseline
    optimizer module, optimize goes through whatever the two horizons
    are. *)
Theorem optimize_horizon_check (m : TensorforceModel) (env : Env)
    (s : State) :
  (separate_baseline_policy m = true ->
   is_None (baseline_optimizer m) = true ->
   (policy_past_horizon env true <> baseline_past_horizon env true ->
      optimize m env s = Error horizon_mismatch)
   /\ (policy_past_horizon env true = baseline_past_horizon env true ->
        exists s', optimize m env s = Ok s'))
  /\ (separate_baseline_policy m = true ->
      is_None (baseline_optimizer m) = false ->
      exists s', optimize m env s = Ok s').
Proof.
  unfold optimize, optimize_baseline, getattr_baseline. split.
  - intros -> ->. cbn. split; intros Hh.
    + apply Z.eqb_neq in Hh. rewrite Hh. reflexivity.
    + apply Z.eqb_eq in Hh. rewrite Hh. cbn. eauto.
  - intros -> ->. cbn. eauto.
Qed.

End Optimize.

(** ** The assertions of api_experience *)

Lemma count_nonzero_cons (a : Z) (l : list Z) :
  count_nonzero (a :: l)
  = (if decide (a = 0) then 0 else 1) + count_nonzero l.
Proof.
  unfold count_nonzero. rewrite filter_cons.
  destruct (decide (a <> 0)), (decide (a = 0)); cbn [length]; lia.
Qed.

Lemma count_nonzero_nonneg (l : list Z) : 0 <= count_nonzero l.
Proof. unfold count_nonzero. lia. Qed.

Lemma count_nonzero_zero (l : list Z) :
  count_nonzero l = 0 -> Forall (fun x => x = 0) l.
Proof.
  induction l as [|a l IH]; [constructor|].
  rewrite count_nonzero_cons. pose proof (count_nonzero_nonneg l).
  destruct (decide (a = 0)); [|lia].
  intros Hc. constructor; [assumption | apply IH; lia].
Qed.

Lemma positive_only_last_cons (a b : Z) (l : list Z) :
  positive_only_last (a :: b :: l)
  <-> a <= 0 /\ positive_only_last (b :: l).
Proof.
  unfold positive_only_last. split.
  - intros Hl. split.
    + destruct (decide (a <= 0)) as [|Ha]; [assumption|].
      specialize (Hl 0%nat a eq_refl ltac:(lia)). discriminate.
    + intros i t Hi Ht. specialize (Hl (S i) t Hi Ht). cbn in *. lia.
  - intros [Ha Hl] [|i] t Hi Ht; cbn in Hi.
    + injection Hi as <-. lia.
    + specialize (Hl i t Hi Ht). cbn in *. lia.
Qed.

Lemma terminal_checks_pass (l : list Z) :
  l <> [] -> positive_only_last l ->
  exists x, last l = Some x
            /\ existsb (fun t => 0 <? t) l = (0 <? x).
Proof.
  induction l as [|a l IH]; [congruence|]. intros _ Hl.
  destruct l as [|b l].
  - exists a. cbn. rewrite orb_false_r. auto.
  - apply positive_only_last_cons in Hl as [Ha Hl].
    destruct (IH ltac:(discriminate) Hl) as (x & Hx & Hany).
    exists x. split; [exact Hx|].
    change (existsb (fun t => 0 <? t) (a :: b :: l))
      with ((0 <? a) || existsb (fun t => 0 <? t) (b :: l)).
    rewrite Hany. destruct (0 <? a) eqn:E; [lia | reflexivity].
Qed.

Lemma terminal_checks_force (l : list Z) (x : Z) :
  count_nonzero l <= 1 ->
  last l = Some x ->
  existsb (fun t => 0 <? t) l = (0 <? x) ->
  positive_only_last l.
Proof.
  induction l as [|a l IH]; [discriminate|].
  intros Hcount Hlast Hany.
  destruct l as [|b l].
  - intros [|i] t Hi _; [reflexivity | discriminate].
  - apply positive_only_last_cons.
    rewrite count_nonzero_cons in Hcount.
    pose proof (count_nonzero_nonneg (b :: l)).
    change (last (a :: b :: l)) with (last (b :: l)) in Hlast.
    destruct (decide (a = 0)) as [->|Ha0].
    + split; [lia|]. apply IH; auto; lia.
    + assert (Forall (fun t => t = 0) (b :: l)) as Hzero
        by (apply count_nonzero_zero; lia).
      assert (x = 0) as ->.
      { apply last_Some_elem_of in Hlast.
        rewrite Forall_forall in Hzero. auto. }
      change (existsb (fun t => 0 <? t) (a :: b :: l))
        with ((0 <? a) || existsb (fun t => 0 <? t) (b :: l)) in Hany.
      destruct (0 <? a) eqn:E; [discriminate|].
      split; [lia|]. intros i t Hi Ht.
      apply list_elem_of_lookup_2 in Hi.
      rewrite Forall_forall in Hzero. specialize (Hzero t Hi). lia.
Qed.

Lemma total_cons (a : Z) (l : list Z) : total (a :: l) = a + total l.
Proof. reflexivity. Qed.

Lemma total_nonneg (l : list Z) : Forall (fun i => 0 <= i) l -> 0 <= total l.
Proof. induction 1; rewrite ?total_cons; [reflexivity | lia]. Qed.

Lemma long_sum_exact `{Util} (l : list Z) :
  Forall (fun i => 0 <= i) l -> total l < long_max -> long_sum l = total l.
Proof.
  induction l as [|a l IH]; [reflexivity|].
  rewrite total_cons. intros Hpos Hsum.
  apply Forall_cons in Hpos as [Ha Hpos].
  pose proof (total_nonneg l Hpos).
  change (long_sum (a :: l)) with (long_add a (long_sum l)).
  rewrite IH by (assumption || lia).
  unfold long_add. rewrite long_wrap_small; lia.
Qed.

Lemma total_zero (l : list Z) :
  Forall (fun i => 0 <= i) l -> total l = 0 -> Forall (fun i => i = 0) l.
Proof.
  induction 1 as [|a l Ha Hl IH]; [constructor|].
  rewrite total_cons. intros Hs. pose proof (total_nonneg l Hl).
  constructor; [lia | apply IH; lia].
Qed.

Lemma long_sum_zeros `{Util} (l : list Z) :
  Forall (fun i => i = 0) l -> long_sum l = 0.
Proof.
  induction 1 as [|a l -> Hl IH]; [reflexivity|].
  change (long_sum (0 :: l)) with (long_add 0 (long_sum l)).
  rewrite IH. pose proof long_max_positive.
  unfold long_add. apply long_wrap_small. lia.
Qed.

Section Experience.
Context `{Util} {Cell : Type} {EM : @EstimatorModule Cell}.

Lemma api_experience_assertions m b s :
  (exists message, api_experience m b s = Error (InvalidArgumentError message))
  \/ (long_sum (buffer_index s) = 0
      /\ count_nonzero (terminal b) <= 1
      /\ exists x, last (terminal b) = Some x
                   /\ existsb (fun t => 0 <? t) (terminal b) = (0 <? x)).
Proof.
  unfold api_experience, tf_assert.
  destruct (length (terminal b) =? length (reward b))%nat; cbn;
    [|left; eauto].
  unfold assert_buffer_index_zero, tf_assert.
  destruct (long_sum (buffer_index s) =? 0) eqn:Hzero; cbn; [|left; eauto].
  unfold assert_at_most_one_terminal, tf_assert.
  destruct (count_nonzero (terminal b) <=? 1) eqn:Hcount; cbn; [|left; eauto].
  unfold assert_terminal_last, last_item, tf_assert.
  destruct (last (terminal b)) as [x|]; cbn; [|left; eauto].
  destruct (Bool.eqb _ _) eqn:Hlast; cbn; [|left; eauto].
  right. apply eqb_prop in Hlast. repeat split; [lia | lia | eauto].
Qed.

(** C6 (amended): api_experience fails in an assertion (the error
    carries no state: nothing is recorded) whenever the batch holds more
    than one non-zero terminal flag, or a positive terminal flag that is
    not its last element, or no element at all, or the sum of the buffer
    indices, taken in 'long', is not zero; a non-empty batch with at most
    one non-zero flag, no positive flag before the last element and a zero
    sum of the buffer indices passes the three assertions.  For buffer
    indices that count upwards from 0 without overflow the sum is zero
    exactly when every index is zero. *)
Theorem api_experience_preconditions (m : TensorforceModel) (b : Batch)
    (s : State) :
  ((1 < count_nonzero (terminal b)
    \/ (exists i t, terminal b !! i = Some t /\ 0 < t
                    /\ S i <> length (terminal b))
    \/ terminal b = []
    \/ long_sum (buffer_index s) <> 0) ->
   exists message,
     api_experience m b s = Error (InvalidArgumentError message))
  /\ (terminal b <> [] ->
      count_nonzero (terminal b) <= 1 ->
      positive_only_last (terminal b) ->
      long_sum (buffer_index s) = 0 ->
      assert_buffer_index_zero s = Ok tt
      /\ assert_at_most_one_terminal b = Ok tt
      /\ assert_terminal_last b = Ok tt)
  /\ (Forall (fun i => 0 <= i) (buffer_index s) ->
      total (buffer_index s) < long_max ->
      (long_sum (buffer_index s) = 0
       <-> Forall (fun i => i = 0) (buffer_index s))).
Proof.
  split; [|split].
  - intros Hbad.
    destruct (api_experience_assertions m b s)
      as [Herror | (Hzero & Hcount & x & Hx & Hany)]; [exact Herror | exfalso].
    destruct Hbad as [Hmany | [(i & t & Hi & Ht & Hpos) | [Hempty | Hsum]]].
    + lia.
    + pose proof (terminal_checks_force _ _ Hcount Hx Hany) as Hlast.
      apply Hpos. eapply Hlast; eauto.
    + rewrite Hempty in Hx. discriminate.
    + contradiction.
  - intros Hne Hcount Hlast Hzero.
    unfold assert_buffer_index_zero, assert_at_most_one_terminal,
      assert_terminal_last, last_item.
    rewrite Hzero.
    destruct (terminal_checks_pass _ Hne Hlast) as (x & -> & ->).
    cbn. rewrite eqb_reflx.
    destruct (count_nonzero (terminal b) <=? 1) eqn:E; [auto | lia].
  - intros Hbuffer Hsum. split.
    + rewrite (long_sum_exact _ Hbuffer Hsum). apply total_zero, Hbuffer.
    + apply long_sum_zeros.
Qed.

End Experience.

(** C6 as stated fails.  A flag of -1 in the first position is a non-zero
    terminal flag that is not the last element, yet the batch is accepted:
    the position check compares "some flag is positive" with "the last flag
    is positive".  And the empty batch has none of the three defects, yet
    it fails the third assertion, which reads the last flag. *)
Lemma api_experience_preconditions_counterexample :
  ~ preconditions_as_stated Sample.model_plain (Sample.batch [-1; 0])
      (Sample.state0 0 0)
  /\ ~ preconditions_as_stated Sample.model_plain (Sample.batch [])
        (Sample.state0 0 0).
Proof.
  split.
  - intros [Hraise _].
    assert (is_Error (api_experience Sample.model_plain
                        (Sample.batch [-1; 0]) (Sample.state0 0 0)) = true)
      as Herror.
    { apply Hraise. right. left. exists 0%nat, (-1).
      repeat split; discriminate. }
    vm_compute in Herror. discriminate.
  - intros [_ Hpass]. destruct Hpass as (_ & _ & Hlast).
    + vm_compute. discriminate.
    + intros i t Hi. discriminate.
    + repeat constructor.
    + vm_compute in Hlast. discriminate.
Qed.

(** ** What core_experience commits to the memory *)

Section Commit.
Context `{Util} {Cell : Type} {EM : @EstimatorModule Cell}.

Lemma od_getitem_Ok {V} (d : list (string * V)) (name : string) (v : V) :
  od_getitem d name = Ok v <-> od_get d name = Some v.
Proof.
  unfold od_getitem. destruct (od_get d name); split; congruence.
Qed.

Lemma concat_nested_cons (k : string) (c1 : list Cell)
    (d1 d2 d : list (string * list Cell)) :
  concat_nested ((k, c1) :: d1) d2 = Ok d
  <-> exists c2 d', od_get d2 k = Some c2 /\ concat_nested d1 d2 = Ok d'
                    /\ d = (k, c1 ++ c2) :: d'.
Proof.
  unfold concat_nested. cbn [zip_items]. split.
  - intros Hd. bind_ok Hd as items Hitems. bind_ok Hitems as c2 Hc2.
    bind_ok Hitems as items' Hitems'. injection Hitems as <-.
    injection Hd as <-. apply od_getitem_Ok in Hc2.
    exists c2. eexists. split; [exact Hc2|]. rewrite Hitems'. cbn. auto.
  - intros (c2 & d' & Hc2 & Hd' & ->).
    apply od_getitem_Ok in Hc2. rewrite Hc2. cbn.
    bind_ok Hd' as items' Hitems'. injection Hd' as <-.
    rewrite Hitems'. reflexivity.
Qed.

Lemma concat_values_cons (k : string) (v1 : @value Cell)
    (ov rv v : @values Cell) :
  concat_values ((k, v1) :: ov) rv = Ok v
  <-> exists v2 new v', od_get rv k = Some v2
                        /\ concat_value k v1 v2 = Ok new
                        /\ concat_values ov rv = Ok v'
                        /\ v = (k, new) :: v'.
Proof.
  unfold concat_values. cbn [zip_items]. split.
  - intros Hv. bind_ok Hv as items Hitems. bind_ok Hitems as v2 Hv2.
    bind_ok Hitems as items' Hitems'. injection Hitems as <-.
    cbn [concat_items] in Hv. bind_ok Hv as new Hnew. bind_ok Hv as v' Hv'.
    injection Hv as <-. apply od_getitem_Ok in Hv2.
    exists v2, new, v'. rewrite Hitems'. cbn. auto.
  - intros (v2 & new & v' & Hv2 & Hnew & Hv' & ->).
    apply od_getitem_Ok in Hv2. rewrite Hv2. cbn.
    bind_ok Hv' as items' Hitems'. rewrite Hitems'. cbn.
    rewrite Hnew. cbn. rewrite Hv'. reflexivity.
Qed.

Lemma concat_nested_get (d1 d2 d : list (string * list Cell)) :
  concat_nested d1 d2 = Ok d ->
  forall i, od_get d i
            = (c1 ← od_get d1 i; c2 ← od_get d2 i; Some (c1 ++ c2)).
Proof.
  revert d. induction d1 as [|[k c1] d1 IH]; intros d Hd i.
  - injection Hd as <-. reflexivity.
  - apply concat_nested_cons in Hd as (c2 & d' & Hk & Hd' & ->). cbn.
    destruct (String.eqb k i) eqn:E.
    + apply String.eqb_eq in E as <-. rewrite Hk. reflexivity.
    + apply IH, Hd'.
Qed.

Lemma concat_nested_total (d1 d2 : list (string * list Cell)) :
  forallb (fun kv => bool_decide (is_Some (od_get d2 kv.1))) d1 = true ->
  exists d, concat_nested d1 d2 = Ok d.
Proof.
  induction d1 as [|[k c1] d1 IH]; cbn [forallb]; [eexists; reflexivity|].
  intros Hall. apply andb_true_iff in Hall as [Hk Hall].
  apply bool_decide_eq_true in Hk as [c2 Hk].
  destruct (IH Hall) as [d Hd].
  eexists. apply concat_nested_cons. eauto 6.
Qed.

Lemma concat_values_component (ov rv v : @values Cell) :
  concat_values ov rv = Ok v ->
  forall name inner,
    component v name inner
    = (c1 ← component ov name inner; c2 ← component rv name inner;
       Some (c1 ++ c2)).
Proof.
  revert v. induction ov as [|[k v1] ov IH]; intros v Hv name inner.
  - injection Hv as <-. reflexivity.
  - apply concat_values_cons in Hv as (v2 & new & v' & Hk & Hnew & Hv' & ->).
    unfold component. cbn [od_get].
    destruct (String.eqb k name) eqn:E.
    + apply String.eqb_eq in E as <-. rewrite Hk.
      unfold concat_value in Hnew.
      destruct (is_nested k), v1 as [t1|d1], v2 as [t2|d2];
        try discriminate.
      * bind_ok Hnew as d Hd. injection Hnew as <-.
        destruct inner as [i|]; [|reflexivity].
        apply concat_nested_get, Hd.
      * injection Hnew as <-. destruct inner; reflexivity.
    + apply (IH _ Hv' name inner).
Qed.

Lemma concat_values_names (ov rv v : @values Cell) :
  concat_values ov rv = Ok v -> v.*1 = ov.*1.
Proof.
  revert v. induction ov as [|[k v1] ov IH]; intros v Hv.
  - injection Hv as <-. reflexivity.
  - apply concat_values_cons in Hv as (v2 & new & v' & _ & _ & Hv' & ->).
    cbn. f_equal. apply IH, Hv'.
Qed.

Lemma concat_values_total (ov rv : @values Cell) :
  zips_with ov rv = true -> exists v, concat_values ov rv = Ok v.
Proof.
  induction ov as [|[k v1] ov IH]; cbn [zips_with forallb];
    [eexists; reflexivity|].
  intros Hall. apply andb_true_iff in Hall as [Hk Hall].
  destruct (IH Hall) as [v Hv]. cbn in Hk.
  destruct (od_get rv k) as [v2|] eqn:Hget; [|discriminate].
  assert (exists new, concat_value k v1 v2 = Ok new) as [new Hnew].
  { unfold shape_ok in Hk. unfold concat_value.
    destruct v1 as [t1|d1], v2 as [t2|d2]; try discriminate.
    - apply negb_true_iff in Hk. rewrite Hk. eauto.
    - apply andb_true_iff in Hk as [-> Hd].
      destruct (concat_nested_total _ _ Hd) as [d ->]. cbn. eauto. }
  eexists. apply concat_values_cons. eauto 8.
Qed.

Lemma component_tensor (v : @values Cell) name t :
  component v name None = Some t -> od_get v name = Some (Tensor t).
Proof.
  unfold component. destruct (od_get v name) as [[t'|d]|]; congruence.
Qed.

Lemma num_values_commit (v : @values Cell) t (s : State) :
  component v "terminal" None = Some t ->
  (n ← num_values v; if 0 <? n then Ok (call (memory_enqueue v) s) else Ok s)
  = Ok (commit v s).
Proof.
  intros Ht. unfold commit. rewrite Ht.
  apply component_tensor in Ht.
  unfold num_values, od_getitem. rewrite Ht. cbn.
  destruct (0 <? _); reflexivity.
Qed.

(** C7: after the batch is enqueued into the estimator, when the last
    terminal flag is greater than zero the values to commit are,
    component by component (nested ones included), the overwritten values
    followed by the values the estimator's reset returns; otherwise they
    are the overwritten values; memory.enqueue is called with them exactly
    when their terminal component has at least one row. *)
Theorem core_experience_commits (m : TensorforceModel) (b : Batch)
    (s : State) (st1 : staging) (any_overwritten : bool)
    (overwritten_values : values) (last_terminal : Z) :
  enqueue (baseline_of m) b (staged s)
  = (st1, (any_overwritten, overwritten_values)) ->
  last (terminal b) = Some last_terminal ->
  (0 < last_terminal ->
   forall st2 reset_values t1,
     reset (baseline_of m) st1 = (st2, reset_values) ->
     zips_with overwritten_values reset_values = true ->
     component overwritten_values "terminal" None = Some t1 ->
     exists v,
       (forall name inner,
           component v name inner
           = (c1 ← component overwritten_values name inner;
              c2 ← component reset_values name inner;
              Some (c1 ++ c2)))
       /\ v.*1 = overwritten_values.*1
       /\ core_experience m b s = Ok (commit v (set_staged st2 s)))
  /\ (last_terminal <= 0 ->
      forall t1,
        component overwritten_values "terminal" None = Some t1 ->
        core_experience m b s
        = Ok (commit overwritten_values (set_staged st1 s)))
  /\ (forall v s0,
        trace (commit v s0) = trace s0 ++ [memory_enqueue v]
        <-> exists t, component v "terminal" None = Some t
                      /\ (0 < length t)%nat).
Proof.
  intros Henq Hlast. split; [|split].
  - intros Hpos st2 rv t1 Hreset Hzip Ht1.
    destruct (concat_values_total _ _ Hzip) as [v Hv].
    pose proof (concat_values_component _ _ _ Hv) as Hcomp.
    exists v. split; [exact Hcomp|]. split; [eapply concat_values_names, Hv|].
    assert (exists t, component v "terminal" None = Some t) as [t Ht].
    { rewrite Hcomp, Ht1. cbn.
      pose proof Hzip as Hz. unfold zips_with in Hz.
      rewrite forallb_forall in Hz.
      apply component_tensor in Ht1.
      assert (exists r, od_get rv "terminal" = Some r
                        /\ shape_ok "terminal" (Tensor t1) r = true)
        as (r & Hr & Hshape).
      { clear -Ht1 Hz. induction overwritten_values as [|[k x] ov IH];
          [discriminate|]. cbn in Ht1.
        destruct (String.eqb k "terminal") eqn:E.
        - apply String.eqb_eq in E as ->. injection Ht1 as ->.
          specialize (Hz ("terminal", Tensor t1) (or_introl eq_refl)).
          cbn in Hz. destruct (od_get rv "terminal"); [eauto | discriminate].
        - apply IH; [assumption|]. intros kv Hkv. apply Hz. right. exact Hkv. }
      destruct r as [t2|d2]; [|discriminate].
      unfold component. rewrite Hr. cbn. eauto. }
    unfold core_experience. rewrite Henq. cbn.
    unfold last_item. rewrite Hlast. cbn.
    apply Z.ltb_lt in Hpos. rewrite Hpos. rewrite Hreset. cbn.
    rewrite Hv. cbn. eapply num_values_commit, Ht.
  - intros Hneg t1 Ht1.
    unfold core_experience. rewrite Henq. cbn.
    unfold last_item. rewrite Hlast. cbn.
    apply Z.ltb_ge in Hneg. rewrite Hneg. cbn.
    eapply num_values_commit, Ht1.
  - intros v s0. unfold commit.
    destruct (component v "terminal" None) as [t|].
    + destruct (0 <? Z.of_nat (length t)) eqn:E.
      * apply Z.ltb_lt in E. split; [|reflexivity].
        intros _. exists t. split; [reflexivity | lia].
      * apply Z.ltb_ge in E. split.
        -- intros Htrace. apply (f_equal length) in Htrace.
           rewrite length_app in Htrace. cbn in Htrace. lia.
        -- intros (t' & [= <-] & Hlen). lia.
    + split.
      * intros Htrace. apply (f_equal length) in Htrace.
        rewrite length_app in Htrace. cbn in Htrace. lia.
      * intros (t' & Hnone & _). discriminate.
Qed.

End Commit.

(** ** Construction, beyond the baseline topology *)

Lemma keys_in_spec (allowed : list string) (d : gmap string pyval) :
  keys_in allowed d = true <-> forall k, is_Some (d !! k) -> k ∈ allowed.
Proof.
  unfold keys_in. rewrite <- Is_true_true, forallb_True, Forall_forall.
  split.
  - intros Hall k [v Hv]. specialize (Hall k).
    apply (bool_decide_unpack _), Hall.
    apply list_elem_of_fmap. exists (k, v). split; [reflexivity|].
    apply elem_of_map_to_list, Hv.
  - intros Hall k Hk. apply (bool_decide_pack _), Hall.
    apply list_elem_of_fmap in Hk as ([k' v] & -> & Hkv).
    apply elem_of_map_to_list in Hkv. cbn. eauto.
Qed.

Lemma add_baseline_internals_Ok bs internals r :
  add_baseline_internals bs internals = Ok r
  <-> r = internals ++ bs /\ NoDup bs
      /\ forall internal, internal ∈ bs -> internal ∉ internals.
Proof.
  revert internals; induction bs as [|b bs IH]; intros internals; cbn.
  - rewrite app_nil_r. split.
    + intros [= <-]. split; [reflexivity|]. split; [constructor|].
      intros i Hi. inversion Hi.
    + intros (-> & _). reflexivity.
  - rewrite bind_Ok. split.
    + intros ([] & Hfresh & Hrest).
      apply raise_if_Ok, bool_decide_eq_false in Hfresh.
      apply IH in Hrest as (-> & Hnodup & Hnew).
      split; [rewrite <- app_assoc; reflexivity|].
      split.
      * constructor; [|exact Hnodup].
        intros Hb. apply (Hnew b Hb). apply elem_of_app. right. left.
      * intros i Hi. apply elem_of_cons in Hi as [-> | Hi]; [exact Hfresh|].
        intros Hin. apply (Hnew i Hi). apply elem_of_app. left. exact Hin.
    + intros (-> & Hnodup & Hnew). exists tt.
      apply NoDup_cons in Hnodup as [Hb Hnodup].
      split.
      * apply raise_if_Ok, bool_decide_eq_false, Hnew. left.
      * apply IH. split; [rewrite <- app_assoc; reflexivity|].
        split; [exact Hnodup|].
        intros i Hi Hin. apply elem_of_app in Hin as [Hin | Hin].
        -- apply (Hnew i); [right; exact Hi | exact Hin].
        -- apply list_elem_of_singleton in Hin as ->. contradiction.
Qed.

Lemma add_baseline_internals_Error bs internals e :
  add_baseline_internals bs internals = Error e ->
  e = TensorforceError_collision "model" "internals".
Proof.
  revert internals; induction bs as [|b bs IH]; intros internals; cbn.
  - discriminate.
  - intros He. bind_error He.
    + destruct (bool_decide _); cbn in He; congruence.
    + eapply IH, He.
Qed.

Lemma existsb_prefix_false (internals : list string) :
  existsb (String.prefix "baseline-") internals = false
  <-> Forall (fun internal => String.prefix "baseline-" internal = false)
        internals.
Proof.
  induction internals as [|i l IH]; cbn.
  - split; [constructor | reflexivity].
  - rewrite orb_false_iff, IH, Forall_cons. reflexivity.
Qed.

Section ConstructionMore.
Context `{EstimatorHorizons}.

(** The internals part of the constructor (lines 41-73), taken alone. *)
Lemma init_internals_steps a :
  internals_accepted a <->
  existsb (String.prefix "baseline-") (Policy.internals_spec (Args.policy a))
  = false
  /\ match Args.baseline_policy a with
     | None => Ok (Policy.internals_spec (Args.policy a))
     | Some baseline =>
         add_baseline_internals (Policy.internals_spec baseline)
           (Policy.internals_spec (Args.policy a))
     end
     = Ok (Policy.internals_spec (Args.policy a)
           ++ baseline_internals_of (Args.baseline_policy a)).
Proof.
  unfold internals_accepted. rewrite existsb_prefix_false.
  destruct (Args.baseline_policy a) as [b|]; cbn.
  - rewrite add_baseline_internals_Ok. tauto.
  - rewrite app_nil_r. split; [tauto|]. intros [Hp _].
    split; [exact Hp|]. split; [constructor|]. intros i Hi. inversion Hi.
Qed.

(** What a successful construction checked besides the baseline topology. *)
Lemma init_Ok_checks a m :
  init a = Ok m ->
  internals_accepted a
  /\ internals_spec m
     = Policy.internals_spec (Args.policy a)
       ++ baseline_internals_of (Args.baseline_policy a)
  /\ keys_in update_keys (Args.update a) = true
  /\ keys_in reward_estimation_keys (Args.reward_estimation a) = true
  /\ is_Some (Args.reward_estimation a !! "horizon")
  /\ policy m = Args.policy a
  /\ internals_init m
     = match Args.baseline_policy a with
       | Some baseline =>
           Policy.internals_init baseline
             ∪ Policy.internals_init (Args.policy a)
       | None => Policy.internals_init (Args.policy a)
       end
  /\ existsb is_None (map_to_list (internals_init m)).*2 = false.
Proof.
  unfold init; intros Hm.
  bind_ok Hm as u1 Hprefix. bind_ok Hm as internals Hinternals.
  bind_ok Hm as u2 Hkeys. bind_ok Hm as unit Hunit.
  bind_ok Hm as update_unit Hvalid. bind_ok Hm as batch_size Hbatch.
  bind_ok Hm as update_batch_size Hbs. bind_ok Hm as fs Hfs.
  destruct fs as [update_frequency update_start].
  bind_ok Hm as ow How. destruct ow as [sbo weight].
  bind_ok Hm as trainable Htrainable. bind_ok Hm as u3 Hrkeys.
  bind_ok Hm as horizon Hhorizon. bind_ok Hm as min_cap Hmin.
  bind_ok Hm as mem Hmem. bind_ok Hm as ent Hent. bind_ok Hm as u4 Hinit.
  injection Hm as <-; cbn.
  apply raise_if_Ok in Hprefix, Hkeys, Hrkeys, Hinit.
  apply negb_false_iff in Hkeys, Hrkeys.
  assert (internals_accepted a
          /\ internals = Policy.internals_spec (Args.policy a)
               ++ baseline_internals_of (Args.baseline_policy a))
    as [Haccepted ->].
  { unfold internals_accepted. rewrite <- existsb_prefix_false.
    destruct (Args.baseline_policy a) as [b|]; cbn.
    - apply add_baseline_internals_Ok in Hinternals as (-> & Hnodup & Hnew).
      auto.
    - injection Hinternals as <-. rewrite app_nil_r.
      repeat split; auto; [constructor|]. intros i Hi. inversion Hi. }
  unfold getitem in Hhorizon.
  destruct (Args.reward_estimation a !! "horizon") eqn:Eh; [|discriminate].
  split; [exact Haccepted|]. repeat split; eauto.
Qed.

End ConstructionMore.

(** ** Construction: the baseline topology, with the other arguments valid *)

Section TopologySuccess.
Context `{EstimatorHorizons}.

Lemma init_baseline_optimizer_steps a :
  if documented_invalid_args a
  then exists c, init_baseline_optimizer a = Error (AssertionError c)
  else exists weight,
      init_baseline_optimizer a = Ok (resolved_baseline_optimizer a, weight).
Proof.
  unfold init_baseline_optimizer, resolved_baseline_optimizer,
    documented_invalid_args, documented_invalid, has_objective, has_policy,
    form, optimizer_form_of.
  destruct (is_None (Args.baseline_optimizer a)) eqn:En.
  - destruct (is_None (Args.baseline_objective a)); eauto.
  - destruct (is_float (Args.baseline_optimizer a)) eqn:Ef;
      destruct (is_None (Args.baseline_objective a)),
        (bool_decide (is_Some (Args.baseline_policy a))); cbn; eauto.
Qed.

Lemma init_is_trainable_steps a :
  documented_invalid_args a = false ->
  if untrained_baseline a
  then exists c,
      init_is_trainable a (resolved_baseline_optimizer a)
      = Error (AssertionError c)
  else init_is_trainable a (resolved_baseline_optimizer a)
       = Ok (table_is_trainable (has_policy a) (has_objective a) (form a)).
Proof.
  unfold init_is_trainable, resolved_baseline_optimizer, untrained_baseline,
    table_is_trainable, documented_invalid_args, documented_invalid.
  fold (has_policy a) (has_objective a).
  assert (form a = OptimizerModule ->
          is_None (Args.baseline_optimizer a) = false) as Hmodule.
  { unfold form, optimizer_form_of.
    destruct (is_None (Args.baseline_optimizer a)); [discriminate|].
    reflexivity. }
  destruct (form a) eqn:Ef; [| |rewrite (Hmodule eq_refl)];
    destruct (has_policy a), (has_objective a); cbn;
    try discriminate; intros _; eauto;
    destruct (truthy _); cbn; eauto.
Qed.

(** With the other arguments valid, the two baseline assertions decide
    the outcome of the construction. *)
Lemma init_with_valid_arguments a :
  other_arguments_valid a ->
  if documented_invalid_args a || untrained_baseline a
  then exists c, init a = Error (AssertionError c)
  else exists m, init a = Ok m.
Proof.
  intros (Haccepted & Hkeys
          & (unit & batch_size & ubs & Hunit & Hin & Hbatch & Hbs & Hfreq
             & horizon & min_cap & Hhorizon & Hmin & Hcap)
          & Hrkeys & (weight & Hent) & Hnone).
  apply init_internals_steps in Haccepted as [Hp Hi].
  assert (exists fs,
            (if from_option (fun frequency => eq_str frequency "never") false
                  (Args.update a !! "frequency")
             then Ok (None, None)
             else
               f ← add_parameter "update_frequency"
                     (default batch_size (Args.update a !! "frequency"))
                     (Some 1) (Some (Z.max 2 (max_value ubs)));
               s ← add_parameter "update_start"
                     (default (VInt 0) (Args.update a !! "start"))
                     (Some 0) None;
               Ok (Some f, Some s))
            = Ok fs) as [[update_frequency update_start] Hfs].
  { destruct (from_option _ false (Args.update a !! "frequency")) eqn:E;
      [eauto|].
    destruct Hfreq as [Hnever | (f & s & -> & ->)]; [|cbn; eauto].
    rewrite Hnever in E. discriminate. }
  unfold init, required, getitem; cbv zeta.
  rewrite Hp, Hi, Hkeys, Hunit. cbn [mbind result_bind raise_if negb].
  rewrite (bool_decide_eq_true_2 _ Hin), Hbatch.
  cbn [mbind result_bind]. rewrite Hbs. cbn [mbind result_bind].
  rewrite Hfs. cbn [mbind result_bind].
  pose proof (init_baseline_optimizer_steps a) as Hoptimizer.
  pose proof (init_is_trainable_steps a) as Htrainable.
  destruct (documented_invalid_args a); cbn [orb].
  { destruct Hoptimizer as [c ->]. eauto. }
  destruct Hoptimizer as [loss_weight ->]. cbn [mbind result_bind].
  specialize (Htrainable eq_refl).
  destruct (untrained_baseline a).
  { destruct Htrainable as [c ->]. eauto. }
  rewrite Htrainable. cbn [mbind result_bind].
  rewrite Hrkeys, Hhorizon. cbn [mbind result_bind raise_if negb].
  unfold estimator_of in Hmin; cbv zeta in Hmin. rewrite Hmin.
  cbn [mbind result_bind]. unfold add_memory.
  replace (Args.memory a <? min_cap) with false
    by (symmetry; apply Z.ltb_ge; exact Hcap).
  cbn [mbind result_bind raise_if]. rewrite Hent. cbn [mbind result_bind].
  unfold initial_internals in Hnone. rewrite Hnone.
  cbn [mbind result_bind raise_if]. eauto.
Qed.

(** A successful construction has found the other arguments valid. *)
Lemma init_Ok_valid_arguments a m :
  init a = Ok m -> other_arguments_valid a.
Proof.
  intros Hm.
  pose proof (init_Ok_checks _ _ Hm)
    as (Haccepted & _ & Hkeys & Hrkeys & _ & _ & Hinit & Hnone).
  unfold init in Hm.
  bind_ok Hm as u1 Hprefix. bind_ok Hm as internals Hinternals.
  bind_ok Hm as u2 Hk. bind_ok Hm as unit Hunit.
  bind_ok Hm as update_unit Hvalid. bind_ok Hm as batch_size Hbatch.
  bind_ok Hm as update_batch_size Hbs. bind_ok Hm as fs Hfs.
  destruct fs as [update_frequency update_start].
  bind_ok Hm as ow How. destruct ow as [sbo loss_weight].
  bind_ok Hm as trainable Htrainable. bind_ok Hm as u3 Hrk.
  bind_ok Hm as horizon Hhorizon. bind_ok Hm as min_cap Hmin.
  bind_ok Hm as mem Hmem. bind_ok Hm as ent Hent. bind_ok Hm as u4 Hi.
  injection Hm as <-. cbn in Hinit, Hnone.
  unfold required in Hunit, Hbatch. unfold getitem in Hhorizon.
  destruct (Args.update a !! "unit") as [u|] eqn:Eu; [|discriminate].
  injection Hunit as ->.
  assert (unit = VStr update_unit /\ update_unit ∈ ["timesteps"; "episodes"])
    as [-> Hin].
  { destruct unit; try discriminate.
    destruct (bool_decide _) eqn:Ed; [|discriminate].
    apply bool_decide_eq_true in Ed. injection Hvalid as ->. auto. }
  destruct (Args.update a !! "batch_size") as [bsz|] eqn:Eb; [|discriminate].
  injection Hbatch as ->.
  destruct (Args.reward_estimation a !! "horizon") as [h|] eqn:Eh;
    [|discriminate].
  injection Hhorizon as ->.
  assert (sbo = resolved_baseline_optimizer a) as ->.
  { pose proof (init_baseline_optimizer_steps a) as Hsteps.
    destruct (documented_invalid_args a).
    - destruct Hsteps as [c Hc]. congruence.
    - destruct Hsteps as [w Hw]. congruence. }
  split; [exact Haccepted|]. split; [exact Hkeys|]. split.
  { exists update_unit, batch_size, update_batch_size.
    repeat (split; [assumption || reflexivity|]). split.
    - destruct (from_option _ false (Args.update a !! "frequency")) eqn:E.
      + left. destruct (Args.update a !! "frequency") as [f|];
          [|discriminate].
        destruct f; try discriminate. cbn in E.
        apply String.eqb_eq in E as ->. reflexivity.
      + right. bind_ok Hfs as f Hf. bind_ok Hfs as s0 Hs0. eauto.
    - exists horizon, min_cap. split; [exact Eh|].
      split; [exact Hmin|].
      unfold add_memory in Hmem. bind_ok Hmem as u5 Hcap.
      apply raise_if_Ok, Z.ltb_ge in Hcap. exact Hcap. }
  split; [exact Hrkeys|]. split; [eauto|].
  exact Hnone.
Qed.

(** C1 (amended): construction fails in a baseline assertion exactly for
    the three topologies marked invalid (a float weight without baseline
    objective, with or without baseline policy; an optimizer module with
    neither baseline objective nor baseline policy) and for a separate
    baseline policy without baseline objective and optimizer whose
    advantage estimate the reward_estimation switches off.  With the other
    arguments valid, construction raises the assertion error for these
    topologies and succeeds for every other one; it succeeds only with the
    other arguments valid.  A successful construction has resolved
    estimate_horizon to False exactly when policy, objective and optimizer
    are all absent ('late' otherwise) and estimate_advantage to True
    exactly for a baseline policy alone; it has computed the flag
    is_trainable as "policy or objective present, and no optimizer module"
    and created the baseline policy module with it, the baseline optimizer
    and objective modules with False: a baseline module is marked trainable
    exactly when a baseline policy is given without an optimizer module,
    and that module is the baseline policy. *)
Theorem construction_follows_topology_table (a : Args.t) :
  (forall c, init a = Error (AssertionError c) ->
     documented_invalid_args a || untrained_baseline a = true)
  /\ (documented_invalid_args a || untrained_baseline a = true ->
      is_Error (init a) = true)
  /\ (other_arguments_valid a ->
      if documented_invalid_args a || untrained_baseline a
      then exists c, init a = Error (AssertionError c)
      else exists m, init a = Ok m)
  /\ (forall m, init a = Ok m ->
        other_arguments_valid a
        /\ Estimator.estimate_horizon (estimator m)
          = default (table_estimate_horizon (has_policy a) (has_objective a)
                       (form a))
              (Args.reward_estimation a !! "estimate_horizon")
        /\ Estimator.estimate_advantage (estimator m)
          = default (table_estimate_advantage (has_policy a) (has_objective a)
                       (form a))
              (Args.reward_estimation a !! "estimate_advantage")
        /\ is_trainable m
          = table_is_trainable (has_policy a) (has_objective a) (form a)
        /\ marks_baseline_trainable m
          = match form a with
            | OptimizerModule => false
            | _ => has_policy a
            end
        /\ (forall name, (name, true) ∈ baseline_modules m ->
              name = "baseline")).
Proof.
  split; [intros c; apply init_assertion|]. split.
  { intros Hinvalid. destruct (init a) as [m|e] eqn:Hm; [|reflexivity].
    apply init_valid in Hm. congruence. }
  split; [apply init_with_valid_arguments|].
  intros m Hm. split; [eapply init_Ok_valid_arguments, Hm|].
  destruct (init_resolved _ _ Hm) as (Hhorizon & Hadvantage & Htrainable).
  split; [exact Hhorizon|]. split; [exact Hadvantage|].
  split; [exact Htrainable|].
  apply init_Ok in Hm as (bs & mc & _ & _ & _ & _ & _ & _ & _ & Hs & _).
  unfold marks_baseline_trainable, baseline_modules.
  rewrite Htrainable, Hs. fold (has_policy a). split.
  - rewrite !existsb_app.
    destruct (is_None (baseline_optimizer m)),
      (is_None (baseline_objective m)), (has_policy a), (form a);
      reflexivity.
  - intros name Hname.
    destruct (is_None (baseline_optimizer m)),
      (is_None (baseline_objective m)), (has_policy a);
      cbn in Hname;
      repeat (apply elem_of_cons in Hname as [Hname | Hname];
              [congruence|]);
      inversion Hname.
Qed.

End TopologySuccess.

(** C1 as stated fails.  A separate baseline policy alone is not one of
    the three invalid rows, yet with [estimate_advantage] set to False the
    constructor stops in the assertion of lines 176-177.  And with a
    baseline objective alone the table has the baseline trainable, yet no
    module is marked: there is no baseline policy module, and the baseline
    objective module is created with [is_trainable=False]. *)
Lemma construction_table_counterexample :
  ~ construction_as_tabled documented_invalid_args
      Sample.args_untrained_baseline
  /\ ~ construction_as_tabled documented_invalid_args
        Sample.args_objective_only.
Proof.
  split.
  - intros (Hassert & _).
    specialize (Hassert _ eq_refl). vm_compute in Hassert. discriminate.
  - intros (_ & _ & _ & Hresolved).
    destruct (Hresolved (Sample.model_of Sample.args_objective_only))
      as (_ & _ & Hmarks); [vm_compute; reflexivity|].
    vm_compute in Hmarks. discriminate.
Qed.

Section ConstructionProperties.
Context `{EstimatorHorizons}.

(** X1: a constructed model's internals are the policy's internals
    followed by the baseline's; no policy internal starts with baseline-,
    and the baseline's names are distinct and none of them is a policy
    internal. *)
Theorem constructed_internals_spec (a : Args.t) (m : TensorforceModel) :
  init a = Ok m ->
  internals_spec m
  = Policy.internals_spec (Args.policy a)
    ++ baseline_internals_of (Args.baseline_policy a)
  /\ Forall (fun internal => String.prefix "baseline-" internal = false)
       (Policy.internals_spec (Args.policy a))
  /\ NoDup (baseline_internals_of (Args.baseline_policy a))
  /\ (forall internal,
        internal ∈ baseline_internals_of (Args.baseline_policy a) ->
        internal ∉ Policy.internals_spec (Args.policy a)).
Proof.
  intros Hm. apply init_Ok_checks in Hm as ((Hp & Hn & Hd) & Hi & _).
  auto.
Qed.

(** X2: a policy internal whose name starts with baseline- makes the
    constructor raise the value error for model/internals, whatever else
    is configured; with the policy's names in order, a baseline internal
    that has the name of a policy internal makes it raise the collision
    error. *)
Theorem internals_rejected (a : Args.t) :
  ((exists internal,
       internal ∈ Policy.internals_spec (Args.policy a)
       /\ String.prefix "baseline-" internal = true) ->
   init a = Error (TensorforceError_value "model" "internals"))
  /\ (forall baseline internal,
        Forall (fun internal => String.prefix "baseline-" internal = false)
          (Policy.internals_spec (Args.policy a)) ->
        Args.baseline_policy a = Some baseline ->
        internal ∈ Policy.internals_spec baseline ->
        internal ∈ Policy.internals_spec (Args.policy a) ->
        init a = Error (TensorforceError_collision "model" "internals")).
Proof.
  split.
  - intros (i & Hi & Hprefix).
    assert (existsb (String.prefix "baseline-")
              (Policy.internals_spec (Args.policy a)) = true) as He.
    { destruct (existsb _ _) eqn:E; [reflexivity|].
      apply existsb_prefix_false in E.
      rewrite Forall_forall in E. rewrite (E i Hi) in Hprefix. discriminate. }
    unfold init; cbv zeta. rewrite He. reflexivity.
  - intros b i Hp Hb Hi Hin. apply existsb_prefix_false in Hp.
    destruct (add_baseline_internals (Policy.internals_spec b)
                (Policy.internals_spec (Args.policy a))) as [r|e] eqn:Ea.
    + apply add_baseline_internals_Ok in Ea as (_ & _ & Hnew).
      destruct (Hnew i Hi Hin).
    + pose proof (add_baseline_internals_Error _ _ _ Ea) as ->.
      unfold init; cbv zeta. rewrite Hp, Hb, Ea. reflexivity.
Qed.

(** X3: with internals that pass, the update dictionary is checked in
    this order: a key outside batch_size, frequency, start, unit raises
    the value error for update; then a missing unit is required; then a
    unit other than 'timesteps' and 'episodes' raises the value error for
    update[unit]; then a missing batch_size is required. *)
Theorem update_mode_rejected (a : Args.t) :
  internals_accepted a ->
  ((exists key, is_Some (Args.update a !! key) /\ key ∉ update_keys) ->
   init a = Error (TensorforceError_value "agent" "update"))
  /\ ((forall key, is_Some (Args.update a !! key) -> key ∈ update_keys) ->
      (Args.update a !! "unit" = None ->
       init a = Error (TensorforceError_required "agent" "update[unit]"))
      /\ (forall unit,
            Args.update a !! "unit" = Some unit ->
            unit <> VStr "timesteps" -> unit <> VStr "episodes" ->
            init a = Error (TensorforceError_value "agent" "update[unit]"))
      /\ (forall unit,
            Args.update a !! "unit" = Some unit ->
            unit = VStr "timesteps" \/ unit = VStr "episodes" ->
            Args.update a !! "batch_size" = None ->
            init a
            = Error (TensorforceError_required "agent" "update[batch_size]"))).
Proof.
  intros Haccepted. apply init_internals_steps in Haccepted as [Hp Hi].
  split.
  - intros (key & Hkey & Hout).
    assert (keys_in update_keys (Args.update a) = false) as Hk.
    { destruct (keys_in _ _) eqn:E; [|reflexivity].
      destruct Hout. eapply keys_in_spec; eassumption. }
    unfold init; cbv zeta. rewrite Hp, Hi, Hk. reflexivity.
  - intros Hkeys. apply keys_in_spec in Hkeys.
    split; [|split].
    + intros Hu. unfold init, required; cbv zeta.
      rewrite Hp, Hi, Hkeys, Hu. reflexivity.
    + intros unit Hu Ht He. unfold init, required; cbv zeta.
      rewrite Hp, Hi, Hkeys, Hu. cbn [mbind result_bind raise_if negb].
      destruct unit as [| | | |s| |]; try reflexivity.
      destruct (bool_decide (s ∈ ["timesteps"; "episodes"])) eqn:Ed;
        [|reflexivity].
      apply bool_decide_eq_true in Ed.
      repeat (apply elem_of_cons in Ed as [-> | Ed]; [congruence|]).
      inversion Ed.
    + intros unit Hu Hunit Hb. unfold init, required; cbv zeta.
      rewrite Hp, Hi, Hkeys, Hu, Hb.
      destruct Hunit as [-> | ->]; reflexivity.
Qed.

(** X4: a constructed model was configured with known keys only: every
    key of update is one of batch_size, frequency, start, unit, with unit
    and batch_size present and the unit 'timesteps' or 'episodes'; every
    key of reward_estimation is one of its six keys, with horizon
    present. *)
Theorem constructed_configuration_keys (a : Args.t) (m : TensorforceModel) :
  init a = Ok m ->
  (forall key, is_Some (Args.update a !! key) -> key ∈ update_keys)
  /\ Args.update a !! "unit" = Some (VStr (update_unit m))
  /\ (update_unit m = "timesteps" \/ update_unit m = "episodes")
  /\ is_Some (Args.update a !! "batch_size")
  /\ (forall key,
        is_Some (Args.reward_estimation a !! key) ->
        key ∈ reward_estimation_keys)
  /\ Args.reward_estimation a !! "horizon"
     = Some (Estimator.horizon (estimator m)).
Proof.
  intros Hm.
  pose proof (init_Ok_checks _ _ Hm) as (_ & _ & Hk & Hr & _).
  pose proof (init_Ok _ _ Hm) as (bs & mc & Hu & Hin & Hb & _).
  split; [apply keys_in_spec, Hk|]. split; [exact Hu|].
  split.
  { repeat (apply elem_of_cons in Hin as [Hin | Hin]; [auto|]).
    inversion Hin. }
  split; [rewrite Hb; eauto|]. split; [apply keys_in_spec, Hr|].
  unfold init in Hm; cbv zeta in Hm.
  bind_ok Hm as u1 Hprefix. bind_ok Hm as internals Hinternals.
  bind_ok Hm as u2 Hkeys. bind_ok Hm as unit Hunit.
  bind_ok Hm as update_unit Hvalid. bind_ok Hm as batch_size Hbatch.
  bind_ok Hm as update_batch_size Hbs. bind_ok Hm as fs Hfs.
  destruct fs as [update_frequency update_start].
  bind_ok Hm as ow How. destruct ow as [sbo weight].
  bind_ok Hm as trainable Htrainable. bind_ok Hm as u3 Hrkeys.
  bind_ok Hm as horizon Hhorizon. bind_ok Hm as min_cap Hmin.
  bind_ok Hm as mem Hmem. bind_ok Hm as ent Hent. bind_ok Hm as u4 Hinit.
  injection Hm as <-; cbn.
  unfold getitem in Hhorizon.
  destruct (Args.reward_estimation a !! "horizon"); congruence.
Qed.

End ConstructionProperties.

Section ConstructedModel.
Context `{EstimatorHorizons}.

(** X5: the schedule of a constructed model.  There is no frequency
    module exactly when update['frequency'] is 'never', and a start module
    exactly when there is a frequency module; the batch size is at least
    1; the start module is made from update['start'], 0 when the entry is
    missing, and is at least 0. *)
Theorem constructed_schedule (a : Args.t) (m : TensorforceModel) :
  init a = Ok m ->
  (update_frequency m = None
   <-> Args.update a !! "frequency" = Some (VStr "never"))
  /\ (update_start m = None <-> update_frequency m = None)
  /\ 1 <= min_value (update_batch_size m)
  /\ (forall start,
        update_start m = Some start ->
        parameter_of "update_start"
          (default (VInt 0) (Args.update a !! "start")) = Ok start
        /\ 0 <= min_value start).
Proof.
  intros Hm.
  apply init_Ok in Hm as (bs & mc & _ & _ & _ & Hbs & Hfs & _).
  apply add_parameter_Ok in Hbs as (_ & Hlow & _).
  assert (from_option (fun f => eq_str f "never") false
            (Args.update a !! "frequency") = true
          <-> Args.update a !! "frequency" = Some (VStr "never")) as Hnever.
  { destruct (Args.update a !! "frequency") as [f|]; cbn.
    - split.
      + destruct f; cbn; try discriminate.
        intros ->%String.eqb_eq. reflexivity.
      + intros [= ->]. reflexivity.
    - split; discriminate. }
  destruct (from_option _ false (Args.update a !! "frequency")).
  - destruct Hfs as [-> ->].
    split; [split; [intros _; apply Hnever; reflexivity | reflexivity]|].
    split; [tauto|]. split; [apply Hlow; reflexivity|]. discriminate.
  - destruct Hfs as (f & s & -> & -> & _ & Hs).
    split.
    { split; [discriminate|]. intros Hn. apply Hnever in Hn. discriminate. }
    split; [split; discriminate|]. split; [apply Hlow; reflexivity|].
    intros start [= <-]. apply add_parameter_Ok in Hs as (Hp & Hs & _).
    split; [exact Hp | apply Hs; reflexivity].
Qed.

(** X7: on a constructed model [total_loss] never stops in its
    assertion on the baseline loss weight.  Exactly when a baseline
    objective is given without an optimizer module of the baseline's own,
    the baseline loss is part of the total loss, and it is computed on
    [self.baseline]: with a baseline policy the total loss is the mean
    objective loss of the policy, the regularization loss and the baseline
    loss under the baseline objective times the given weight (or 1.0);
    without a baseline policy [total_loss] raises the AttributeError of the
    missing attribute.  In every other case the total loss is the first two
    summands.  The KL divergence of the baseline is added exactly when the
    baseline loss is a summand. *)
Theorem constructed_total_loss (a : Args.t) (m : TensorforceModel) :
  init a = Ok m ->
  total_loss m
  = match joint_baseline_loss a with
    | Some weight =>
        if has_policy a
        then Ok [plain (mean_loss_per_instance self_objective self_policy);
                 plain self_regularize;
                 times weight
                   [mean_loss_per_instance self_baseline_objective
                      self_baseline;
                    baseline_regularize]]
        else Error (AttributeError "baseline")
    | None =>
        Ok [plain (mean_loss_per_instance self_objective self_policy);
            plain self_regularize]
    end
  /\ fn_kl_divergence m
     = self_policy
       :: (if has_policy a && bool_decide (is_Some (joint_baseline_loss a))
           then [self_baseline] else []).
Proof.
  intros Hm.
  apply init_Ok in Hm
    as (bs & mc & _ & _ & _ & _ & _ & Hb & _ & Hs & _ & Ho & _).
  unfold total_loss, fn_kl_divergence, baseline_loss, getattr_baseline,
    joint_baseline_loss, form, optimizer_form_of, has_objective, has_policy.
  rewrite Hs, Ho. unfold init_baseline_optimizer in Hb.
  destruct (is_None (Args.baseline_optimizer a)) eqn:En.
  - destruct (is_None (Args.baseline_objective a)) eqn:Eo;
      injection Hb as <- <-; cbn; rewrite ?andb_false_r, ?andb_true_r;
      destruct (bool_decide (is_Some (Args.baseline_policy a)));
      split; reflexivity.
  - destruct (is_float (Args.baseline_optimizer a)) eqn:Ef;
      bind_ok Hb as u Hu; apply assert_Ok in Hu; injection Hb as <- <-.
    + apply negb_true_iff in Hu. rewrite Hu.
      destruct (Args.baseline_optimizer a); try discriminate. cbn.
      destruct (bool_decide (is_Some (Args.baseline_policy a)));
        split; reflexivity.
    + rewrite En. cbn. rewrite andb_false_r. split; reflexivity.
Qed.

(** X8: a baseline that the constructor marks trainable takes part in
    the training of the policy: a baseline objective is given, or the
    estimator is created with a true [estimate_advantage]. *)
Theorem trainable_baseline_is_trained (a : Args.t) (m : TensorforceModel) :
  init a = Ok m ->
  is_trainable m = true ->
  is_None (baseline_objective m) = false
  \/ truthy (Estimator.estimate_advantage (estimator m)) = true.
Proof.
  intros Hm Ht.
  apply init_Ok in Hm
    as (bs & mc & _ & _ & _ & _ & _ & Hb & Htr & Hs & _ & Ho & _ & Hea & _).
  rewrite Ho, Hea, Hs. unfold init_is_trainable in Htr.
  destruct (is_None (Args.baseline_objective a)) eqn:Eo; [right | left; auto].
  rewrite Ht in Htr. cbn in Htr.
  destruct (bool_decide (is_Some (Args.baseline_policy a))) eqn:Ep;
    [|discriminate].
  destruct (is_None (baseline_optimizer m)) eqn:Eb; [|discriminate].
  cbn in Htr. bind_ok Htr as u Hu. apply assert_Ok in Hu.
  unfold default_estimate_advantage. rewrite Ho, Eo, Eb. cbn.
  destruct (Args.reward_estimation a !! "estimate_advantage");
    [exact Hu | reflexivity].
Qed.

(** X9: a constructed model has an initial value for every internal
    that its policies declare one for: the initial values are those of the
    policy and of the baseline, the baseline's where both have the name,
    and none of them is None. *)
Theorem constructed_initial_internals (a : Args.t) (m : TensorforceModel) :
  init a = Ok m ->
  (forall name,
      internals_init m !! name
      = match Args.baseline_policy a with
        | Some baseline =>
            match Policy.internals_init baseline !! name with
            | Some value => Some value
            | None => Policy.internals_init (Args.policy a) !! name
            end
        | None => Policy.internals_init (Args.policy a) !! name
        end)
  /\ (forall name, internals_init m !! name <> Some VNone).
Proof.
  intros Hm.
  apply init_Ok_checks in Hm as (_ & _ & _ & _ & _ & _ & Hi & Hnone).
  split.
  - intros name. rewrite Hi.
    destruct (Args.baseline_policy a) as [b|]; [|reflexivity].
    rewrite lookup_union.
    destruct (Policy.internals_init b !! name),
      (Policy.internals_init (Args.policy a) !! name); reflexivity.
  - intros name Hname.
    assert (existsb is_None (map_to_list (internals_init m)).*2 = true)
      as Htrue; [|congruence].
    apply existsb_exists. exists VNone. split; [|reflexivity].
    apply list_elem_of_In, list_elem_of_fmap. exists (name, VNone).
    split; [reflexivity|]. apply elem_of_map_to_list, Hname.
Qed.

End ConstructedModel.

Lemma keys_in_insert (allowed : list string) (key : string) (value : pyval)
    (d : gmap string pyval) :
  key ∈ allowed ->
  keys_in allowed (<[key := value]> d) = keys_in allowed d.
Proof.
  intros Hkey. apply Bool.eq_iff_eq_true. rewrite !keys_in_spec.
  split; intros Hall k Hk.
  - apply Hall, lookup_insert_is_Some'. auto.
  - apply lookup_insert_is_Some' in Hk as [<- | Hk]; auto.
Qed.

Section NeverStart.
Context `{EstimatorHorizons}.

(** X6: with update['frequency'] set to 'never' the constructor does not
    look at update['start']: whatever value the entry is given, valid for
    a start parameter or not, the outcome of the construction is the
    same. *)
Theorem never_ignores_start (a : Args.t) (value : pyval) :
  Args.update a !! "frequency" = Some (VStr "never") ->
  init (with_update a (<["start" := value]> (Args.update a))) = init a.
Proof.
  intros Hnever.
  unfold init, required, init_baseline_optimizer, init_is_trainable,
    init_min_capacity; cbv zeta.
  cbn [with_update Args.update Args.policy Args.baseline_policy
       Args.reward_estimation Args.memory Args.entropy_regularization
       Args.states Args.actions Args.optimizer Args.objective
       Args.baseline_objective Args.baseline_optimizer Args.buffer_observe
       Args.max_episode_timesteps].
  rewrite keys_in_insert
    by (unfold update_keys; repeat (first [left | right])).
  rewrite (lookup_insert_ne (Args.update a) "start" "unit"),
    (lookup_insert_ne (Args.update a) "start" "batch_size"),
    (lookup_insert_ne (Args.update a) "start" "frequency") by discriminate.
  rewrite Hnever.
  change (from_option (fun frequency => eq_str frequency "never") false
            (Some (VStr "never"))) with true.
  reflexivity.
Qed.

End NeverStart.

(** ** The schedule over runs *)

Lemma long_wrap_range `{Util} (z : Z) :
  - long_max <= long_wrap z < long_max.
Proof.
  pose proof long_max_positive. unfold long_wrap.
  pose proof (Z.mod_pos_bound (z + long_max) (2 * long_max)). lia.
Qed.

Lemma long_wrap_add `{Util} (x y : Z) :
  long_wrap (long_wrap x + y) = long_wrap (x + y).
Proof.
  pose proof long_max_positive. unfold long_wrap. f_equal.
  replace ((x + long_max) mod (2 * long_max) - long_max + y + long_max)
    with ((x + long_max) mod (2 * long_max) + y) by lia.
  rewrite Zplus_mod_idemp_l. f_equal. lia.
Qed.

Lemma optimizer_steps_app {Cell} (t1 t2 : list (@event Cell)) :
  optimizer_steps (t1 ++ t2) = optimizer_steps t1 + optimizer_steps t2.
Proof.
  unfold optimizer_steps. rewrite List.filter_app, length_app. lia.
Qed.

Lemma optimizer_steps_snoc {Cell} (tr : list (@event Cell)) (e : event) :
  optimizer_steps (tr ++ [e])
  = optimizer_steps tr + (if is_minimize e then 1 else 0).
Proof.
  rewrite optimizer_steps_app. f_equal.
  unfold optimizer_steps. cbn. destruct (is_minimize e); reflexivity.
Qed.

Lemma optimizer_steps_enqueue {Cell} (vs : list (@values Cell)) :
  optimizer_steps (memory_enqueue <$> vs) = 0.
Proof. induction vs as [|v vs IH]; [reflexivity | exact IH]. Qed.

Lemma optimizer_steps_nonneg {Cell} (tr : list (@event Cell)) :
  0 <= optimizer_steps tr.
Proof. unfold optimizer_steps. lia. Qed.

Section ScheduleRuns.
Context `{Util} {Cell : Type} {EM : @EstimatorModule Cell}.

Lemma trace_call (e : event) (s : State) :
  trace (call e s) = trace s ++ [e].
Proof. reflexivity. Qed.

(** The two ways through [core_observe]. *)
Lemma core_observe_cases m env b s s' :
  core_observe m env b s = Ok s' ->
  exists s0,
    core_experience m b s = Ok s0
    /\ (s' = s0
        \/ exists unit,
            is_frequency m env s0 = Ok (unit, true)
            /\ perform_update m env unit s0 = Ok s').
Proof.
  unfold core_observe. intros Ho. bind_ok Ho as s0 Hexp.
  exists s0. split; [exact Hexp|].
  destruct (update_frequency m).
  - bind_ok Ho as uf Hcheck. destruct uf as [unit [|]].
    + right. eauto.
    + injection Ho as <-. auto.
  - injection Ho as <-. auto.
Qed.

Lemma core_experience_trace_one m b s s' :
  core_experience m b s = Ok s' ->
  exists vs, trace s' = trace s ++ (memory_enqueue <$> vs)
             /\ (length vs <= 1)%nat.
Proof.
  unfold core_experience.
  destruct (enqueue _ _ _) as [st [any ov]].
  intros He. bind_ok He as lt Hlt. bind_ok He as sv Hsv.
  destruct sv as [s1 v]. bind_ok He as n Hn.
  assert (trace s1 = trace s) as Htrace.
  { destruct (0 <? lt).
    - cbn in Hsv. destruct (reset _ _) as [st2 rv].
      bind_ok Hsv as nv Hnv. injection Hsv as <- <-. reflexivity.
    - injection Hsv as <- <-. reflexivity. }
  destruct (0 <? n); injection He as <-; cbn; rewrite Htrace.
  - exists [v]. split; [reflexivity | cbn; lia].
  - exists []. cbn. rewrite app_nil_r. split; [reflexivity | lia].
Qed.

Lemma optimize_steps m env s s' :
  optimize m env s = Ok s' ->
  optimizer_steps (trace s') = optimizer_steps (trace s) + 1.
Proof.
  unfold optimize. intros Ho.
  bind_ok Ho as s1 Hs1. bind_ok Ho as u Hu. bind_ok Ho as x Hx.
  injection Ho as <-.
  assert (optimizer_steps (trace s1) = optimizer_steps (trace s)) as <-.
  { destruct (negb _); [apply optimize_baseline_Ok in Hs1 as [_ ->]|
                        injection Hs1 as <-; reflexivity].
    rewrite !trace_call, !optimizer_steps_snoc. cbn [is_minimize]. lia. }
  rewrite !trace_call, !optimizer_steps_snoc. cbn [is_minimize]. lia.
Qed.

Lemma core_update_steps m env s s' :
  core_update m env s = Ok s' ->
  optimizer_steps (trace s') = optimizer_steps (trace s) + 1.
Proof.
  unfold core_update. intros Hu.
  bind_ok Hu as s1 Hs1. bind_ok Hu as s2 Hs2. injection Hu as <-.
  apply optimize_steps in Hs2.
  change (trace (assign_add_update 1 s2)) with (trace s2). rewrite Hs2.
  destruct (String.eqb _ "timesteps");
    [|destruct (String.eqb _ "episodes"); [|discriminate]];
    injection Hs1 as <-; rewrite trace_call, optimizer_steps_snoc;
    cbn [is_minimize]; lia.
Qed.

(** One call before the start of the schedule is the experience step. *)
Lemma core_observe_before_start m env b s s' :
  update_unit m = "timesteps" \/ update_unit m = "episodes" ->
  small_env env -> long_small (timestep s) -> long_small (episode s) ->
  (if String.eqb (update_unit m) "timesteps" then timestep s else episode s)
  < schedule_start m env ->
  -1 <= last_update s ->
  core_observe m env b s = Ok s' ->
  core_experience m b s = Ok s'.
Proof.
  intros Hunit Henv Ht He Hbefore Hlast Ho.
  apply core_observe_cases in Ho as (s0 & Hexp & [-> | (unit & Hf & _)]);
    [exact Hexp|].
  destruct (core_experience_variables _ _ _ _ Hexp)
    as (Hl & _ & Hts & Hes & _).
  unfold is_frequency in Hf.
  rewrite scheduler_unit_exact in Hf
    by (try rewrite Hts; try rewrite Hes; assumption).
  cbn in Hf. bind_ok Hf as r Hr. injection Hf as <- Hfire.
  apply andb_true_iff in Hfire as [_ Hlt]. apply Z.ltb_lt in Hlt.
  unfold schedule_unit in Hlt. rewrite Hts, Hes, Hl in Hlt. lia.
Qed.

(** X10: from a state whose last_update is at least its initial -1, as
    long as the counter of the schedule (the timestep or the episode)
    stays below the clamped start, no update is performed: over the whole
    run the update counter and last_update keep their values and the only
    calls made are memory.enqueue. *)
Theorem no_update_before_start (m : TensorforceModel)
    (calls : list Observation) (s s' : State) :
  update_unit m = "timesteps" \/ update_unit m = "episodes" ->
  -1 <= last_update s ->
  Forall (before_start m) calls ->
  run_observe m calls s = Ok s' ->
  update s' = update s /\ last_update s' = last_update s
  /\ exists vs, trace s' = trace s ++ (memory_enqueue <$> vs).
Proof.
  intros Hunit. revert s.
  induction calls as [|o calls IH]; intros s Hlast Hcalls Hrun; cbn in Hrun.
  - injection Hrun as <-. repeat split; auto.
    exists []. cbn. rewrite app_nil_r. reflexivity.
  - apply Forall_cons in Hcalls as [(Henv & Ht & He & Hbefore) Hcalls].
    bind_ok Hrun as s1 Hobs.
    apply core_observe_before_start in Hobs; try assumption.
    destruct (core_experience_variables _ _ _ _ Hobs) as (Hl & Hu & _).
    destruct (core_experience_trace _ _ _ _ Hobs) as (vs1 & Ht1).
    cbn in Hl, Hu, Ht1.
    destruct (IH s1) as (Hu' & Hl' & vs & Hvs); try assumption; [lia|].
    repeat split; [congruence | congruence |].
    exists (vs1 ++ vs). rewrite Hvs, Ht1, fmap_app, app_assoc. reflexivity.
Qed.

Lemma is_frequency_on_schedule m env s unit :
  1 <= frequency_value env ->
  on_schedule (frequency_value env) (last_update s) ->
  is_frequency m env s = Ok (unit, true) ->
  on_schedule (frequency_value env) unit
  /\ (last_update s + frequency_value env <= unit \/ last_update s = -1).
Proof.
  intros Hf Hon Hcheck. unfold is_frequency in Hcheck.
  bind_ok Hcheck as unit' Hunit. bind_ok Hcheck as r Hr.
  injection Hcheck as -> Hfire.
  apply andb_true_iff in Hfire as [Hzero Hlt].
  apply Z.eqb_eq in Hzero. apply Z.ltb_lt in Hlt.
  unfold long_mod in Hr.
  destruct (frequency_value env =? 0); [discriminate|].
  injection Hr as <-.
  destruct Hon as [Hinit | [Hpos Hmul]].
  - split; [right; split; [lia | exact Hzero] | auto].
  - split; [right; split; [lia | exact Hzero]|]. left.
    apply Z.mod_divide in Hzero, Hmul; try lia.
    destruct Hzero as [q1 Hq1], Hmul as [q2 Hq2].
    rewrite Hq1, Hq2 in *.
    assert (q2 < q1) by nia. nia.
Qed.

(** X11: under a fixed frequency every value of last_update is the
    initial -1 or a non-negative multiple of the frequency, so that over
    any run last_update stays, or moves on by at least a whole frequency
    window (from -1: to a multiple of the frequency). *)
Theorem scheduled_updates_a_window_apart (m : TensorforceModel)
    (frequency : Z) (calls : list Observation) (s s' : State) :
  1 <= frequency ->
  Forall (fun o => frequency_value (obs_env o) = frequency) calls ->
  on_schedule frequency (last_update s) ->
  run_observe m calls s = Ok s' ->
  on_schedule frequency (last_update s')
  /\ (last_update s' = last_update s
      \/ last_update s + frequency <= last_update s'
      \/ last_update s = -1).
Proof.
  intros Hf. revert s.
  induction calls as [|o calls IH]; intros s Hcalls Hon Hrun; cbn in Hrun.
  - injection Hrun as <-. auto.
  - apply Forall_cons in Hcalls as [Ho Hcalls].
    bind_ok Hrun as s1 Hobs.
    apply core_observe_cases in Hobs as (s0 & Hexp & Hcase).
    destruct (core_experience_variables _ _ _ _ Hexp) as (Hl & _).
    cbn in Hl.
    assert (on_schedule frequency (last_update s1)
            /\ (last_update s1 = last_update s
                \/ last_update s + frequency <= last_update s1
                \/ last_update s = -1)) as [Hon1 Hstep].
    { destruct Hcase as [-> | (unit & Hcheck & Hup)].
      - rewrite Hl. auto.
      - apply perform_update_variables in Hup as (-> & _).
        rewrite <- Ho in *. rewrite <- Hl in *.
        destruct (is_frequency_on_schedule _ _ _ _ Hf Hon Hcheck)
          as [Hon' Hfar].
        split; [exact Hon'|]. destruct Hfar; auto. }
    destruct (IH s1 Hcalls Hon1 Hrun) as (Hon' & Hrest).
    split; [exact Hon'|].
    destruct Hon as [Hinit | [Hpos _]]; [auto|].
    destruct Hon1 as [Hinit1 | [Hpos1 _]]; lia.
Qed.

End ScheduleRuns.

(** ** Updates on request, and the update counter *)

Section Updates.
Context `{Util} {Cell : Type} {EM : @EstimatorModule Cell}.

(** X12: an update on request ([api_update]) counts as an update and
    runs the main optimizer once, but it leaves last_update and the
    counters alone: the check of the schedule comes out the same after it
    as before it, so the next scheduled update is neither used up nor
    moved. *)
Theorem api_update_keeps_schedule (m : TensorforceModel) (env env' : Env)
    (s s' : State) :
  api_update m env s = Ok s' ->
  update s' = long_add (update s) 1
  /\ last_update s' = last_update s
  /\ is_frequency m env' s' = is_frequency m env' s
  /\ optimizer_steps (trace s') = optimizer_steps (trace s) + 1.
Proof.
  unfold api_update. intros Hu.
  pose proof (core_update_steps _ _ _ _ Hu) as Hsteps.
  apply core_update_variables in Hu as (Hl & Hup & Ht & He & _).
  repeat split; try assumption.
  unfold is_frequency, scheduler_unit. rewrite Hl, Ht, He. reflexivity.
Qed.

Lemma core_observe_steps m env b s s' :
  core_observe m env b s = Ok s' ->
  (update s' = update s
   /\ optimizer_steps (trace s') = optimizer_steps (trace s))
  \/ (update s' = long_add (update s) 1
      /\ optimizer_steps (trace s') = optimizer_steps (trace s) + 1).
Proof.
  intros Ho. apply core_observe_cases in Ho as (s0 & Hexp & Hcase).
  destruct (core_experience_variables _ _ _ _ Hexp) as (_ & Hu & _).
  destruct (core_experience_trace _ _ _ _ Hexp) as (vs & Hvs).
  assert (optimizer_steps (trace s0) = optimizer_steps (trace s)) as Hsteps.
  { rewrite Hvs, optimizer_steps_app, optimizer_steps_enqueue. lia. }
  destruct Hcase as [-> | (unit & _ & Hup)]; [auto|].
  right. unfold perform_update in Hup.
  pose proof (core_update_steps _ _ _ _ Hup) as Hstep.
  apply core_update_variables in Hup as (_ & Hup & _).
  cbn in Hup, Hstep. rewrite Hup, Hstep, Hu, Hsteps. auto.
Qed.

(** X13: the update counter counts the steps of the main optimizer: over
    any run of [core_observe] calls it moves, within the range of 'long',
    by the number of optimizer steps the run has made. *)
Theorem update_counts_optimizer_steps (m : TensorforceModel)
    (calls : list Observation) (s s' : State) :
  - long_max <= update s < long_max ->
  run_observe m calls s = Ok s' ->
  optimizer_steps (trace s) <= optimizer_steps (trace s')
  /\ update s'
     = long_wrap (update s
                  + (optimizer_steps (trace s') - optimizer_steps (trace s))).
Proof.
  revert s. induction calls as [|o calls IH]; intros s Hrange Hrun;
    cbn in Hrun.
  - injection Hrun as <-. split; [lia|].
    rewrite Z.sub_diag, Z.add_0_r, long_wrap_small; [reflexivity | lia].
  - bind_ok Hrun as s1 Hobs. apply core_observe_steps in Hobs.
    cbn in Hobs.
    assert (update s1
            = long_wrap (update s + (optimizer_steps (trace s1)
                                     - optimizer_steps (trace s)))
            /\ optimizer_steps (trace s) <= optimizer_steps (trace s1))
      as [Hu1 Hle1].
    { destruct Hobs as [[-> ->] | [-> ->]].
      - rewrite Z.sub_diag, Z.add_0_r, long_wrap_small; [split|]; lia.
      - unfold long_add. split; [f_equal|]; lia. }
    destruct (IH s1) as [Hle Hu]; [|exact Hrun|].
    { rewrite Hu1. apply long_wrap_range. }
    split; [lia|]. rewrite Hu, Hu1, long_wrap_add. f_equal. lia.
Qed.

End Updates.

(** ** What [api_experience] lets through, and what it does *)

Lemma tf_assert_Ok (c : bool) (message : string) (u : unit) :
  tf_assert c message = Ok u <-> c = true.
Proof. destruct c, u; cbn; split; congruence. Qed.

Lemma od_get_Some_elem {V} (d : list (string * V)) (name : string) (v : V) :
  od_get d name = Some v -> name ∈ d.*1.
Proof.
  induction d as [|[k x] d IH]; cbn; [discriminate|].
  destruct (String.eqb k name) eqn:E.
  - apply String.eqb_eq in E as ->. intros _. left.
  - intros Hd. right. auto.
Qed.

Lemma od_get_elem {V} (d : list (string * V)) (name : string) (v : V) :
  od_get d name = Some v -> (name, v) ∈ d.
Proof.
  induction d as [|[k x] d IH]; cbn; [discriminate|].
  destruct (String.eqb k name) eqn:E.
  - apply String.eqb_eq in E as ->. intros [= ->]. left.
  - intros Hd. right. auto.
Qed.

Section ExperienceInput.
Context `{Util} {Cell : Type} {EM : @EstimatorModule Cell}.

Lemma assert_batch_axis_Ok {R} (what : string) (b : @Batch Cell)
    (names : list string) (d : list (string * list R)) (u : unit) :
  assert_batch_axis what b names d = Ok u ->
  forall name, name ∈ names ->
    exists x, od_get d name = Some x /\ length x = length (terminal b).
Proof.
  induction names as [|n names IH]; cbn; intros Ha name Hname.
  - inversion Hname.
  - bind_ok Ha as x Hx. bind_ok Ha as u1 Hlen.
    apply od_getitem_Ok in Hx. apply tf_assert_Ok, Nat.eqb_eq in Hlen.
    apply elem_of_cons in Hname as [-> | Hname]; eauto.
Qed.

Lemma assert_action_masks_Ok (b : @Batch Cell)
    (actions_spec : list (string * string)) (u : unit) :
  assert_action_masks b actions_spec = Ok u ->
  forall name, (name, "int") ∈ actions_spec ->
    exists x, od_get (auxiliaries b) (name +:+ "_mask") = Some x
              /\ length x = length (terminal b)
              /\ some_action_valid x.
Proof.
  induction actions_spec as [|[n type] spec IH]; cbn; intros Ha name Hname.
  - inversion Hname.
  - bind_ok Ha as u1 Hmask.
    apply elem_of_cons in Hname as [[= -> <-] | Hname]; [|eauto].
    cbn in Hmask. bind_ok Hmask as x Hx. bind_ok Hmask as u2 Hlen.
    apply od_getitem_Ok in Hx. apply tf_assert_Ok, Nat.eqb_eq in Hlen.
    apply tf_assert_Ok in Hmask.
    exists x. split; [exact Hx|]. split; [exact Hlen|].
    unfold some_action_valid.
    apply Forall_forall. intros row Hrow.
    apply Forall_forall. intros flags Hflags.
    rewrite forallb_forall in Hmask.
    specialize (Hmask row (proj1 (list_elem_of_In _ _) Hrow)).
    rewrite forallb_forall in Hmask.
    specialize (Hmask flags (proj1 (list_elem_of_In _ _) Hflags)).
    apply existsb_exists in Hmask as (flag & Hin & Hflag).
    unfold id in Hflag. subst flag. apply list_elem_of_In, Hin.
Qed.

(** X14: a batch that [api_experience] lets through is rectangular and
    can act: reward has the length of terminal; every state and internal
    of the specification and every action is there with as many rows as
    terminal; every action of type 'int' comes with its mask, of as many
    rows, in which every row leaves an action valid at every position. *)
Theorem api_experience_accepts_rectangular (m : TensorforceModel)
    (b : Batch) (s s' : State) :
  api_experience m b s = Ok s' ->
  length (reward b) = length (terminal b)
  /\ (forall name, name ∈ states_spec m ->
        exists x, od_get (states b) name = Some x
                  /\ length x = length (terminal b))
  /\ (forall name, name ∈ internals_spec m ->
        exists x, od_get (internals b) name = Some x
                  /\ length x = length (terminal b))
  /\ (forall name type, (name, type) ∈ actions_spec m ->
        exists x, od_get (actions b) name = Some x
                  /\ length x = length (terminal b))
  /\ (forall name, (name, "int") ∈ actions_spec m ->
        exists x, od_get (auxiliaries b) (name +:+ "_mask") = Some x
                  /\ length x = length (terminal b)
                  /\ some_action_valid x).
Proof.
  unfold api_experience. intros Ha.
  bind_ok Ha as u1 Hreward. bind_ok Ha as u2 Hindex.
  bind_ok Ha as u3 Hone. bind_ok Ha as u4 Hlast.
  bind_ok Ha as u5 Hstates. bind_ok Ha as u6 Hinternals.
  bind_ok Ha as u7 Hmasks. bind_ok Ha as u8 Hactions.
  apply tf_assert_Ok, Nat.eqb_eq in Hreward.
  split; [auto|].
  split; [eapply assert_batch_axis_Ok, Hstates|].
  split; [eapply assert_batch_axis_Ok, Hinternals|].
  split; [|eapply assert_action_masks_Ok, Hmasks].
  intros name type Hname.
  eapply assert_batch_axis_Ok; [exact Hactions|].
  apply list_elem_of_fmap. exists (name, type). auto.
Qed.

(** X15: [api_experience] only records: when it goes through it has done
    what [core_experience] does, the update counter, last_update and the
    counters keep their values, at most one call is made, of
    memory.enqueue, and no optimizer is run. *)
Theorem api_experience_only_records (m : TensorforceModel) (b : Batch)
    (s s' : State) :
  api_experience m b s = Ok s' ->
  core_experience m b s = Ok s'
  /\ update s' = update s /\ last_update s' = last_update s
  /\ same_counters s s'
  /\ (exists vs, trace s' = trace s ++ (memory_enqueue <$> vs)
                 /\ (length vs <= 1)%nat)
  /\ optimizer_steps (trace s') = optimizer_steps (trace s).
Proof.
  unfold api_experience. intros Ha.
  bind_ok Ha as u1 Hreward. bind_ok Ha as u2 Hindex.
  bind_ok Ha as u3 Hone. bind_ok Ha as u4 Hlast.
  bind_ok Ha as u5 Hstates. bind_ok Ha as u6 Hinternals.
  bind_ok Ha as u7 Hmasks. bind_ok Ha as u8 Hactions.
  destruct (core_experience_variables _ _ _ _ Ha) as (Hl & Hu & Hc).
  destruct (core_experience_trace_one _ _ _ _ Ha) as (vs & Hvs & Hlen).
  repeat split; try assumption; try apply Hc.
  - exists vs. auto.
  - rewrite Hvs, optimizer_steps_app, optimizer_steps_enqueue. lia.
Qed.

(** X17: an empty batch is rejected: [core_experience], and with it
    [api_experience] and [core_observe], fails on the last element of
    terminal, whatever the estimator hands back. *)
Theorem empty_batch_rejected (m : TensorforceModel) (env : Env) (b : Batch)
    (s : State) :
  terminal b = [] ->
  (exists message,
      core_experience m b s = Error (InvalidArgumentError message))
  /\ (exists message,
        core_observe m env b s = Error (InvalidArgumentError message))
  /\ (exists message,
        api_experience m b s = Error (InvalidArgumentError message)).
Proof.
  intros Hempty.
  assert (exists message,
             core_experience m b s = Error (InvalidArgumentError message))
    as [message Hcore].
  { unfold core_experience. destruct (enqueue _ _ _) as [st [any ov]].
    rewrite Hempty. cbn. eauto. }
  split; [eauto|]. split.
  - unfold core_observe. rewrite Hcore. cbn. eauto.
  - destruct (api_experience_assertions m b s)
      as [Herror | (_ & _ & x & Hlast & _)]; [exact Herror|].
    rewrite Hempty in Hlast. discriminate.
Qed.

End ExperienceInput.

(** ** Committing with nothing staged *)

Section CommitMore.
Context `{Util} {Cell : Type}.

Lemma concat_nested_empty (d1 d2 : list (string * list Cell)) :
  (forall i c2, od_get d2 i = Some c2 -> c2 = []) ->
  forallb (fun kv => bool_decide (is_Some (od_get d2 kv.1))) d1 = true ->
  concat_nested d1 d2 = Ok d1.
Proof.
  intros Hempty. induction d1 as [|[k c1] d1 IH]; intros Hall.
  - reflexivity.
  - cbn in Hall. apply andb_true_iff in Hall as [Hk Hall].
    apply bool_decide_eq_true in Hk as [c2 Hc2].
    apply concat_nested_cons. exists c2, d1.
    split; [exact Hc2|]. split; [apply IH, Hall|].
    rewrite (Hempty _ _ Hc2), app_nil_r. reflexivity.
Qed.

(** X16: when the reset of the estimator hands back no rows (every
    tensor of the reset values is empty), the concatenation that
    [core_experience] makes at a terminal is the overwritten values
    themselves, component by component and in their order. *)
Theorem concat_values_empty_reset (ov rv : @values Cell) :
  zips_with ov rv = true ->
  no_rows rv = true ->
  concat_values ov rv = Ok ov.
Proof.
  intros Hzip Hrows.
  assert (forall k v, od_get rv k = Some v ->
            match v with
            | Tensor t => t = []
            | Nested d => forall i c, od_get d i = Some c -> c = []
            end) as Hempty.
  { intros k v Hv. apply od_get_elem in Hv.
    unfold no_rows in Hrows. rewrite forallb_forall in Hrows.
    specialize (Hrows _ (proj1 (list_elem_of_In _ _) Hv)). cbn in Hrows.
    destruct v as [t|d].
    - destruct t; [reflexivity | discriminate].
    - intros i c Hc. apply od_get_elem in Hc.
      rewrite forallb_forall in Hrows.
      specialize (Hrows _ (proj1 (list_elem_of_In _ _) Hc)). cbn in Hrows.
      destruct c; [reflexivity | discriminate]. }
  clear Hrows. induction ov as [|[k v1] ov IH].
  - reflexivity.
  - cbn in Hzip. apply andb_true_iff in Hzip as [Hk Hzip].
    destruct (od_get rv k) as [v2|] eqn:Hv2; [|discriminate].
    apply concat_values_cons. exists v2, v1, ov.
    split; [exact Hv2|]. split; [|split; [apply IH, Hzip | reflexivity]].
    specialize (Hempty _ _ Hv2).
    unfold concat_value, shape_ok in *.
    destruct v1 as [t1|d1], v2 as [t2|d2]; try discriminate.
    + apply negb_true_iff in Hk. rewrite Hk, Hempty, app_nil_r.
      reflexivity.
    + apply andb_true_iff in Hk as [Hnested Hkeys]. rewrite Hnested.
      rewrite concat_nested_empty; [reflexivity | exact Hempty | exact Hkeys].
Qed.

End CommitMore.

(** ** Acting *)

Lemma od_get_None {V} (d : list (string * V)) (name : string) :
  od_get d name = None <-> name ∉ d.*1.
Proof.
  induction d as [|[k x] d IH]; cbn.
  - split; [intros _ Hin; inversion Hin | reflexivity].
  - destruct (String.eqb k name) eqn:E.
    + apply String.eqb_eq in E as ->. split; [discriminate|].
      intros Hout. destruct Hout. left.
    + apply String.eqb_neq in E. rewrite IH, not_elem_of_cons.
      split; [intros Hd; split; [congruence | exact Hd] | tauto].
Qed.

Lemma od_set_new {V} (d : list (string * V)) (name : string) (v : V) :
  name ∉ d.*1 -> (od_set d name v).*1 = d.*1 ++ [name].
Proof.
  induction d as [|[k x] d IH]; cbn; intros Hout; [reflexivity|].
  apply not_elem_of_cons in Hout as [Hne Hout].
  destruct (String.eqb k name) eqn:E.
  - apply String.eqb_eq in E. congruence.
  - cbn. rewrite IH by exact Hout. reflexivity.
Qed.

Lemma od_update_new {V} (d other : list (string * V)) :
  NoDup (d.*1 ++ other.*1) ->
  (od_update d other).*1 = d.*1 ++ other.*1.
Proof.
  unfold od_update. revert d.
  induction other as [|[k x] other IH]; intros d Hnodup; cbn.
  - rewrite app_nil_r. reflexivity.
  - cbn in Hnodup.
    assert (k ∉ d.*1) as Hk.
    { apply NoDup_app in Hnodup as (_ & Hdisjoint & _).
      intros Hin. apply (Hdisjoint k Hin). left. }
    rewrite IH; rewrite od_set_new by exact Hk.
    + rewrite <- app_assoc. reflexivity.
    + rewrite <- app_assoc. exact Hnodup.
Qed.

Lemma select_internals_names {V} (internals : list (string * V))
    (names : list string) (selected : list (string * V)) :
  NoDup (selected.*1 ++ names) ->
  (forall name, name ∈ names -> is_Some (od_get internals name)) ->
  exists r, select_internals internals names selected = Ok r
            /\ r.*1 = selected.*1 ++ names.
Proof.
  revert selected. induction names as [|n names IH];
    intros selected Hnodup Hall; cbn.
  - exists selected. rewrite app_nil_r. auto.
  - destruct (Hall n) as [x Hx]; [left|].
    unfold od_getitem. rewrite Hx. cbn.
    assert (n ∉ selected.*1) as Hn.
    { apply NoDup_app in Hnodup as (_ & Hdisjoint & _).
      intros Hin. apply (Hdisjoint n Hin). left. }
    destruct (IH (od_set selected n x)) as (r & Hr & Hnames).
    + rewrite od_set_new, <- app_assoc by exact Hn. exact Hnodup.
    + intros name Hname. apply Hall. right. exact Hname.
    + exists r. split; [exact Hr|].
      rewrite Hnames, od_set_new, <- app_assoc by exact Hn. reflexivity.
Qed.

Section ActFacts.
Context `{EstimatorHorizons} {Cell : Type} `{!@PolicyAct Cell}.

(** X18: on a constructed model, with policies whose [act] hands back
    the next internals under the names of the internals it is given,
    [core_act] returns for every non-empty states input and every
    internals input that has the model's internals: the assertion that no
    baseline internal is among the policy's next internals cannot fail,
    and the next internals returned are those of the model's internals
    specification, the policy's first, then the baseline's. *)
Theorem core_act_next_internals (a : Args.t) (m : TensorforceModel)
    (states internals : list (string * list Cell))
    (auxiliaries : list (string * mask)) :
  init a = Ok m ->
  NoDup (Policy.internals_spec (Args.policy a)) ->
  (forall which st horizons given aux,
      (act which st horizons given aux).2.*1 = given.*1) ->
  states <> [] ->
  (forall name, name ∈ internals_spec m ->
     is_Some (od_get internals name)) ->
  exists actions next_internals,
    core_act m states internals auxiliaries
    = Returned (actions, next_internals)
    /\ next_internals.*1 = internals_spec m.
Proof.
  intros Hm Hnodup Hact Hstates Hgiven.
  pose proof (init_Ok_checks _ _ Hm)
    as ((_ & Hnodup_b & Hnew) & Hspec & _ & _ & _ & Hpolicy & _).
  apply init_Ok in Hm
    as (bs & mc & _ & _ & _ & _ & _ & _ & _ & Hs & Hb & _).
  unfold core_act. destruct states as [|[k some_state] states];
    [congruence|].
  rewrite Hpolicy, Hs, Hb.
  destruct (select_internals_names internals
              (Policy.internals_spec (Args.policy a)) [])
    as (policy_internals & -> & Hnames); [exact Hnodup | |].
  { intros name Hname. apply Hgiven. rewrite Hspec.
    apply elem_of_app. left. exact Hname. }
  cbn in Hnames.
  pose proof (Hact self_policy ((k, some_state) :: states)
                (act_horizons (length some_state)) policy_internals
                auxiliaries) as Hnext.
  destruct (act self_policy _ _ policy_internals _)
    as [actions next_internals].
  cbn in Hnext. rewrite Hnames in Hnext.
  rewrite Hspec in *.
  unfold baseline_internals_of in *.
  destruct (Args.baseline_policy a) as [b|]; cbn [from_option] in *;
    [rewrite !bool_decide_eq_true_2 by eauto
    |rewrite !bool_decide_eq_false_2 by (intros [? ?]; discriminate)];
    cbn [negb andb].
  - destruct (0 <? length (Policy.internals_spec b))%nat eqn:El.
    + destruct (select_internals_names internals
                  (Policy.internals_spec b) [])
        as (baseline_internals & -> & Hbnames); [exact Hnodup_b | |].
      { intros name Hname. apply Hgiven, elem_of_app. right. exact Hname. }
      cbn in Hbnames.
      pose proof (Hact self_baseline ((k, some_state) :: states)
                    (act_horizons (length some_state)) baseline_internals
                    auxiliaries) as Hbnext.
      destruct (act self_baseline _ _ baseline_internals _)
        as [ignored next_baseline].
      cbn in Hbnext. rewrite Hbnames in Hbnext.
      assert (forallb
                (fun kv : string * list Cell =>
                   negb (bool_decide (is_Some (od_get next_internals kv.1))))
                next_baseline = true) as ->.
      { apply forallb_forall. intros [n x] Hin. cbn.
        apply negb_true_iff, bool_decide_eq_false.
        intros [y Hy]. apply od_get_Some_elem in Hy.
        rewrite Hnext in Hy. apply (Hnew n); [|exact Hy].
        rewrite <- Hbnext. apply list_elem_of_fmap.
        exists (n, x). split; [reflexivity | apply list_elem_of_In, Hin]. }
      exists actions, (od_update next_internals next_baseline).
      split; [reflexivity|].
      rewrite od_update_new; rewrite Hnext, Hbnext; [reflexivity|].
      apply NoDup_app. split; [exact Hnodup|].
      split; [|exact Hnodup_b].
      intros n Hn Hnb. apply (Hnew n Hnb Hn).
    + destruct (Policy.internals_spec b); [|discriminate].
      exists actions, next_internals. rewrite app_nil_r. auto.
  - exists actions, next_internals. rewrite app_nil_r. auto.
Qed.

End ActFacts.

Lemma select_internals_Ok {V} (internals : list (string * V))
    (names : list string) (selected r : list (string * V)) :
  select_internals internals names selected = Ok r ->
  forall name, name ∈ names -> is_Some (od_get internals name).
Proof.
  revert selected. induction names as [|n names IH];
    intros selected Hr name Hname; cbn in Hr.
  - inversion Hname.
  - bind_ok Hr as x Hx. unfold od_getitem in Hx.
    destruct (od_get internals n) as [y|] eqn:Hy; [|discriminate].
    apply elem_of_cons in Hname as [-> | Hname]; [rewrite Hy; eauto|].
    eapply IH; eassumption.
Qed.

Lemma select_internals_Error {V} (internals : list (string * V))
    (names : list string) (selected : list (string * V)) (e : error) :
  select_internals internals names selected = Error e ->
  exists key, e = KeyError key /\ key ∈ names
              /\ od_get internals key = None.
Proof.
  revert selected. induction names as [|n names IH];
    intros selected He; cbn in He.
  - discriminate.
  - bind_error He.
    + unfold od_getitem in He.
      destruct (od_get internals n) eqn:Hn; [discriminate|].
      injection He as <-. exists n. split; [reflexivity|].
      split; [left | exact Hn].
    + destruct (IH _ He) as (key & -> & Hkey & Hnone).
      exists key. split; [reflexivity|]. split; [right; exact Hkey|].
      exact Hnone.
Qed.

Section ActInputs.
Context {Cell : Type} `{!@PolicyAct Cell}.

(** X19: what [core_act] needs.  When it returns, the states input is
    not empty and the internals input has every internal of the policy
    and, with a separate baseline, every internal of the baseline.  With
    the baseline there when it is separate, a state given and an internal
    of the policy missing, it raises the KeyError of a missing policy
    internal before any policy acts. *)
Theorem core_act_needs_inputs (m : TensorforceModel)
    (states internals : list (string * list Cell))
    (auxiliaries : list (string * mask)) :
  (forall r,
      core_act m states internals auxiliaries = Returned r ->
      states <> []
      /\ (forall name, name ∈ Policy.internals_spec (policy m) ->
            is_Some (od_get internals name))
      /\ (separate_baseline_policy m = true ->
          exists b, baseline m = Some b
                    /\ forall name, name ∈ Policy.internals_spec b ->
                         is_Some (od_get internals name)))
  /\ (forall name,
        (separate_baseline_policy m = true -> is_Some (baseline m)) ->
        states <> [] ->
        name ∈ Policy.internals_spec (policy m) ->
        od_get internals name = None ->
        exists key,
          core_act m states internals auxiliaries = Raised (KeyError key)
          /\ key ∈ Policy.internals_spec (policy m)
          /\ od_get internals key = None).
Proof.
  unfold core_act. split.
  - intros r Hr.
    destruct (separate_baseline_policy m
              && negb (bool_decide (is_Some (baseline m)))); [discriminate|].
    destruct states as [|[k some_state] states]; [discriminate|].
    split; [discriminate|].
    destruct (select_internals internals
                (Policy.internals_spec (policy m)) [])
      as [policy_internals|e] eqn:Hp; [|discriminate].
    split; [eapply select_internals_Ok, Hp|].
    intros Hs. rewrite Hs in Hr.
    destruct (act self_policy _ _ policy_internals _)
      as [actions next_internals].
    destruct (baseline m) as [b|]; [|discriminate].
    exists b. split; [reflexivity|].
    destruct (0 <? length (Policy.internals_spec b))%nat eqn:El.
    + destruct (select_internals internals (Policy.internals_spec b) [])
        as [baseline_internals|e] eqn:Hb; [|discriminate].
      eapply select_internals_Ok, Hb.
    + destruct (Policy.internals_spec b); [|discriminate].
      intros name Hname. inversion Hname.
  - intros name Hbaseline Hstates Hname Hnone.
    assert (separate_baseline_policy m
            && negb (bool_decide (is_Some (baseline m))) = false) as ->.
    { destruct (separate_baseline_policy m); [|reflexivity].
      rewrite bool_decide_eq_true_2 by (apply Hbaseline; reflexivity).
      reflexivity. }
    destruct states as [|[k some_state] states]; [congruence|].
    destruct (select_internals internals
                (Policy.internals_spec (policy m)) [])
      as [policy_internals|e] eqn:Hp.
    + destruct (select_internals_Ok _ _ _ _ Hp name Hname) as [x Hx].
      congruence.
    + apply select_internals_Error in Hp as (key & -> & Hkey & Hk).
      exists key. auto.
Qed.

End ActInputs.

(** ** The order of the calls of an update *)

Section UpdateOrder.
Context `{Util} {Cell : Type} {EM : @EstimatorModule Cell}.

(** X20: an update goes through only on a model with a separate
    baseline policy (the optimizer arguments are made from
    [self.baseline]), and its calls come in this order: first the batch is
    retrieved from the memory, by timesteps (with the larger of the
    on-policy past horizons of policy and separate baseline) or by
    episodes; last the main optimizer steps, once; in between, the
    baseline optimizer steps exactly when the model has an optimizer of
    the baseline's own, and then before the reward of the main step is
    estimated. *)
Theorem update_call_order (m : TensorforceModel) (env : Env)
    (s s' : State) :
  core_update m env s = Ok s' ->
  separate_baseline_policy m = true
  /\ exists before_estimate after_estimate,
      trace s'
      = trace s
        ++ [if String.eqb (update_unit m) "timesteps"
            then memory_retrieve_timesteps (batch_size_value env)
                   (if separate_baseline_policy m
                    then Z.max (policy_past_horizon env true)
                           (baseline_past_horizon env true)
                    else policy_past_horizon env true)
                   (future_horizon env)
            else memory_retrieve_episodes (batch_size_value env)]
        ++ before_estimate
        ++ [estimator_estimate (baseline_of m)
              (separate_baseline_policy m && is_None (baseline_optimizer m)
               && is_None (baseline_objective m))]
        ++ after_estimate ++ [optimizer_minimize]
      /\ (baseline_optimizer_minimize ∈ before_estimate
          <-> is_None (baseline_optimizer m) = false)
      /\ (baseline_optimizer_minimize ∉ after_estimate)
      /\ optimizer_steps (before_estimate ++ after_estimate) = 0.
Proof.
  unfold core_update. intros Hu.
  bind_ok Hu as s1 Hs1. bind_ok Hu as s2 Hs2. injection Hu as <-.
  change (trace (assign_add_update 1 s2)) with (trace s2).
  assert (trace s1
          = trace s
            ++ [if String.eqb (update_unit m) "timesteps"
                then memory_retrieve_timesteps (batch_size_value env)
                       (if separate_baseline_policy m
                        then Z.max (policy_past_horizon env true)
                               (baseline_past_horizon env true)
                        else policy_past_horizon env true)
                       (future_horizon env)
                else memory_retrieve_episodes (batch_size_value env)])
    as Ht1.
  { destruct (String.eqb _ "timesteps");
      [|destruct (String.eqb _ "episodes"); [|discriminate]];
      injection Hs1 as <-; reflexivity. }
  unfold optimize in Hs2. bind_ok Hs2 as s3 Hs3. bind_ok Hs2 as u Hu.
  bind_ok Hs2 as x Hx. apply getattr_baseline_Ok in Hx as [Hseparate _].
  split; [exact Hseparate|].
  injection Hs2 as <-. rewrite !trace_call.
  destruct (is_None (baseline_optimizer m)) eqn:Eb; cbn in Hs3.
  - injection Hs3 as <-. rewrite Ht1.
    exists [memory_retrieve ["reward"]; estimator_complete (baseline_of m)],
      [memory_predecessors (policy_past_horizon env true);
       memory_retrieve ["auxiliaries"; "actions"]].
    split; [rewrite <- !app_assoc; reflexivity|].
    split; [|split; [|reflexivity]].
    + split; [|discriminate]. intros Hin.
      repeat (apply elem_of_cons in Hin as [Hin | Hin]; [discriminate|]).
      inversion Hin.
    + intros Hin.
      repeat (apply elem_of_cons in Hin as [Hin | Hin]; [discriminate|]).
      inversion Hin.
  - apply optimize_baseline_Ok in Hs3 as [_ ->]. rewrite !trace_call, Ht1.
    exists [memory_predecessors (baseline_past_horizon env true);
            memory_retrieve ["auxiliaries"; "actions"; "reward"];
            memory_retrieve ["reward"]; estimator_complete self_baseline;
            baseline_optimizer_minimize;
            memory_retrieve ["reward"]; estimator_complete (baseline_of m)],
      [memory_predecessors (policy_past_horizon env true);
       memory_retrieve ["auxiliaries"; "actions"]].
    split; [rewrite <- !app_assoc; reflexivity|].
    split; [|split; [|reflexivity]].
    + split; [reflexivity|]. intros _.
      do 4 right. left.
    + intros Hin.
      repeat (apply elem_of_cons in Hin as [Hin | Hin]; [discriminate|]).
      inversion Hin.
Qed.

End UpdateOrder.

(** ** The theorems at work on the sample configurations *)

Ltac by_computation := vm_compute; repeat split; easy.

Lemma construction_follows_topology_table_witness :
  (exists m, init (Sample.args_baseline (VSpec "adam")) = Ok m)
  /\ (exists c, init Sample.args_weight_only = Error (AssertionError c))
  /\ marks_baseline_trainable Sample.model_joint = true.
Proof.
  split; [|split].
  - destruct (construction_follows_topology_table
                (Sample.args_baseline (VSpec "adam")))
      as (_ & _ & Hvalid & _).
    apply Hvalid. unfold other_arguments_valid, internals_accepted.
    split.
    { split; [constructor|]. split; [repeat constructor; inversion 1|].
      intros internal _ Hin. inversion Hin. }
    split; [reflexivity|]. split.
    { exists "timesteps", (VInt 8), {| min_value := 8; max_value := 8 |}.
      split; [reflexivity|]. split; [left|]. split; [reflexivity|].
      split; [reflexivity|]. split.
      - right. eexists _, _. split; reflexivity.
      - exists (VInt 3), 13. split; [reflexivity|].
        split; [reflexivity | cbn; lia]. }
    split; [reflexivity|]. split; [eexists; reflexivity | reflexivity].
  - destruct (construction_follows_topology_table Sample.args_weight_only)
      as (_ & _ & Hvalid & _).
    apply Hvalid. unfold other_arguments_valid, internals_accepted.
    split.
    { split; [constructor|]. split; [constructor|].
      intros internal Hin. inversion Hin. }
    split; [reflexivity|]. split.
    { exists "timesteps", (VInt 8), {| min_value := 8; max_value := 8 |}.
      split; [reflexivity|]. split; [left|]. split; [reflexivity|].
      split; [reflexivity|]. split.
      - right. eexists _, _. split; reflexivity.
      - exists (VInt 3), 12. split; [reflexivity|].
        split; [reflexivity | cbn; lia]. }
    split; [reflexivity|]. split; [eexists; reflexivity | reflexivity].
  - destruct (construction_follows_topology_table
                (Sample.args_baseline VNone))
      as (_ & _ & _ & Hresolved).
    destruct (Hresolved Sample.model_joint) as (_ & _ & _ & _ & Hmarks & _);
      [vm_compute; reflexivity|].
    rewrite Hmarks. reflexivity.
Defined.


Lemma update_frequency_default_and_bounds_witness :
  (exists m, init Sample.args_plain = Ok m
             /\ update_frequency m = Some (update_batch_size m)
             /\ max_value (update_batch_size m) = 8)
  /\ is_Error (init Sample.args_frequency_9) = true.
Proof.
  destruct (update_frequency_default_and_bounds Sample.args_plain)
    as [Hdefault _].
  destruct (update_frequency_default_and_bounds Sample.args_frequency_9)
    as [_ Hreject].
  split.
  - destruct (init Sample.args_plain) as [m|e] eqn:Hm;
      [|vm_compute in Hm; discriminate].
    exists m. split; [reflexivity|].
    split; [apply (Hdefault m eq_refl); reflexivity|].
    vm_compute in Hm. injection Hm as <-. reflexivity.
  - apply (Hreject (VInt 9) (VInt 8) {| min_value := 9; max_value := 9 |}
             {| min_value := 8; max_value := 8 |});
      by_computation.
Defined.

Lemma memory_min_capacity_witness :
  exists m, init Sample.args_episodes_bounded = Ok m
            /\ min_capacity (memory m) = 900.
Proof.
  destruct (init Sample.args_episodes_bounded) as [m|e] eqn:Hm;
    [|vm_compute in Hm; discriminate].
  exists m. split; [reflexivity|].
  destruct (memory_min_capacity Sample.args_episodes_bounded m Hm)
    as (_ & Hepisodes & _).
  pose proof Hm as Hm'. vm_compute in Hm'. injection Hm' as <-.
  rewrite Hepisodes; reflexivity.
Defined.

Lemma never_frequency_only_records_witness :
  exists m, init Sample.args_never = Ok m
            /\ update_frequency m = None
            /\ core_observe m (Sample.env 8 0 0 3) (Sample.batch [0; 1])
                 (Sample.state0 12 0)
               = core_experience m (Sample.batch [0; 1]) (Sample.state0 12 0).
Proof.
  destruct (init Sample.args_never) as [m|e] eqn:Hm;
    [|vm_compute in Hm; discriminate].
  destruct (never_frequency_only_records Sample.args_never m Hm)
    as (Hnone & Hobserve & _); [by_computation|].
  exists m. split; [reflexivity|]. split; [exact Hnone | apply Hobserve].
Defined.

Lemma no_second_update_at_same_unit_witness :
  core_observe Sample.model_joint (Sample.env 8 0 0 3)
    (Sample.batch [0; 0; 0; 1]) (Sample.state0 12 0) = Ok Sample.updated_12
  /\ core_observe Sample.model_joint (Sample.env 8 0 0 3)
       (Sample.batch [0]) Sample.updated_12 = Ok Sample.experienced_again_12
  /\ update Sample.updated_12 = 1
  /\ update Sample.experienced_again_12 = 1.
Proof.
  destruct (no_second_update_at_same_unit Sample.model_joint
              (Sample.env 8 0 0 3) (Sample.env 8 0 0 3)
              (Sample.batch [0; 0; 0; 1]) (Sample.batch [0])
              (Sample.state0 12 0) Sample.experienced_12 Sample.updated_12
              Sample.experienced_again_12 0
              {| min_value := 8; max_value := 8 |})
    as (Hfirst & _ & _ & Hsecond & Hsame);
    [by_computation | by_computation | by_computation | by_computation
    | by_computation | by_computation | by_computation |].
  split; [exact Hfirst|]. split; [exact Hsecond|].
  split; [reflexivity | rewrite Hsame; reflexivity].
Defined.

Lemma last_update_monotone_witness :
  exists s',
    run_observe Sample.model_joint
      [Sample.observation 12 [0; 0; 0; 1]; Sample.observation 20 [0; 0]]
      (Sample.state0 0 0) = Ok s'
    /\ last_update s' = 8
    /\ last_update (Sample.state0 0 0) <= last_update s'.
Proof.
  destruct (last_update_monotone Sample.model_joint) as (_ & _ & Hrun).
  destruct (run_observe Sample.model_joint
              [Sample.observation 12 [0; 0; 0; 1]; Sample.observation 20 [0; 0]]
              (Sample.state0 0 0)) as [s'|e] eqn:Hs';
    [|vm_compute in Hs'; discriminate].
  exists s'. split; [reflexivity|].
  split; [vm_compute in Hs'; injection Hs' as <-; reflexivity|].
  apply (Hrun _ _ _ Hs').
Defined.

Lemma optimize_horizon_check_witness :
  optimize (Sample.model_with_baseline VNone) Sample.env_unequal_horizons
    (Sample.state0 12 0) = Error horizon_mismatch
  /\ exists s',
      optimize (Sample.model_with_baseline (VSpec "adam"))
        Sample.env_unequal_horizons (Sample.state0 12 0) = Ok s'.
Proof.
  split.
  - destruct (optimize_horizon_check (Sample.model_with_baseline VNone)
                Sample.env_unequal_horizons (Sample.state0 12 0))
      as [Hjoint _].
    destruct Hjoint as [Hdiffer _]; [by_computation | by_computation |].
    apply Hdiffer. discriminate.
  - destruct (optimize_horizon_check
                (Sample.model_with_baseline (VSpec "adam"))
                Sample.env_unequal_horizons (Sample.state0 12 0))
      as [_ Hseparate].
    apply Hseparate; by_computation.
Defined.

Lemma api_experience_preconditions_witness :
  (exists message,
      api_experience Sample.model_plain (Sample.batch [1; 0])
        (Sample.state0 12 0) = Error (InvalidArgumentError message))
  /\ assert_terminal_last (Sample.batch [0; 1]) = Ok tt.
Proof.
  split.
  - destruct (api_experience_preconditions Sample.model_plain
                (Sample.batch [1; 0]) (Sample.state0 12 0))
      as [Hraise _].
    apply Hraise. right. left. exists 0%nat, 1.
    split; [reflexivity|]. split; [lia | discriminate].
  - destruct (api_experience_preconditions Sample.model_plain
                (Sample.batch [0; 1]) (Sample.state0 12 0))
      as (_ & Hpass & _).
    destruct Hpass as (_ & _ & Hlast).
    + discriminate.
    + vm_compute. discriminate.
    + intros [|[|i]] t Hi Ht; cbn in Hi;
        [injection Hi as <-; lia | reflexivity | discriminate].
    + reflexivity.
    + exact Hlast.
Defined.

Lemma core_experience_commits_witness :
  exists v,
    core_experience Sample.model_plain (Sample.batch [0; 0; 0; 1])
      (Sample.state0 12 0)
    = Ok (commit v (set_staged ([] : list Sample.row) (Sample.state0 12 0)))
    /\ component v "terminal" None = Some [VInt 0; VInt 0; VInt 0; VInt 1]
    /\ component v "states" (Some "state")
       = Some [VInt 0; VInt 0; VInt 0; VInt 1].
Proof.
  destruct (core_experience_commits Sample.model_plain
              (Sample.batch [0; 0; 0; 1]) (Sample.state0 12 0)
              [(VInt 0, (0, 1%Q)); (VInt 1, (1, 1%Q))] true
              (Sample.values_of [(VInt 0, (0, 1%Q)); (VInt 0, (0, 1%Q))]) 1)
    as (Hterminal & _ & _); [reflexivity | reflexivity |].
  destruct (Hterminal ltac:(reflexivity) []
              (Sample.values_of [(VInt 0, (0, 1%Q)); (VInt 1, (1, 1%Q))])
              [VInt 0; VInt 0])
    as (v & Hcomponents & _ & Hcommit);
    [reflexivity | reflexivity | reflexivity |].
  exists v. split; [exact Hcommit|].
  split; rewrite Hcomponents; reflexivity.
Defined.

(** ** The further theorems at work on the sample configurations *)

Lemma constructed_internals_spec_witness :
  init Scenario.args_recurrent = Ok Scenario.model_recurrent
  /\ internals_spec Scenario.model_recurrent = ["state"; "baseline-state"].
Proof.
  assert (init Scenario.args_recurrent = Ok Scenario.model_recurrent) as Hm
    by by_computation.
  split; [exact Hm|].
  destruct (constructed_internals_spec _ _ Hm) as (Hspec & _).
  rewrite Hspec. reflexivity.
Defined.

Lemma internals_rejected_witness :
  init Scenario.args_collision
  = Error (TensorforceError_collision "model" "internals").
Proof.
  destruct (internals_rejected Scenario.args_collision) as [_ Hcollision].
  apply (Hcollision (Sample.recurrent "state" 0) "state").
  - repeat constructor.
  - reflexivity.
  - left.
  - left.
Defined.

Lemma update_mode_rejected_witness :
  init Scenario.args_unknown_key
  = Error (TensorforceError_value "agent" "update").
Proof.
  destruct (update_mode_rejected Scenario.args_unknown_key) as [Hkey _].
  - split; [constructor|]. split; [constructor|].
    intros internal Hin. inversion Hin.
  - apply Hkey. exists "batchsize". split.
    + exists (VInt 8). by_computation.
    + apply (bool_decide_unpack _). by_computation.
Defined.

Lemma constructed_configuration_keys_witness :
  Args.update Sample.args_plain !! "unit" = Some (VStr "timesteps")
  /\ Args.reward_estimation Sample.args_plain !! "horizon" = Some (VInt 3).
Proof.
  destruct (constructed_configuration_keys Sample.args_plain
              Sample.model_plain)
    as (_ & Hunit & _ & _ & _ & Hhorizon); [by_computation|].
  split; [exact Hunit | exact Hhorizon].
Defined.

Lemma constructed_schedule_witness :
  exists m, init Sample.args_never = Ok m
            /\ update_start m = None
            /\ 1 <= min_value (update_batch_size m).
Proof.
  destruct (init Sample.args_never) as [m|e] eqn:Hm;
    [|vm_compute in Hm; discriminate].
  exists m. split; [reflexivity|].
  destruct (constructed_schedule Sample.args_never m Hm)
    as (Hnever & Hstart & Hbatch & _).
  split; [|exact Hbatch]. apply Hstart, Hnever. by_computation.
Defined.

Lemma never_ignores_start_witness :
  init (with_update Sample.args_never
          (<["start" := VInt (-5)]> (Args.update Sample.args_never)))
  = init Sample.args_never.
Proof. apply never_ignores_start. by_computation. Defined.

Lemma constructed_total_loss_witness :
  total_loss Scenario.model_recurrent
  = Ok [plain (mean_loss_per_instance self_objective self_policy);
        plain self_regularize;
        times (VFloat 0.5)
          [mean_loss_per_instance self_baseline_objective self_baseline;
           baseline_regularize]]
  /\ total_loss (Sample.model_of Sample.args_objective_only)
     = Error (AttributeError "baseline").
Proof.
  split.
  - destruct (constructed_total_loss Scenario.args_recurrent
                Scenario.model_recurrent) as [Hloss _]; [by_computation|].
    rewrite Hloss. reflexivity.
  - destruct (constructed_total_loss Sample.args_objective_only
                (Sample.model_of Sample.args_objective_only)) as [Hloss _];
      [by_computation|].
    rewrite Hloss. reflexivity.
Defined.

Lemma trainable_baseline_is_trained_witness :
  is_None (baseline_objective (Sample.model_with_baseline VNone)) = false
  \/ truthy (Estimator.estimate_advantage
               (estimator (Sample.model_with_baseline VNone))) = true.
Proof.
  apply (trainable_baseline_is_trained (Sample.args_baseline VNone));
    by_computation.
Defined.

Lemma constructed_initial_internals_witness :
  internals_init Scenario.model_recurrent !! "state" <> Some VNone.
Proof.
  destruct (constructed_initial_internals Scenario.args_recurrent
              Scenario.model_recurrent) as [_ Hnone]; [by_computation|].
  apply Hnone.
Defined.

Lemma no_update_before_start_witness :
  run_observe Sample.model_plain Scenario.early (Sample.state0 0 0)
  = Ok Scenario.after_early
  /\ update Scenario.after_early = update (Sample.state0 0 0)
  /\ last_update Scenario.after_early = -1.
Proof.
  assert (run_observe Sample.model_plain Scenario.early (Sample.state0 0 0)
          = Ok Scenario.after_early) as Hrun by by_computation.
  split; [exact Hrun|].
  destruct (no_update_before_start Sample.model_plain Scenario.early
              (Sample.state0 0 0) Scenario.after_early)
    as (Hupdate & Hlast & _).
  - left. reflexivity.
  - clear Hrun. by_computation.
  - clear Hrun. repeat constructor; by_computation.
  - exact Hrun.
  - split; [exact Hupdate | exact Hlast].
Defined.

Lemma scheduled_updates_a_window_apart_witness :
  run_observe Sample.model_joint Scenario.run_12_20_28 (Sample.state0 0 0)
  = Ok Scenario.after_12_20_28
  /\ last_update Scenario.after_12_20_28 = 16
  /\ on_schedule 8 (last_update Scenario.after_12_20_28).
Proof.
  assert (run_observe Sample.model_joint Scenario.run_12_20_28
            (Sample.state0 0 0) = Ok Scenario.after_12_20_28) as Hrun
    by by_computation.
  split; [exact Hrun|]. split; [reflexivity|].
  destruct (scheduled_updates_a_window_apart Sample.model_joint 8
              Scenario.run_12_20_28 (Sample.state0 0 0)
              Scenario.after_12_20_28) as [Hon _].
  - lia.
  - repeat constructor.
  - left. reflexivity.
  - exact Hrun.
  - exact Hon.
Defined.

Lemma api_update_keeps_schedule_witness :
  api_update Sample.model_separate (Sample.env 8 0 0 3) (Sample.state0 12 0)
  = Ok Scenario.api_updated_12
  /\ update Scenario.api_updated_12 = 1
  /\ last_update Scenario.api_updated_12 = -1.
Proof.
  assert (api_update Sample.model_separate (Sample.env 8 0 0 3)
            (Sample.state0 12 0) = Ok Scenario.api_updated_12) as Hrun
    by by_computation.
  split; [exact Hrun|].
  destruct (api_update_keeps_schedule Sample.model_separate
              (Sample.env 8 0 0 3) (Sample.env 8 0 0 3) (Sample.state0 12 0)
              Scenario.api_updated_12) as (Hupdate & Hlast & _);
    [exact Hrun|].
  split; [rewrite Hupdate; reflexivity | rewrite Hlast; reflexivity].
Defined.

Lemma update_counts_optimizer_steps_witness :
  run_observe Sample.model_joint Scenario.run_12_20_28 (Sample.state0 0 0)
  = Ok Scenario.after_12_20_28
  /\ optimizer_steps (trace Scenario.after_12_20_28) = 3
  /\ update Scenario.after_12_20_28 = 3.
Proof.
  assert (run_observe Sample.model_joint Scenario.run_12_20_28
            (Sample.state0 0 0) = Ok Scenario.after_12_20_28) as Hrun
    by by_computation.
  split; [exact Hrun|].
  destruct (update_counts_optimizer_steps Sample.model_joint
              Scenario.run_12_20_28 (Sample.state0 0 0)
              Scenario.after_12_20_28) as [_ Hupdate];
    [clear Hrun; by_computation | exact Hrun |].
  split; [reflexivity | rewrite Hupdate; reflexivity].
Defined.

Lemma api_experience_accepts_rectangular_witness :
  length (reward (Sample.batch [0; 0; 0; 1]))
  = length (terminal (Sample.batch [0; 0; 0; 1])).
Proof.
  destruct (api_experience_accepts_rectangular Sample.model_plain
              (Sample.batch [0; 0; 0; 1]) (Sample.state0 12 0)
              Scenario.api_experienced) as [Hreward _]; [by_computation|].
  exact Hreward.
Defined.

Lemma api_experience_only_records_witness :
  core_experience Sample.model_plain (Sample.batch [0; 0; 0; 1])
    (Sample.state0 12 0) = Ok Scenario.api_experienced
  /\ update Scenario.api_experienced = update (Sample.state0 12 0).
Proof.
  destruct (api_experience_only_records Sample.model_plain
              (Sample.batch [0; 0; 0; 1]) (Sample.state0 12 0)
              Scenario.api_experienced) as (Hcore & Hupdate & _);
    [by_computation|].
  split; [exact Hcore | exact Hupdate].
Defined.

Lemma concat_values_empty_reset_witness :
  concat_values (Sample.values_of [(VInt 0, (0, 1%Q))]) (Sample.values_of [])
  = Ok (Sample.values_of [(VInt 0, (0, 1%Q))]).
Proof. apply concat_values_empty_reset; by_computation. Defined.

Lemma empty_batch_rejected_witness :
  exists message,
    api_experience Sample.model_plain (Sample.batch []) (Sample.state0 12 0)
    = Error (InvalidArgumentError message).
Proof.
  destruct (empty_batch_rejected Sample.model_plain (Sample.env 8 0 0 3)
              (Sample.batch []) (Sample.state0 12 0)) as (_ & _ & Hapi);
    [reflexivity|].
  exact Hapi.
Defined.

Lemma core_act_next_internals_witness :
  exists actions next_internals,
    core_act Scenario.model_recurrent [("state", [VInt 1])]
      Scenario.internals_input []
    = Returned (actions, next_internals)
    /\ next_internals.*1 = ["state"; "baseline-state"].
Proof.
  destruct (core_act_next_internals Scenario.args_recurrent
              Scenario.model_recurrent [("state", [VInt 1])]
              Scenario.internals_input [])
    as (actions & next_internals & Hact & Hnames).
  - by_computation.
  - apply (bool_decide_unpack _). by_computation.
  - intros which st horizons given aux. reflexivity.
  - discriminate.
  - intros name Hname.
    repeat (apply elem_of_cons in Hname as [-> | Hname];
            [eexists; reflexivity|]).
    inversion Hname.
  - exists actions, next_internals. split; [exact Hact | exact Hnames].
Defined.

Lemma core_act_needs_inputs_witness :
  exists key,
    core_act Scenario.model_recurrent [("state", [VInt 1])] [] []
    = Raised (KeyError key).
Proof.
  destruct (core_act_needs_inputs Scenario.model_recurrent
              [("state", [VInt 1])] [] []) as [_ Hmissing].
  destruct (Hmissing "state") as (key & Hraised & _).
  - intros _. eexists. reflexivity.
  - discriminate.
  - left.
  - reflexivity.
  - exists key. exact Hraised.
Defined.

Lemma update_call_order_witness :
  core_update Sample.model_separate (Sample.env 8 0 0 3) (Sample.state0 12 0)
  = Ok Scenario.api_updated_12
  /\ exists before_estimate after_estimate,
      baseline_optimizer_minimize ∈ (before_estimate : list (@event pyval))
      /\ optimizer_steps (before_estimate ++ after_estimate) = 0.
Proof.
  assert (core_update Sample.model_separate (Sample.env 8 0 0 3)
            (Sample.state0 12 0) = Ok Scenario.api_updated_12) as Hrun
    by by_computation.
  split; [exact Hrun|].
  destruct (update_call_order Sample.model_separate (Sample.env 8 0 0 3)
              (Sample.state0 12 0) Scenario.api_updated_12 Hrun)
    as (_ & before_estimate & after_estimate & _ & Hbaseline & _ & Hsteps).
  exists before_estimate, after_estimate.
  split; [apply Hbaseline; reflexivity | exact Hsteps].
Defined.
